(** * Nightfall_3: multisig administration and nonce sequencing

    A shallow embedding of
    - [cli/lib/nf3.mjs]: [Nf3.setEthereumSigningKey], [Nf3.getAccounts],
      [Nf3.submitTransaction] (the mutex-guarded nonce counter);
    - [ContractMultiSig] (constructor and the eight administrative methods);
    - [nightfall-administrator/src/ui/get-info.mjs]: the [start] control loop
      (the 'add' and 'get nonce' workflows and the executor loop).

    JavaScript numbers that hold nonces are integer-valued doubles: they are
    kept as integers ([N] for the transaction count of an account, [Z] for the
    multisig nonce) and added with the rounding of IEEE 754 binary64
    ([JsNumber]); strings are [string]; arrays are [list]; [undefined] is
    [None]. *)

From stdpp Require Import gmap strings list fin_maps.
From Stdlib Require Import ZArith Lia.
From Stdlib Require Import Sorting.Sorted.

Open Scope string_scope.
Open Scope list_scope.

(** ** Outcome of a promise: resolved with a value, or rejected. *)
Inductive Res (E A : Type) : Type :=
| Resolved (a : A)
| Rejected (e : E).
Arguments Resolved {E A} a.
Arguments Rejected {E A} e.

(* ===================================================================== *)
(** ** Arithmetic of JavaScript numbers on integers *)
(* ===================================================================== *)
Module JsNumber.

(** A JavaScript number that holds an integer is kept as that integer.  Up
    to [2^53] in magnitude every integer is a double; an integer that is not
    a double stands for no JavaScript number. *)
Definition limit : Z := (2 ^ 53)%Z.

(** The double nearest to the integer [x], ties going to the even
    significand.  Beyond [limit] the doubles are the multiples of
    [ulp = 2^(e-52)], for [2^e <= |x| < 2^(e+1)]. *)
Definition round (x : Z) : Z :=
  if Z.leb (Z.abs x) limit then x
  else
    let ulp := (2 ^ (Z.log2 (Z.abs x) - 52))%Z in
    let q := (x / ulp)%Z in
    let r := (x mod ulp)%Z in
    if Z.ltb (2 * r) ulp then (q * ulp)%Z
    else if Z.ltb ulp (2 * r) then ((q + 1) * ulp)%Z
    else if Z.even q then (q * ulp)%Z else ((q + 1) * ulp)%Z.

(** [a + b] on two integer-valued doubles. *)
Definition add (a b : Z) : Z := round (a + b)%Z.

(** [n++] on a counter that holds a non-negative integer: its new value. *)
Definition succ (n : N) : N := Z.to_N (add (Z.of_N n) 1).

End JsNumber.

(* ===================================================================== *)
(** ** cli/lib/nf3.mjs *)
(* ===================================================================== *)
Module Nf3.

(** [this.ethereumAddress]: what [getAccounts] stored.  With a non-empty
    key it is the address string of the key; with an empty key it is the
    (un-awaited) promise [web3.eth.getAccounts().then(a => a[0])]. *)
Inductive EthAddress : Type :=
| KeyAddress (a : string)
| UnlockedAccountPromise.

(** The fields of an [Nf3] instance that the transaction path touches. *)
Record t : Type := mk {
  ethereumSigningKey : string;
  ethereumAddress : EthAddress;
  shieldContractAddress : string;
  defaultFee : Z;
  nonce : N
}.

(** The web3 client: [web3.eth.accounts.privateKeyToAccount(k).address] is a
    pure function of the key; [web3.eth.getTransactionCount] is answered by
    the node, the [i]-th request of the session by [txCount a i]
    ([None]: the promise rejects). *)
Record Web3 : Type := mkWeb3 {
  privateKeyToAddress : string -> string;
  txCount : EthAddress -> nat -> option N
}.

(** The requests made so far to the node, oldest first. *)
Definition Chain : Type := list EthAddress.

Inductive Error : Type :=
| TransactionCountUnavailable.

Definition getTransactionCount (web3 : Web3) (a : EthAddress) (c : Chain)
  : Res Error N * Chain :=
  (match txCount web3 a (List.length c) with
   | Some n => Resolved n
   | None => Rejected TransactionCountUnavailable
   end, c ++ [a]).

Definition getAccounts (web3 : Web3) (key : string) : EthAddress :=
  if Nat.eqb (String.length key) 0 then UnlockedAccountPromise
  else KeyAddress (privateKeyToAddress web3 key).

Definition setEthereumSigningKey (web3 : Web3) (key : string) (this : t) : t :=
  {| ethereumSigningKey := key;
     ethereumAddress := getAccounts web3 key;
     shieldContractAddress := shieldContractAddress this;
     defaultFee := defaultFee this;
     nonce := 0%N |}.

Definition set_nonce (n : N) (this : t) : t :=
  {| ethereumSigningKey := ethereumSigningKey this;
     ethereumAddress := ethereumAddress this;
     shieldContractAddress := shieldContractAddress this;
     defaultFee := defaultFee this;
     nonce := n |}.

(** The transaction envelope built inside the critical section. *)
Record Tx : Type := mkTx {
  tx_from : EthAddress;
  tx_to : string;
  tx_data : string;
  tx_value : Z;
  tx_gas : Z;
  tx_gasPrice : Z;
  tx_nonce : N
}.

Definition buildTx (this : t) (contractAddress data : string) (fee : Z) : Tx :=
  {| tx_from := ethereumAddress this;
     tx_to := contractAddress;
     tx_data := data;
     tx_value := fee;
     tx_gas := 10000000;
     tx_gasPrice := 10000000000;
     tx_nonce := nonce this |}.

(** The callback given to [nonceMutex.runExclusive], run to completion.
    [!this.nonce] holds exactly when the counter is [0].  In that branch the
    node is asked twice: the first answer is stored in [this.nonce], the
    second one is only printed by the [console.log] that follows. *)
Definition criticalSection (web3 : Web3) (contractAddress data : string) (fee : Z)
    (this : t) (c : Chain) : Res Error Tx * t * Chain :=
  if N.eqb (nonce this) 0%N then
    match getTransactionCount web3 (ethereumAddress this) c with
    | (Rejected e, c1) => (Rejected e, this, c1)
    | (Resolved n, c1) =>
        let this1 := set_nonce n this in
        match getTransactionCount web3 (ethereumAddress this1) c1 with
        | (Rejected e, c2) => (Rejected e, this1, c2)
        | (Resolved _, c2) =>
            (Resolved (buildTx this1 contractAddress data fee),
             set_nonce (JsNumber.succ (nonce this1)) this1, c2)
        end
    end
  else
    (Resolved (buildTx this contractAddress data fee),
     set_nonce (JsNumber.succ (nonce this)) this, c).

(** What [submitTransaction] hands to web3 once the nonce is reserved. *)
Inductive Send : Type :=
| SendSigned (tx : Tx) (key : string)
| SendUnsigned (tx : Tx).

(** [submitTransaction], one call run without interleaving; the default
    arguments are [this.shieldContractAddress] and [this.defaultFee]. *)
Definition submitTransaction (web3 : Web3) (data : string)
    (contractAddress : option string) (fee : option Z)
    (this : t) (c : Chain) : Res Error Send * t * Chain :=
  let to := default (shieldContractAddress this) contractAddress in
  let value := default (defaultFee this) fee in
  match criticalSection web3 to data value this c with
  | (Rejected e, this', c') => (Rejected e, this', c')
  | (Resolved tx, this', c') =>
      (* a non-empty string is truthy *)
      if Nat.eqb (String.length (ethereumSigningKey this')) 0
      then (Resolved (SendUnsigned tx), this', c')
      else (Resolved (SendSigned tx (ethereumSigningKey this')), this', c')
  end.

Definition sent_tx (s : Send) : Tx :=
match s with
| SendSigned tx _ => tx
| SendUnsigned tx => tx
end.

(** *** Several calls of [submitTransaction] in flight at once

    JavaScript runs one task at a time and switches tasks only at an
    [await].  A call of [submitTransaction] is therefore cut at its awaits:
    at [nonceMutex.runExclusive] (the callback starts once the mutex is
    free), and inside the callback at the two [getTransactionCount]
    requests.  The mutex of async-mutex is held from the start of the
    callback until its promise settles.  Between two such pieces any other
    synchronous code of the program may run, [setEthereumSigningKey] in
    particular.  A pending count request keeps the address it was made
    for. *)
Inductive Phase : Type :=
| Queued
| AwaitCount1 (asked : EthAddress)
| AwaitCount2 (asked : EthAddress)
| Built (tx : Tx)
| Failed (e : Error).

Record Call : Type := mkCall {
  call_to : string;
  call_data : string;
  call_fee : Z
}.

Record Sys : Type := mkSys {
  this : t;
  chain : Chain;
  holder : option nat;
  tasks : list (Call * Phase)
}.

(** Task [i] is resumed; [None] when it cannot run: it does not exist, has
    settled, or waits for a mutex that is taken.  A count request carries the
    address [this.ethereumAddress] had when the request was made; the
    assignment [this.nonce = await ...] and [tx = {...}] read the instance as
    it is when the task resumes. *)
Definition resume (web3 : Web3) (i : nat) (s : Sys) : option Sys :=
  match tasks s !! i with
  | Some (c, Queued) =>
      match holder s with
      | Some _ => None
      | None =>
          if N.eqb (nonce (this s)) 0%N then
            Some (mkSys (this s) (chain s) (Some i)
                    (<[i := (c, AwaitCount1 (ethereumAddress (this s)))]> (tasks s)))
          else
            Some (mkSys (set_nonce (JsNumber.succ (nonce (this s))) (this s)) (chain s) None
                    (<[i := (c, Built (buildTx (this s) (call_to c) (call_data c) (call_fee c)))]>
                       (tasks s)))
      end
  | Some (c, AwaitCount1 asked) =>
      match getTransactionCount web3 asked (chain s) with
      | (Rejected e, c1) =>
          Some (mkSys (this s) c1 None (<[i := (c, Failed e)]> (tasks s)))
      | (Resolved n, c1) =>
          Some (mkSys (set_nonce n (this s)) c1 (holder s)
                  (<[i := (c, AwaitCount2 (ethereumAddress (this s)))]> (tasks s)))
      end
  | Some (c, AwaitCount2 asked) =>
      match getTransactionCount web3 asked (chain s) with
      | (Rejected e, c2) =>
          Some (mkSys (this s) c2 None (<[i := (c, Failed e)]> (tasks s)))
      | (Resolved _, c2) =>
          Some (mkSys (set_nonce (JsNumber.succ (nonce (this s))) (this s)) c2 None
                  (<[i := (c, Built (buildTx (this s) (call_to c) (call_data c) (call_fee c)))]>
                     (tasks s)))
      end
  | _ => None
  end.

(** What may happen at a turn of the event loop: a task is resumed, or the
    program calls [setEthereumSigningKey], which is synchronous and does not
    take the mutex. *)
Inductive Turn : Type :=
| Resume (i : nat)
| SetKey (key : string).

Definition step (web3 : Web3) (turn : Turn) (s : Sys) : option Sys :=
  match turn with
  | Resume i => resume web3 i s
  | SetKey key =>
      Some (mkSys (setEthereumSigningKey web3 key (this s)) (chain s) (holder s) (tasks s))
  end.

(** A schedule lists the turns; a turn given to a task that cannot run
    changes nothing. *)
Fixpoint run (web3 : Web3) (sched : list Turn) (s : Sys) : Sys :=
  match sched with
  | [] => s
  | turn :: rest => run web3 rest (default s (step web3 turn s))
  end.

(** All calls issued, none started. *)
Definition spawn (this0 : t) (c0 : Chain) (calls : list Call) : Sys :=
  mkSys this0 c0 None (map (fun c => (c, Queued)) calls).

(** One more call is issued. *)
Definition issue (call : Call) (s : Sys) : Sys :=
  mkSys (this s) (chain s) (holder s) (tasks s ++ [(call, Queued)]).

(** The nonce reserved by task [i], when its callback has completed. *)
Definition reserved (s : Sys) (i : nat) : option N :=
  match tasks s !! i with
  | Some (_, Built tx) => Some (tx_nonce tx)
  | _ => None
  end.

(** What holds of every state reached without a key change: the reserved
    nonces below [2^53] lie below the counter and differ from one another, and
    a task inside the callback holds the mutex (so there is at most one), the
    counter still being 0 while it waits for the first answer. *)
Record Inv (s : Sys) : Prop := mkInv {
  inv_below : ∀ i c tx, tasks s !! i = Some (c, Built tx) →
                        (Z.of_N (tx_nonce tx) < JsNumber.limit)%Z →
                        (tx_nonce tx < nonce (this s))%N;
  inv_distinct : ∀ i j ci cj txi txj,
      i ≠ j → tasks s !! i = Some (ci, Built txi) → tasks s !! j = Some (cj, Built txj) →
      (Z.of_N (tx_nonce txi) < JsNumber.limit)%Z →
      (Z.of_N (tx_nonce txj) < JsNumber.limit)%Z →
      tx_nonce txi ≠ tx_nonce txj;
  inv_await1 : ∀ i c asked, tasks s !! i = Some (c, AwaitCount1 asked) →
                            holder s = Some i ∧ nonce (this s) = 0%N;
  inv_await2 : ∀ i c asked, tasks s !! i = Some (c, AwaitCount2 asked) → holder s = Some i
}.

End Nf3.

(* ===================================================================== *)
(** ** ContractMultiSig *)
(* ===================================================================== *)
Module ContractMultiSig.

(** The contract methods whose call data the class encodes. *)
Inductive Method : Type :=
| m_transferOwnership (newOwner : string)
| m_setRestriction (tokenAddress : string) (depositRestriction withdrawRestriction : Z)
| m_removeRestriction (tokenAddress : string)
| m_pause
| m_unpause
| m_setBootProposer (newProposer : string)
| m_setBootChallenger (newChallenger : string)
| m_setMaticAddress (newMaticAddress : string).

(** A web3 contract instance: [options.address] and, for
    [methods.f(args).encodeABI()], the encoder of its ABI. *)
Record Contract : Type := mkContract {
  address : string;
  encodeABI : Method -> string
}.

(** The [contractInstances] object handed to the constructor. *)
Record ContractInstances : Type := mkInstances {
  multisig : Contract;
  shield : Contract;
  state : Contract;
  proposers : Contract;
  challenges : Contract
}.

(** [new MultiSig(web3, multisig, signatureThreshold, chainId, gasLimit)];
    the class itself lives in multisig.mjs. *)
Record MultiSig : Type := mkMultiSig {
  ms_contract : Contract;
  ms_signatureThreshold : Z;
  ms_chainId : Z;
  ms_gasLimit : Z
}.

Record t : Type := mk {
  multiSig : MultiSig;
  contractInstances : ContractInstances;
  contractInstancesOwnables : list Contract;
  contractInstancesPausables : list Contract
}.

(** The field initialisers give two empty arrays; the constructor pushes
    onto them. *)
Definition constructor (instances : ContractInstances)
    (signatureThreshold chainId gasLimit : Z) : t :=
  {| multiSig := mkMultiSig (multisig instances) signatureThreshold chainId gasLimit;
     contractInstances := instances;
     contractInstancesOwnables :=
       [] ++ [shield instances; state instances; proposers instances; challenges instances];
     contractInstancesPausables :=
       [] ++ [shield instances; state instances] |}.

(** The five arguments of one [this.multiSig.addMultiSigSignature(...)]. *)
Record Request : Type := mkRequest {
  data : string;
  signingKey : string;
  contractAddress : string;
  executorAddress : string;
  nonce : Z
}.

Section Methods.
(** [A] is what [addMultiSigSignature] resolves to; [Promise.all] keeps
    the order of the array it is given.  [privateKeyToAddress k] is
    [web3.eth.accounts.privateKeyToAccount(k, true).address]. *)
Context {A : Type}.
Variable addMultiSigSignature : MultiSig -> Request -> A.
Variable privateKeyToAddress : string -> string.

Definition transferOwnership (this : t)
    (newOwnerPrivateKey signingKey executorAddress : string) (nonce : Z) : list A :=
  let newOwner := privateKeyToAddress newOwnerPrivateKey in
  imap (fun i ownable =>
          let contractInstance := ownable in
          let data := encodeABI contractInstance (m_transferOwnership newOwner) in
          addMultiSigSignature (multiSig this)
            (mkRequest data signingKey (address contractInstance) executorAddress
               (JsNumber.add nonce (Z.of_nat i))))
       (contractInstancesOwnables this).

Definition setTokenRestrictions (this : t) (tokenAddress : string)
    (depositRestriction withdrawRestriction : Z)
    (signingKey executorAddress : string) (nonce : Z) : list A :=
  let data := encodeABI (shield (contractInstances this))
                (m_setRestriction tokenAddress depositRestriction withdrawRestriction) in
  [addMultiSigSignature (multiSig this)
     (mkRequest data signingKey (address (shield (contractInstances this)))
        executorAddress nonce)].

Definition removeTokenRestrictions (this : t) (tokenAddress : string)
    (signingKey executorAddress : string) (nonce : Z) : list A :=
  let data := encodeABI (shield (contractInstances this))
                (m_removeRestriction tokenAddress) in
  [addMultiSigSignature (multiSig this)
     (mkRequest data signingKey (address (shield (contractInstances this)))
        executorAddress nonce)].

Definition pauseContracts (this : t)
    (signingKey executorAddress : string) (nonce : Z) : list A :=
  imap (fun i pausable =>
          let contractInstance := pausable in
          let data := encodeABI contractInstance m_pause in
          addMultiSigSignature (multiSig this)
            (mkRequest data signingKey (address contractInstance) executorAddress
               (JsNumber.add nonce (Z.of_nat i))))
       (contractInstancesPausables this).

Definition unpauseContracts (this : t)
    (signingKey executorAddress : string) (nonce : Z) : list A :=
  imap (fun i pausable =>
          let contractInstance := pausable in
          let data := encodeABI contractInstance m_unpause in
          addMultiSigSignature (multiSig this)
            (mkRequest data signingKey (address contractInstance) executorAddress
               (JsNumber.add nonce (Z.of_nat i))))
       (contractInstancesPausables this).

Definition setBootProposer (this : t)
    (newProposerPrivateKey signingKey executorAddress : string) (nonce : Z) : list A :=
  let newProposer := privateKeyToAddress newProposerPrivateKey in
  let shieldContractInstance := shield (contractInstances this) in
  let data := encodeABI shieldContractInstance (m_setBootProposer newProposer) in
  [addMultiSigSignature (multiSig this)
     (mkRequest data signingKey (address shieldContractInstance) executorAddress nonce)].

Definition setBootChallenger (this : t)
    (newChallengerPrivateKey signingKey executorAddress : string) (nonce : Z) : list A :=
  let newChallenger := privateKeyToAddress newChallengerPrivateKey in
  let shieldContractInstance := shield (contractInstances this) in
  let data := encodeABI shieldContractInstance (m_setBootChallenger newChallenger) in
  [addMultiSigSignature (multiSig this)
     (mkRequest data signingKey (address shieldContractInstance) executorAddress nonce)].

Definition setMaticAddress (this : t)
    (newMaticAddress signingKey executorAddress : string) (nonce : Z) : list A :=
  let shieldContractInstance := shield (contractInstances this) in
  let data := encodeABI shieldContractInstance (m_setMaticAddress newMaticAddress) in
  [addMultiSigSignature (multiSig this)
     (mkRequest data signingKey (address shieldContractInstance) executorAddress nonce)].

(** An administrative action names one of the eight methods together
    with its own parameters. *)
Inductive Action : Type :=
| TransferOwnership (newOwnerPrivateKey : string)
| SetTokenRestrictions (tokenAddress : string) (depositRestriction withdrawRestriction : Z)
| RemoveTokenRestrictions (tokenAddress : string)
| Pause
| Unpause
| SetBootProposer (newProposerPrivateKey : string)
| SetBootChallenger (newChallengerPrivateKey : string)
| SetMaticAddress (newMaticAddress : string).

Definition perform (this : t) (a : Action)
    (signingKey executorAddress : string) (nonce : Z) : list A :=
  match a with
  | TransferOwnership k => transferOwnership this k signingKey executorAddress nonce
  | SetTokenRestrictions tok d w =>
      setTokenRestrictions this tok d w signingKey executorAddress nonce
  | RemoveTokenRestrictions tok =>
      removeTokenRestrictions this tok signingKey executorAddress nonce
  | Pause => pauseContracts this signingKey executorAddress nonce
  | Unpause => unpauseContracts this signingKey executorAddress nonce
  | SetBootProposer k => setBootProposer this k signingKey executorAddress nonce
  | SetBootChallenger k => setBootChallenger this k signingKey executorAddress nonce
  | SetMaticAddress a => setMaticAddress this a signingKey executorAddress nonce
  end.

(** The contracts an action reaches, in the order the method visits
    them, and the method it encodes for each. *)
Definition targets (this : t) (a : Action) : list Contract :=
  match a with
  | TransferOwnership _ => contractInstancesOwnables this
  | Pause | Unpause => contractInstancesPausables this
  | _ => [shield (contractInstances this)]
  end.

Definition method_of (a : Action) : Method :=
  match a with
  | TransferOwnership k => m_transferOwnership (privateKeyToAddress k)
  | SetTokenRestrictions tok d w => m_setRestriction tok d w
  | RemoveTokenRestrictions tok => m_removeRestriction tok
  | Pause => m_pause
  | Unpause => m_unpause
  | SetBootProposer k => m_setBootProposer (privateKeyToAddress k)
  | SetBootChallenger k => m_setBootChallenger (privateKeyToAddress k)
  | SetMaticAddress a => m_setMaticAddress a
  end.

(** The two lists the class keeps name the capabilities it knows of; the
    source has no other record of which contract can be paused or owned. *)
Inductive Capability : Type :=
| Ownable
| Pausable.


(** The capability whose list a method maps over; the other methods
    address the shield contract alone. *)
Definition capability_of (a : Action) : option Capability :=
  match a with
  | TransferOwnership _ => Some Ownable
  | Pause | Unpause => Some Pausable
  | _ => None
  end.

(** The nonce passed on for the [i]-th target: [nonce + i] where the method
    maps over a list, [nonce] itself otherwise. *)
Definition nonce_at (a : Action) (n : Z) (i : nat) : Z :=
  match capability_of a with
  | Some _ => JsNumber.add n (Z.of_nat i)
  | None => n
  end.

(** The request made for the [i]-th target of an action with base nonce
    [n]. *)
Definition request (a : Action) (signingKey executorAddress : string) (n : Z)
    (i : nat) (target : Contract) : Request :=
  mkRequest (encodeABI target (method_of a)) signingKey (address target)
    executorAddress (nonce_at a n i).
End Methods.

End ContractMultiSig.

(* ===================================================================== *)
(** ** nightfall-administrator/src/ui/get-info.mjs *)
(* ===================================================================== *)
Module GetInfo.

(** A value thrown inside [start]: a rejection of one of the imported
    helpers, or the [TypeError] of the language itself. *)
Inductive Err : Type :=
| HelperRejected (reason : string)
| TypeError (reason : string).

(** The answers of [askQuestions].  The numeric prompt yields [None] when
    nothing usable was typed. *)
Record Answers : Type := mkAnswers {
  task : string;
  ethereumSigningKey : string;
  tokenName : string;
  depositRestriction : Z;
  withdrawRestriction : Z;
  pause : bool;
  unpause : bool;
  newEthereumSigningKey : string;
  executorAddress : string;
  nonce : option Z;
  signedTx : string;
  workflow : string;
  executor : option string
}.

(** The functions imported from contract-transactions.mjs, with the
    arguments [start] gives them. *)
Inductive ContractTransaction : Type :=
| ct_setTokenRestrictions (tokenName : string) (deposit withdraw : Z)
    (signingKey executorAddress : string) (nonce : option Z)
| ct_removeTokenRestrictions (tokenName signingKey executorAddress : string) (nonce : option Z)
| ct_unpauseContracts (signingKey executorAddress : string) (nonce : option Z)
| ct_pauseContracts (signingKey executorAddress : string) (nonce : option Z)
| ct_transferOwnership (newKey signingKey executorAddress : string) (nonce : option Z)
| ct_setBootProposer (newKey signingKey executorAddress : string) (nonce : option Z)
| ct_setBootChallenger (newKey signingKey executorAddress : string) (nonce : option Z).

Section Start.
(** [Signed]: a signed transaction object; [W]: everything outside
    [start] (the database behind the helpers, the chain, the terminal). *)
Context {Signed W : Type}.

(** One element of [approved]: the approvals of one call, or
    [undefined]. *)
Definition Approval : Type := option (list Signed).

(** The imported helpers.  Each asynchronous one takes the outside world
    and gives back how its promise settled. *)
Record Helpers : Type := mkHelpers {
  askQuestions : bool -> W -> Res Err Answers * W;
  getTokenRestrictions : string -> W -> Res Err (Z * Z) * W;
  contractTransaction : ContractTransaction -> W -> Res Err (list Approval) * W;
  verifyTransactions : string -> option (list (list Signed));
  addSignedTransaction : Signed -> W -> Res Err (list Signed) * W;
  executeMultiSigTransaction : list Signed -> option string -> W -> Res Err unit * W;
  waitForContract : string -> W -> Res Err unit * W;
  multiSigNonce : W -> Res Err Z * W
}.

(** What an observer of one run of [start] sees, in order. *)
Inductive Call : Type :=
| c_askQuestions (b : bool)
| c_getTokenRestrictions (tokenName : string)
| c_contractTransaction (c : ContractTransaction)
| c_addSignedTransaction (tx : Signed)
| c_executeMultiSigTransaction (signatures : list Signed) (executor : option string)
| c_waitForContract (name : string)
| c_multiSigNonce.

Inductive Event : Type :=
| Invoked (c : Call)
| Settled (c : Call) (ok : bool)
| LogInfo (message : string)
| LogRestrictions (deposit withdraw : Z)
| LogNonce (nonce : option Z)
| LogError (message : string) (err : Err)
| ConnectionClosed.

Definition St : Type := W * list Event.
Definition M (A : Type) : Type := St -> Res Err A * St.

Definition ret {A} (a : A) : M A := fun s => (Resolved a, s).
Definition bind {A B} (m : M A) (k : A -> M B) : M B :=
  fun s => match m s with
           | (Resolved a, s') => k a s'
           | (Rejected e, s') => (Rejected e, s')
           end.
Definition throw {A} (e : Err) : M A := fun s => (Rejected e, s).
Definition emit (e : Event) : M unit :=
  fun s => (Resolved tt, (fst s, snd s ++ [e])).
(** [try { m } catch (err) { h err }] *)
Definition try_catch {A} (m : M A) (h : Err -> M A) : M A :=
  fun s => match m s with
           | (Resolved a, s') => (Resolved a, s')
           | (Rejected e, s') => h e s'
           end.
(** [await helper(...)] *)
Definition await {A} (c : Call) (f : W -> Res Err A * W) : M A :=
  fun s =>
    match f (fst s) with
    | (Resolved a, w') => (Resolved a, (w', snd s ++ [Invoked c; Settled c true]))
    | (Rejected e, w') => (Rejected e, (w', snd s ++ [Invoked c; Settled c false]))
    end.

Variable H : Helpers.
Variable SIGNATURE_THRESHOLD : Z.

(** [if (workflow === 'create') switch (task) {...}] *)
Definition createWorkflow (a : Answers) (approved : list Approval) : M (list Approval) :=
  let run c := await (c_contractTransaction c) (contractTransaction H c) in
  if String.eqb (task a) "Get token restrictions" then
    bind (await (c_getTokenRestrictions (tokenName a))
            (getTokenRestrictions H (tokenName a)))
      (fun dw => bind (emit (LogRestrictions (fst dw) (snd dw)))
                   (fun _ => ret approved))
  else if String.eqb (task a) "Set token restrictions" then
    run (ct_setTokenRestrictions (tokenName a) (depositRestriction a)
           (withdrawRestriction a) (ethereumSigningKey a) (executorAddress a) (nonce a))
  else if String.eqb (task a) "Remove token restrictions" then
    run (ct_removeTokenRestrictions (tokenName a) (ethereumSigningKey a)
           (executorAddress a) (nonce a))
  else if String.eqb (task a) "Unpause contracts" then
    if negb (unpause a) then ret approved
    else bind (emit (LogInfo "CALLING unpauseContracts"))
           (fun _ => run (ct_unpauseContracts (ethereumSigningKey a)
                            (executorAddress a) (nonce a)))
  else if String.eqb (task a) "Pause contracts" then
    if negb (pause a) then ret approved
    else run (ct_pauseContracts (ethereumSigningKey a) (executorAddress a) (nonce a))
  else if String.eqb (task a) "Transfer ownership" then
    run (ct_transferOwnership (newEthereumSigningKey a) (ethereumSigningKey a)
           (executorAddress a) (nonce a))
  else if String.eqb (task a) "Set new boot proposer" then
    run (ct_setBootProposer (newEthereumSigningKey a) (ethereumSigningKey a)
           (executorAddress a) (nonce a))
  else if String.eqb (task a) "Set new boot challenger" then
    run (ct_setBootChallenger (newEthereumSigningKey a) (ethereumSigningKey a)
           (executorAddress a) (nonce a))
  else
    bind (emit (LogInfo "This option has not been implemented"))
      (fun _ => ret approved).

(** [for (const tx of txs) approvals = await addSignedTransaction(tx);] *)
Fixpoint addEach (txs : list Signed) (approvals : Approval) : M Approval :=
  match txs with
  | [] => ret approvals
  | tx :: rest =>
      bind (await (c_addSignedTransaction tx) (addSignedTransaction H tx))
        (fun r => addEach rest (Some r))
  end.

(** [for (const txs of verified) { ...; approved.push(approvals); }] *)
Fixpoint addGroups (verified : list (list Signed)) (approved : list Approval)
  : M (list Approval) :=
  match verified with
  | [] => ret approved
  | txs :: rest =>
      bind (addEach txs None)
        (fun approvals => addGroups rest (approved ++ [approvals]))
  end.

(** [if (workflow === 'add') {...}] *)
Definition addWorkflow (a : Answers) (approved : list Approval) : M (list Approval) :=
  match verifyTransactions H (signedTx a) with
  | Some verified => addGroups verified approved
  | None => ret approved
  end.

(** [!nonce] for the number typed at the prompt. *)
Definition falsy (n : option Z) : bool :=
  match n with
  | None => true
  | Some z => Z.eqb z 0
  end.

(** [if (workflow === 'get nonce') { try {...} catch (err) {...} }].
    [nonce] is bound by the [const] destructuring at the top of [start],
    so the assignment that follows a successful read throws. *)
Definition getNonceWorkflow (a : Answers) : M unit :=
  try_catch
    (bind (if falsy (nonce a) then
             bind (await (c_waitForContract "SimpleMultiSig")
                     (waitForContract H "SimpleMultiSig"))
               (fun _ => bind (await c_multiSigNonce (multiSigNonce H))
                  (fun _ => throw (TypeError "Assignment to constant variable.")))
           else ret tt)
       (fun _ => emit (LogNonce (nonce a))))
    (fun err =>
       emit (LogError "Could not get nonce. Are you connected to the blockchain?" err)).

(** [approval?.length === SIGNATURE_THRESHOLD] *)
Definition ready (approval : Approval) : bool :=
  match approval with
  | Some signatures => Z.eqb (Z.of_nat (List.length signatures)) SIGNATURE_THRESHOLD
  | None => false
  end.

(** [l.slice(0, e)] for an integer [e]. *)
Definition slice0 (e : Z) (l : list Signed) : list Signed :=
  if Z.ltb e 0 then take (List.length l - Z.to_nat (- e)) l
  else take (Z.to_nat e) l.

(** A string is truthy when it is not empty; [undefined] is not. *)
Definition truthy (executor : option string) : bool :=
  match executor with
  | Some k => negb (Nat.eqb (String.length k) 0)
  | None => false
  end.

(** [for (const approval of approved) { if (...) {...} }] *)
Fixpoint executeLoop (approved : list Approval) (executor : option string) : M unit :=
  match approved with
  | [] => ret tt
  | approval :: rest =>
      if ready approval then
        bind (if truthy executor then ret executor
              else bind (await (c_askQuestions true) (askQuestions H true))
                     (fun ans => ret (GetInfo.executor ans)))
          (fun executor' =>
             bind (emit (LogInfo "Executing multisig transaction"))
               (fun _ =>
                  let signatures := slice0 SIGNATURE_THRESHOLD (default [] approval) in
                  bind (await (c_executeMultiSigTransaction signatures executor')
                          (executeMultiSigTransaction H signatures executor'))
                    (fun _ => executeLoop rest executor')))
      else executeLoop rest executor
  end.

(** [start]; the result is [approved], which the source serialises with
    [JSON.stringify]. *)
Definition start : M (list Approval) :=
  bind (await (c_askQuestions false) (askQuestions H false))
    (fun a =>
       bind (if String.eqb (workflow a) "create" then createWorkflow a [] else ret [])
         (fun approved1 =>
            bind (if String.eqb (workflow a) "add" then addWorkflow a approved1
                  else ret approved1)
              (fun approved =>
                 bind (if String.eqb (workflow a) "get nonce" then getNonceWorkflow a
                       else ret tt)
                   (fun _ =>
                      bind (executeLoop approved None)
                        (fun _ => bind (emit ConnectionClosed)
                                    (fun _ => ret approved)))))).





(** The number of reads of the multisig nonce in a trace. *)
Definition nonce_reads (tr : list Event) : nat :=
  List.length (List.filter (fun e => match e with
                                     | Invoked c_multiSigNonce => true
                                     | _ => false
                                     end) tr).
End Start.

Arguments Helpers : clear implicits.
Arguments Event : clear implicits.
Arguments Call : clear implicits.

End GetInfo.

(* ===================================================================== *)
(** ** Signature merge (services/helpers.mjs) *)
(* ===================================================================== *)
Module Merge.

(** Modelled from the spec: the record of section 3 (services/helpers.mjs
    and multisig.mjs, which build it, are not among the sources).
    [{targetContract, encodedData, nonce, chainId, gasLimit}]. *)
Record MultiSigCall : Type := mkCall {
  targetContract : string;
  encodedData : string;
  nonce : Z;
  chainId : Z;
  gasLimit : Z
}.

#[global] Instance MultiSigCall_eq_dec : EqDecision MultiSigCall.
Proof. solve_decision. Defined.

#[global] Instance MultiSigCall_countable : Countable MultiSigCall.
Proof.
  refine (inj_countable'
            (fun c => (targetContract c, encodedData c, nonce c, chainId c, gasLimit c))
            (fun p => match p with (t, d, n, c, g) => mkCall t d n c g end) _).
  intros []; reflexivity.
Defined.

(** Modelled from the spec: one entry of a serialised bundle (section 6),
    the call it claims to cover, the self-reported signer and the
    signature bytes. *)
Record PartialSignature : Type := mkSig {
  multiSigCallRef : MultiSigCall;
  claimedAddress : string;
  signatureBytes : string
}.

(** Modelled from the spec: SignatureSet (section 3), for every known call
    the signatures held, keyed by recovered address.  A call is known when
    it has an entry; the entry of a fresh call is empty. *)
Abbreviation SignatureSet := (gmap MultiSigCall (gmap string string)).

Inductive MergeError : Type :=
| MalformedSignature
| UnknownOrMismatchedCall.

Section Collector.
(** Recovery of the signer from the canonical payload of a call and the
    signature bytes (ECDSA, done by web3); [None] when the bytes cannot
    be parsed or recovery fails. *)
Variable recover : MultiSigCall -> string -> option string.

(** Modelled from the spec: steps (1) to (4) of Merge (section 4.4) for
    one incoming signature; helpers.mjs is not among the sources. *)
Definition verify (S : SignatureSet) (p : PartialSignature)
  : Res MergeError (string * gmap string string) :=
  match recover (multiSigCallRef p) (signatureBytes p) with
  | None => Rejected MalformedSignature
  | Some signer =>
      match S !! multiSigCallRef p with
      | None => Rejected UnknownOrMismatchedCall
      | Some held => Resolved (signer, held)
      end
  end.

(** Modelled from the spec: step (4), the insertion keyed by recovered
    address ('a repeat address overwrites'); a signature that fails
    verification leaves the store as it is. *)
Definition mergeOne (S : SignatureSet) (p : PartialSignature) : SignatureSet :=
  match verify S p with
  | Resolved (signer, held) =>
      <[multiSigCallRef p := <[signer := signatureBytes p]> held]> S
  | Rejected _ => S
  end.

(** Modelled from the spec: Merge over a whole incoming batch (section
    4.4), an offending signature being dropped (section 7). *)
Definition merge (S : SignatureSet) (batch : list PartialSignature) : SignatureSet :=
  foldl mergeOne S batch.

(** The errors a batch raises, in batch order. *)
Fixpoint dropped (S : SignatureSet) (batch : list PartialSignature)
  : list (PartialSignature * MergeError) :=
  match batch with
  | [] => []
  | p :: rest =>
      match verify S p with
      | Rejected e => (p, e) :: dropped S rest
      | Resolved _ => dropped (mergeOne S p) rest
      end
  end.

(** A signature passes when it recovers and its call is known. *)
Definition valid (S : SignatureSet) (p : PartialSignature) : bool :=
  match recover (multiSigCallRef p) (signatureBytes p), S !! multiSigCallRef p with
  | Some _, Some _ => true
  | _, _ => false
  end.

(** The signers held for a call, and their number. *)
Definition signers (S : SignatureSet) (c : MultiSigCall) : gset string :=
  dom (default ∅ (S !! c)).

Definition count (S : SignatureSet) (c : MultiSigCall) : nat :=
  size (default ∅ (S !! c)).

(** The approvals of a call as an array of signed entries. *)
Definition approvals (S : SignatureSet) (c : MultiSigCall) : list PartialSignature :=
  (fun ab => mkSig c (fst ab) (snd ab)) <$> map_to_list (default ∅ (S !! c)).

(** Modelled from the spec: the names of the error taxonomy (section 7). *)
Definition errorName (e : MergeError) : string :=
  match e with
  | MalformedSignature => "MalformedSignature"
  | UnknownOrMismatchedCall => "UnknownOrMismatchedCall"
  end.

(** Modelled from the spec: [addSignedTransaction] of helpers.mjs (not
    among the sources) is Merge for one signature (section 4.4): it inserts
    the signature and returns the approvals now held for its call, or fails
    with [MalformedSignature] or [UnknownOrMismatchedCall], its promise
    rejected and the store as it was. *)
Definition addSignedTransaction (p : PartialSignature) (S : SignatureSet)
  : Res GetInfo.Err (list PartialSignature) * SignatureSet :=
  match verify S p with
  | Resolved (signer, held) =>
      let S' := <[multiSigCallRef p := <[signer := signatureBytes p]> held]> S in
      (Resolved (approvals S' (multiSigCallRef p)), S')
  | Rejected e => (Rejected (GetInfo.HelperRejected (errorName e)), S)
  end.

(** Two batches disagree when they bring different bytes for the same
    call and the same recovered signer. *)
Definition agree (b1 b2 : list PartialSignature) : Prop :=
  ∀ p q signer,
    p ∈ b1 → q ∈ b2 →
    multiSigCallRef p = multiSigCallRef q →
    recover (multiSigCallRef p) (signatureBytes p) = Some signer →
    recover (multiSigCallRef q) (signatureBytes q) = Some signer →
    signatureBytes p = signatureBytes q.
(** The bytes that a batch leaves for signer [a] of call [c]: those of its
    last signature on [c] that recovers to [a]. *)
Fixpoint latest (c : MultiSigCall) (a : string) (batch : list PartialSignature)
  : option string :=
  match batch with
  | [] => None
  | p :: rest =>
      match latest c a rest with
      | Some b => Some b
      | None =>
          if decide (multiSigCallRef p = c ∧
                     recover c (signatureBytes p) = Some a)
          then Some (signatureBytes p) else None
      end
  end.

End Collector.

(** A recovery function for examples: the signer is named by the first
    character of the signature bytes. *)
Definition recover_first (c : MultiSigCall) (bytes : string) : option string :=
  match bytes with
  | EmptyString => None
  | String a _ => Some (String a EmptyString)
  end.

End Merge.

(* ===================================================================== *)
(** ** Concrete instances used by the examples *)
(* ===================================================================== *)
Module Demo.

(** A node that reports 7 transactions for every account on the first
    request of a session and 9 afterwards. *)
Definition web3 : Nf3.Web3 :=
  Nf3.mkWeb3 (fun k => "0xaddr_" +:+ k)
    (fun _ i => match i with O => Some 7%N | _ => Some 9%N end).

(** A node that cannot be reached. *)
Definition web3_down : Nf3.Web3 :=
  Nf3.mkWeb3 (fun k => "0xaddr_" +:+ k) (fun _ _ => None).

(** An instance that has already sent transactions with an older key. *)
Definition nf3_used : Nf3.t :=
  Nf3.mk "0xkey1" (Nf3.KeyAddress "0xaddr_0xkey1") "0xshield" 10 42.

Definition nf3_fresh : Nf3.t :=
  Nf3.mk "0xkey1" (Nf3.KeyAddress "0xaddr_0xkey1") "0xshield" 10 0.

(** A second instance made in the same process with the same key. *)
Definition nf3_second : Nf3.t :=
  Nf3.mk "0xkey1" (Nf3.KeyAddress "0xaddr_0xkey1") "0xshield" 10 0.

(** An instance whose counter has reached [2^53]. *)
Definition nf3_at_limit : Nf3.t :=
  Nf3.mk "0xkey1" (Nf3.KeyAddress "0xaddr_0xkey1") "0xshield" 10 (Z.to_N JsNumber.limit).

(** A node on which nothing is mined during the session: it reports 7
    transactions for every account, at every request. *)
Definition web3_idle : Nf3.Web3 :=
  Nf3.mkWeb3 (fun k => "0xaddr_" +:+ k) (fun _ _ => Some 7%N).

(** A node that reports 7 transactions for the account of [0xkey1] and 3 for
    every other account. *)
Definition web3_accounts : Nf3.Web3 :=
  Nf3.mkWeb3 (fun k => "0xaddr_" +:+ k)
    (fun a _ => match a with
                | Nf3.KeyAddress addr =>
                    if String.eqb addr "0xaddr_0xkey1" then Some 7%N else Some 3%N
                | Nf3.UnlockedAccountPromise => Some 3%N
                end).

Definition calls : list Nf3.Call :=
  [Nf3.mkCall "0xshield" "0xdeposit" 10; Nf3.mkCall "0xstate" "0xpropose" 1].

Definition encode (name : string) (m : ContractMultiSig.Method) : string :=
  name +:+ match m with
           | ContractMultiSig.m_transferOwnership o => ".transferOwnership:" +:+ o
           | ContractMultiSig.m_setRestriction tok _ _ => ".setRestriction:" +:+ tok
           | ContractMultiSig.m_removeRestriction tok => ".removeRestriction:" +:+ tok
           | ContractMultiSig.m_pause => ".pause"
           | ContractMultiSig.m_unpause => ".unpause"
           | ContractMultiSig.m_setBootProposer a => ".setBootProposer:" +:+ a
           | ContractMultiSig.m_setBootChallenger a => ".setBootChallenger:" +:+ a
           | ContractMultiSig.m_setMaticAddress a => ".setMaticAddress:" +:+ a
           end.

Definition contract (name : string) : ContractMultiSig.Contract :=
  ContractMultiSig.mkContract ("0x" +:+ name) (encode name).

Definition instances : ContractMultiSig.ContractInstances :=
  ContractMultiSig.mkInstances (contract "multisig") (contract "shield")
    (contract "state") (contract "proposers") (contract "challenges").

Definition multisig : ContractMultiSig.t :=
  ContractMultiSig.constructor instances 2 1337 1000000.

(** The administrator's terminal and chain, for a store of signatures:
    [answers] is what the operator types; the multisig contract is deployed
    and its nonce reads as [chainNonce] ([None]: the node cannot be reached);
    executing the [n]-th submission succeeds when [accepts n]. *)
Definition answers (workflow : string) (nonce : option Z) : GetInfo.Answers :=
  GetInfo.mkAnswers "Pause contracts" "0xkey1" "" 0 0 true false "" "0xexecutor"
    nonce "" workflow (Some "0xexecutorkey").

Definition helpers {Signed : Type} (a : GetInfo.Answers) (chainNonce : option Z)
    (accepts : nat -> bool) : GetInfo.Helpers Signed nat :=
  GetInfo.mkHelpers
    (fun _ w => (Resolved a, w))
    (fun _ w => (Resolved (0%Z, 0%Z), w))
    (fun _ w => (Resolved [], w))
    (fun _ => None)
    (fun tx w => (Resolved [tx], w))
    (fun _ _ w => (if accepts w then Resolved tt
                   else Rejected (GetInfo.HelperRejected "reverted"), S w))
    (fun _ w => (Resolved tt, w))
    (fun w => (match chainNonce with
               | Some n => Resolved n
               | None => Rejected (GetInfo.HelperRejected "connection not open")
               end, w)).

(** The same terminal on a chain where the multisig contract cannot be
    found. *)
Definition helpersNoContract {Signed : Type} (a : GetInfo.Answers)
  : GetInfo.Helpers Signed nat :=
  GetInfo.mkHelpers
    (fun _ w => (Resolved a, w))
    (fun _ w => (Resolved (0%Z, 0%Z), w))
    (fun _ w => (Resolved [], w))
    (fun _ => None)
    (fun tx w => (Resolved [tx], w))
    (fun _ _ w => (Resolved tt, S w))
    (fun _ w => (Rejected (GetInfo.HelperRejected "contract not deployed"), w))
    (fun w => (Resolved 5%Z, w)).

(** A terminal at which a bundle is pasted that [verifyTransactions] parses
    into [groups]; adding a signature returns that signature alone. *)
Definition helpersPasted (groups : list (list nat)) : GetInfo.Helpers nat nat :=
  GetInfo.mkHelpers
    (fun _ w => (Resolved (answers "add" None), w))
    (fun _ w => (Resolved (0%Z, 0%Z), w))
    (fun _ w => (Resolved [], w))
    (fun _ => Some groups)
    (fun tx w => (Resolved [tx], w))
    (fun _ _ w => (Resolved tt, S w))
    (fun _ w => (Resolved tt, w))
    (fun w => (Resolved 5%Z, w)).

(** One known call and three signers of it. *)
Definition pauseShield : Merge.MultiSigCall :=
  Merge.mkCall "0xshield" "shield.pause" 5 1337 1000000.

Definition store0 : Merge.SignatureSet := {[ pauseShield := ∅ ]}.

Definition signedBy (bytes : string) : Merge.PartialSignature :=
  Merge.mkSig pauseShield "" bytes.

Definition store3 : Merge.SignatureSet :=
  Merge.merge Merge.recover_first store0 [signedBy "a1"; signedBy "b1"; signedBy "c1"].




End Demo.

(* ===================================================================== *)
(** ** cli/lib/nf3.mjs: a session of transactions *)
(* ===================================================================== *)
Module Nf3Session.

(** Calls of [submitTransaction] made one after the other on one instance,
    each one settled before the next is made (a caller that catches a
    rejection goes on with the next call).  The outcomes are in call order. *)
Fixpoint submitEach (web3 : Nf3.Web3) (calls : list Nf3.Call)
    (this : Nf3.t) (c : Nf3.Chain) : list (Res Nf3.Error Nf3.Send) * Nf3.t * Nf3.Chain :=
  match calls with
  | [] => ([], this, c)
  | call :: rest =>
      match Nf3.submitTransaction web3 (Nf3.call_data call) (Some (Nf3.call_to call))
              (Some (Nf3.call_fee call)) this c with
      | (r, this1, c1) =>
          match submitEach web3 rest this1 c1 with
          | (rs, this2, c2) => (r :: rs, this2, c2)
          end
      end
  end.

(** The nonce carried by an outcome that was sent. *)
Definition sent_nonce (r : Res Nf3.Error Nf3.Send) : option N :=
  match r with
  | Resolved s => Some (Nf3.tx_nonce (Nf3.sent_tx s))
  | Rejected _ => None
  end.

(** A task of the interleaved system that is inside the callback of
    [runExclusive]. *)
Definition inside (ph : Nf3.Phase) : bool :=
  match ph with
  | Nf3.AwaitCount1 _ | Nf3.AwaitCount2 _ => true
  | _ => false
  end.

(** A task that has not settled yet. *)
Definition pending (ph : Nf3.Phase) : bool :=
  match ph with
  | Nf3.Queued | Nf3.AwaitCount1 _ | Nf3.AwaitCount2 _ => true
  | _ => false
  end.

(** The mutex and the tasks agree: the holder is inside the callback, and
    whoever is inside is the holder. *)
Record Locked (s : Nf3.Sys) : Prop := mkLocked {
  locked_holder : ∀ i, Nf3.holder s = Some i →
                       ∃ c ph, Nf3.tasks s !! i = Some (c, ph) ∧ inside ph = true;
  locked_inside : ∀ i c ph, Nf3.tasks s !! i = Some (c, ph) → inside ph = true →
                            Nf3.holder s = Some i
}.

(** With a counter that is cached: nobody is inside the callback, and a
    task that is not built is still queued. *)
Record Warm (s : Nf3.Sys) : Prop := mkWarm {
  warm_nonce : Nf3.nonce (Nf3.this s) ≠ 0%N;
  warm_free : Nf3.holder s = None;
  warm_phase : ∀ i c ph, Nf3.tasks s !! i = Some (c, ph) →
                         ph = Nf3.Queued ∨ ∃ tx, ph = Nf3.Built tx
}.

(** With a cached counter that started at [n0] and has not gone beyond
    [2^53]: the nonces from [n0] up to the counter are all taken. *)
Record Dense (n0 : N) (s : Nf3.Sys) : Prop := mkDense {
  dense_from : (n0 ≤ Nf3.nonce (Nf3.this s))%N;
  dense_limit : (Z.of_N (Nf3.nonce (Nf3.this s)) ≤ JsNumber.limit)%Z;
  dense_taken : ∀ m, (n0 ≤ m < Nf3.nonce (Nf3.this s))%N → ∃ i, Nf3.reserved s i = Some m
}.

End Nf3Session.

(* ===================================================================== *)
(** ** cli/lib/nf3.mjs: the methods that talk to the Nightfall servers *)
(* ===================================================================== *)
Module Nf3Client.

(** The values put in request bodies.  [JAddress] is [this.ethereumAddress]
    as the instance holds it (an address string or the pending promise). *)
#[local] Unset Elimination Schemes.
Inductive Json : Type :=
| JStr (s : string)
| JNum (z : Z)
| JBool (b : bool)
| JArr (items : list Json)
| JObj (fields : list (string * Json))
| JAddress (a : Nf3.EthAddress).
#[local] Set Elimination Schemes.

Inductive Request : Type :=
| Get (url : string)
| Post (url : string) (body : Json).

(** What the methods read of an axios response: [res.status] and the
    fields of [res.data] ([transactionHash] is
    [res.data.transaction.transactionHash]). *)
Record Response : Type := mkResponse {
  status : Z;
  txDataToSign : string;
  transactionHash : string;
  block : Json;
  transactions : Json;
  index : Json
}.

(** The servers and the node: the [i]-th HTTP request of the session is
    answered by [axios req i] ([None]: the promise rejects). *)
Record Net : Type := mkNet {
  web3 : Nf3.Web3;
  axios : Request -> nat -> option Response
}.

(** The requests made so far, to the node and to the servers. *)
Record World : Type := mkWorld {
  chain : Nf3.Chain;
  requests : list Request
}.

Record ZkpKeys : Type := mkKeys {
  pkd : Json;
  nsk : string;
  ask : string;
  ivk : string
}.

(** The instance: the fields of [Nf3.t] and the others these methods use. *)
Record t : Type := mk {
  core : Nf3.t;
  clientBaseUrl : string;
  optimistBaseUrl : string;
  proposersContractAddress : string;
  stateContractAddress : string;
  PROPOSER_BOND : Z;
  BLOCK_STAKE : Z;
  latestWithdrawHash : option string;
  zkpKeys : ZkpKeys
}.

Definition set_core (c : Nf3.t) (this : t) : t :=
  mk c (clientBaseUrl this) (optimistBaseUrl this) (proposersContractAddress this)
    (stateContractAddress this) (PROPOSER_BOND this) (BLOCK_STAKE this)
    (latestWithdrawHash this) (zkpKeys this).

Definition set_latestWithdrawHash (h : string) (this : t) : t :=
  mk (core this) (clientBaseUrl this) (optimistBaseUrl this) (proposersContractAddress this)
    (stateContractAddress this) (PROPOSER_BOND this) (BLOCK_STAKE this)
    (Some h) (zkpKeys this).

Inductive Err : Type :=
| NodeError (e : Nf3.Error)
| AxiosError
| Thrown (message : string).

Definition request (net : Net) (req : Request) (w : World) : Res Err Response * World :=
  (match axios net req (List.length (requests w)) with
   | Some r => Resolved r
   | None => Rejected AxiosError
   end, mkWorld (chain w) (requests w ++ [req])).

(** [this.submitTransaction(data, contractAddress, fee)] on this instance. *)
Definition submitTransaction (net : Net) (data : string) (contractAddress : option string)
    (fee : option Z) (this : t) (w : World) : Res Err Nf3.Send * t * World :=
  match Nf3.submitTransaction (web3 net) data contractAddress fee (core this) (chain w) with
  | (Resolved send, core', chain') =>
      (Resolved send, set_core core' this, mkWorld chain' (requests w))
  | (Rejected e, core', chain') =>
      (Rejected (NodeError e), set_core core' this, mkWorld chain' (requests w))
  end.

(** [healthcheck(server)] *)
Definition healthcheck (net : Net) (server : string) (this : t) (w : World)
  : Res Err bool * World :=
  let check url :=
    match request net (Get (url +:+ "/healthcheck")) w with
    | (Resolved res, w') => (Resolved (Z.eqb (status res) 200), w')
    | (Rejected _, w') => (Resolved false, w')
    end in
  if String.eqb server "client" then check (clientBaseUrl this)
  else if String.eqb server "optimist" then check (optimistBaseUrl this)
  else (Rejected (Thrown "Unknown server name"), w).

(** What a method resolves to: the submission handed to web3, or
    [res.status] for an off-chain request. *)
Inductive Outcome : Type :=
| Sent (send : Nf3.Send)
| Status (code : Z).

Definition sending (r : Res Err Nf3.Send * t * World) : Res Err Outcome * t * World :=
  match r with
  | (Resolved send, this', w') => (Resolved (Sent send), this', w')
  | (Rejected e, this', w') => (Rejected e, this', w')
  end.

Definition shield (this : t) : option string := Some (Nf3.shieldContractAddress (core this)).

(** [deposit(ercAddress, tokenType, value, tokenId, fee = this.defaultFee)] *)
Definition deposit (net : Net) (ercAddress tokenType : string) (value : Z) (tokenId : string)
    (fee : option Z) (this : t) (w : World) : Res Err Outcome * t * World :=
  let fee := default (Nf3.defaultFee (core this)) fee in
  match request net
          (Post (clientBaseUrl this +:+ "/deposit")
             (JObj [("ercAddress", JStr ercAddress); ("tokenId", JStr tokenId);
                    ("tokenType", JStr tokenType); ("value", JNum value);
                    ("pkd", pkd (zkpKeys this)); ("nsk", JStr (nsk (zkpKeys this)));
                    ("fee", JNum fee)])) w with
  | (Rejected e, w') => (Rejected e, this, w')
  | (Resolved res, w') =>
      sending (submitTransaction net (txDataToSign res) (shield this) (Some fee) this w')
  end.

(** [transfer(offchain = false, ercAddress, tokenType, value, tokenId, pkd,
    fee = this.defaultFee)] *)
Definition transfer (net : Net) (offchain : option bool) (ercAddress tokenType : string)
    (value : Z) (tokenId : string) (recipientPkd : Json) (fee : option Z)
    (this : t) (w : World) : Res Err Outcome * t * World :=
  let offchain := default false offchain in
  let fee := default (Nf3.defaultFee (core this)) fee in
  match request net
          (Post (clientBaseUrl this +:+ "/transfer")
             (JObj [("offchain", JBool offchain); ("ercAddress", JStr ercAddress);
                    ("tokenId", JStr tokenId);
                    ("recipientData",
                     JObj [("values", JArr [JNum value]);
                           ("recipientPkds", JArr [recipientPkd])]);
                    ("nsk", JStr (nsk (zkpKeys this))); ("ask", JStr (ask (zkpKeys this)));
                    ("fee", JNum fee)])) w with
  | (Rejected e, w') => (Rejected e, this, w')
  | (Resolved res, w') =>
      if negb offchain
      then sending (submitTransaction net (txDataToSign res) (shield this) (Some fee) this w')
      else (Resolved (Status (status res)), this, w')
  end.

(** [withdraw(offchain = false, ercAddress, tokenType, value, tokenId,
    recipientAddress, fee = this.defaultFee)] *)
Definition withdraw (net : Net) (offchain : option bool) (ercAddress tokenType : string)
    (value : Z) (tokenId recipientAddress : string) (fee : option Z)
    (this : t) (w : World) : Res Err Outcome * t * World :=
  let offchain := default false offchain in
  let fee := default (Nf3.defaultFee (core this)) fee in
  match request net
          (Post (clientBaseUrl this +:+ "/withdraw")
             (JObj [("offchain", JBool offchain); ("ercAddress", JStr ercAddress);
                    ("tokenId", JStr tokenId); ("tokenType", JStr tokenType);
                    ("value", JNum value); ("recipientAddress", JStr recipientAddress);
                    ("nsk", JStr (nsk (zkpKeys this))); ("ask", JStr (ask (zkpKeys this)));
                    ("fee", JNum fee)])) w with
  | (Rejected e, w') => (Rejected e, this, w')
  | (Resolved res, w') =>
      let this1 := set_latestWithdrawHash (transactionHash res) this in
      if negb offchain
      then sending (submitTransaction net (txDataToSign res) (shield this1) (Some fee) this1 w')
      else (Resolved (Status (status res)), this1, w')
  end.

(** The two requests shared by [finaliseWithdrawal] and
    [requestInstantWithdrawal]: find the block, then post it to [path]. *)
Definition blockThenPost (net : Net) (path withdrawTransactionHash : string)
    (this : t) (w : World) : Res Err Response * World :=
  match request net
          (Get (optimistBaseUrl this +:+ "/block/transaction-hash/"
                  +:+ withdrawTransactionHash)) w with
  | (Rejected e, w1) => (Rejected e, w1)
  | (Resolved res, w1) =>
      request net
        (Post (clientBaseUrl this +:+ path)
           (JObj [("block", block res); ("transactions", transactions res);
                  ("index", index res)])) w1
  end.

(** [finaliseWithdrawal(withdrawTransactionHash)] *)
Definition finaliseWithdrawal (net : Net) (withdrawTransactionHash : string)
    (this : t) (w : World) : Res Err Outcome * t * World :=
  match blockThenPost net "/finalise-withdrawal" withdrawTransactionHash this w with
  | (Rejected e, w') => (Rejected e, this, w')
  | (Resolved res, w') =>
      sending (submitTransaction net (txDataToSign res) (shield this) (Some 0%Z) this w')
  end.

(** [requestInstantWithdrawal(withdrawTransactionHash, fee)] *)
Definition requestInstantWithdrawal (net : Net) (withdrawTransactionHash : string) (fee : Z)
    (this : t) (w : World) : Res Err Outcome * t * World :=
  match blockThenPost net "/set-instant-withdrawal" withdrawTransactionHash this w with
  | (Rejected e, w') => (Rejected e, this, w')
  | (Resolved res, w') =>
      sending (submitTransaction net (txDataToSign res) (shield this) (Some fee) this w')
  end.

(** The methods that make one POST to the optimist and submit what comes
    back to [contractAddress] with [value]. *)
Definition postThenSubmit (net : Net) (path : string) (body : Json)
    (contractAddress : string) (value : Z) (this : t) (w : World)
  : Res Err Outcome * t * World :=
  match request net (Post (optimistBaseUrl this +:+ path) body) w with
  | (Rejected e, w') => (Rejected e, this, w')
  | (Resolved res, w') =>
      sending (submitTransaction net (txDataToSign res) (Some contractAddress) (Some value)
                 this w')
  end.

(** [advanceInstantWithdrawal(withdrawTransactionHash)] *)
Definition advanceInstantWithdrawal (net : Net) (withdrawTransactionHash : string)
    (this : t) (w : World) : Res Err Outcome * t * World :=
  postThenSubmit net "/transaction/advanceWithdrawal"
    (JObj [("transactionHash", JStr withdrawTransactionHash)])
    (Nf3.shieldContractAddress (core this)) 0 this w.

Definition addressBody (this : t) : Json :=
  JObj [("address", JAddress (Nf3.ethereumAddress (core this)))].

(** [registerProposer()] *)
Definition registerProposer (net : Net) (this : t) (w : World) : Res Err Outcome * t * World :=
  postThenSubmit net "/proposer/register" (addressBody this)
    (proposersContractAddress this) (PROPOSER_BOND this) this w.

(** [deregisterProposer()] *)
Definition deregisterProposer (net : Net) (this : t) (w : World) : Res Err Outcome * t * World :=
  postThenSubmit net "/proposer/de-register" (addressBody this)
    (proposersContractAddress this) 0 this w.

(** [withdrawBond()] *)
Definition withdrawBond (net : Net) (this : t) (w : World) : Res Err Outcome * t * World :=
  postThenSubmit net "/proposer/withdrawBond" (addressBody this)
    (proposersContractAddress this) 0 this w.

(** [getLatestWithdrawHash()] *)
Definition getLatestWithdrawHash (this : t) : option string := latestWithdrawHash this.

(** A parsed websocket message. *)
Record Message : Type := mkMessage {
  msg_type : string;
  msg_txDataToSign : string
}.

(** [connection.onmessage] of [startProposer], after [JSON.parse]. *)
Definition proposerOnMessage (net : Net) (msg : Message) (this : t) (w : World)
  : Res Err (option Nf3.Send) * t * World :=
  if String.eqb (msg_type msg) "block" then
    match submitTransaction net (msg_txDataToSign msg) (Some (stateContractAddress this))
            (Some (BLOCK_STAKE this)) this w with
    | (Resolved send, this', w') => (Resolved (Some send), this', w')
    | (Rejected e, this', w') => (Rejected e, this', w')
    end
  else (Resolved None, this, w).

(** [connection.onmessage] of [startChallenger], after [JSON.parse]. *)
Definition challengerOnMessage (net : Net) (msg : Message) (this : t) (w : World)
  : Res Err (option Nf3.Send) * t * World :=
  if String.eqb (msg_type msg) "challenge" then
    match submitTransaction net (msg_txDataToSign msg) (Some (stateContractAddress this))
            (Some 0%Z) this w with
    | (Resolved send, this', w') => (Resolved (Some send), this', w')
    | (Rejected e, this', w') => (Rejected e, this', w')
    end
  else (Resolved None, this, w).

(** The methods above that may end in a transaction, by name and
    arguments. *)
Inductive Operation : Type :=
| op_deposit (ercAddress tokenType : string) (value : Z) (tokenId : string) (fee : option Z)
| op_transfer (offchain : option bool) (ercAddress tokenType : string) (value : Z)
    (tokenId : string) (recipientPkd : Json) (fee : option Z)
| op_withdraw (offchain : option bool) (ercAddress tokenType : string) (value : Z)
    (tokenId recipientAddress : string) (fee : option Z)
| op_finaliseWithdrawal (withdrawTransactionHash : string)
| op_requestInstantWithdrawal (withdrawTransactionHash : string) (fee : Z)
| op_advanceInstantWithdrawal (withdrawTransactionHash : string)
| op_registerProposer
| op_deregisterProposer
| op_withdrawBond.

Definition invoke (net : Net) (op : Operation) (this : t) (w : World)
  : Res Err Outcome * t * World :=
  match op with
  | op_deposit e ty v id fee => deposit net e ty v id fee this w
  | op_transfer off e ty v id p fee => transfer net off e ty v id p fee this w
  | op_withdraw off e ty v id r fee => withdraw net off e ty v id r fee this w
  | op_finaliseWithdrawal h => finaliseWithdrawal net h this w
  | op_requestInstantWithdrawal h fee => requestInstantWithdrawal net h fee this w
  | op_advanceInstantWithdrawal h => advanceInstantWithdrawal net h this w
  | op_registerProposer => registerProposer net this w
  | op_deregisterProposer => deregisterProposer net this w
  | op_withdrawBond => withdrawBond net this w
  end.

(** Where an operation sends its transaction and the value it attaches. *)
Definition destination (this : t) (op : Operation) : string * Z :=
  let shieldAddress := Nf3.shieldContractAddress (core this) in
  let defaultFee := Nf3.defaultFee (core this) in
  match op with
  | op_deposit _ _ _ _ fee => (shieldAddress, default defaultFee fee)
  | op_transfer _ _ _ _ _ _ fee => (shieldAddress, default defaultFee fee)
  | op_withdraw _ _ _ _ _ _ fee => (shieldAddress, default defaultFee fee)
  | op_finaliseWithdrawal _ => (shieldAddress, 0%Z)
  | op_requestInstantWithdrawal _ fee => (shieldAddress, fee)
  | op_advanceInstantWithdrawal _ => (shieldAddress, 0%Z)
  | op_registerProposer => (proposersContractAddress this, PROPOSER_BOND this)
  | op_deregisterProposer => (proposersContractAddress this, 0%Z)
  | op_withdrawBond => (proposersContractAddress this, 0%Z)
  end.

End Nf3Client.

(* ===================================================================== *)
(** ** Concrete servers used by the examples *)
(* ===================================================================== *)
Module DemoClient.

Definition response : Nf3Client.Response :=
  Nf3Client.mkResponse 200 "0xtxdata" "0xwithdrawhash"
    (Nf3Client.JStr "block") (Nf3Client.JArr []) (Nf3Client.JNum 0).

(** Servers that answer every request with [response]. *)
Definition net : Nf3Client.Net := Nf3Client.mkNet Demo.web3 (fun _ _ => Some response).

(** Servers that cannot be reached. *)
Definition net_down : Nf3Client.Net := Nf3Client.mkNet Demo.web3 (fun _ _ => None).

Definition keys : Nf3Client.ZkpKeys :=
  Nf3Client.mkKeys (Nf3Client.JArr [Nf3Client.JStr "0x01"; Nf3Client.JStr "0x02"])
    "0xnsk" "0xask" "0xivk".

Definition client : Nf3Client.t :=
  Nf3Client.mk Demo.nf3_used "http://client" "http://optimist" "0xproposers" "0xstate"
    10 1 None keys.

Definition world : Nf3Client.World := Nf3Client.mkWorld [] [].

End DemoClient.

(* ===================================================================== *)
(** ** process-calldata.mjs: [getProposeBlockCalldata] *)
(* ===================================================================== *)
Module Calldata.

(** [s.slice(n)] for a string and [n >= 0]: [s] without its first [n]
    characters. *)
Fixpoint slice (n : nat) (s : string) : string :=
  match n, s with
  | O, _ => s
  | S n', String _ rest => slice n' rest
  | S _, EmptyString => EmptyString
  end.

(** [`0x${tx.input.slice(10)}`] *)
Definition abiBytecode (input : string) : string := "0x" +:+ slice 10 input.

(** [storedL2BlockNumbers.filter((num, index) => num - index === 0)], the
    filter having reached position [index]. *)
Fixpoint sequencedFrom (index : nat) (storedL2BlockNumbers : list Z) : list Z :=
  match storedL2BlockNumbers with
  | [] => []
  | num :: rest =>
      if Z.eqb (num - Z.of_nat index) 0
      then num :: sequencedFrom (S index) rest
      else sequencedFrom (S index) rest
  end.

Definition L2BlockNumbersSequenced (storedL2BlockNumbers : list Z) : list Z :=
  sequencedFrom 0 storedL2BlockNumbers.

(** [L2BlockNumbersSequenced[L2BlockNumbersSequenced.length - 1] || -1]:
    [undefined] and [0] are falsy. *)
Definition lastReliableL2BlockNumber (storedL2BlockNumbers : list Z) : Z :=
  match last (L2BlockNumbersSequenced storedL2BlockNumbers) with
  | Some n => if Z.eqb n 0 then (-1)%Z else n
  | None => (-1)%Z
  end.

Definition notFound : string := "Could not find blockHash in blockchain record".

(** The [do { counter++; ... } while (onChainBlockData.blockHash !==
    block.blockHash)] loop.  [blockHashes n] is what
    [stateContractInstance.methods.blockHashes(n).call()] resolves to
    ([None]: the call rejects); [fuel] bounds the number of rounds. *)
Fixpoint findBlockNumberL2 (fuel : nat) (blockHashes : Z -> option string)
    (blockHash : string) (counter : Z) : option (Res string Z) :=
  match fuel with
  | O => None
  | S fuel' =>
      let counter := (counter + 1)%Z in
      match blockHashes counter with
      | None => Some (Rejected notFound)
      | Some onChain =>
          if String.eqb onChain blockHash then Some (Resolved counter)
          else findBlockNumberL2 fuel' blockHashes blockHash counter
      end
  end.

(** [block.blockNumberL2] as the function computes it from the stored
    blocks. *)
Definition blockNumberL2 (fuel : nat) (blockHashes : Z -> option string)
    (blockHash : string) (storedL2BlockNumbers : list Z) : option (Res string Z) :=
  findBlockNumberL2 fuel blockHashes blockHash (lastReliableL2BlockNumber storedL2BlockNumbers).

End Calldata.

(* ===================================================================== *)
(** ** get-info.mjs: reading the trace of [start] *)
(* ===================================================================== *)
Module GetInfoTrace.

Section Trace.
Context {Signed W : Type}.

(** The number of times the operator was asked for the executor key. *)
Definition executor_prompts (tr : list (GetInfo.Event Signed)) : nat :=
  List.length (List.filter (fun e => match e with
                                     | GetInfo.Invoked (GetInfo.c_askQuestions true) => true
                                     | _ => false
                                     end) tr).

(** The transactions given to [addSignedTransaction], in call order. *)
Definition additions (tr : list (GetInfo.Event Signed)) : list Signed :=
  omap (fun e => match e with
                 | GetInfo.Invoked (GetInfo.c_addSignedTransaction tx) => Some tx
                 | _ => None
                 end) tr.

Definition is_closed (e : GetInfo.Event Signed) : bool :=
  match e with
  | GetInfo.ConnectionClosed => true
  | _ => false
  end.

(** The connection is not closed anywhere in [tr]. *)
Definition open (tr : list (GetInfo.Event Signed)) : Prop :=
  List.filter is_closed tr = [].

(** A computation that only appends to the trace and never closes the
    connection. *)
Definition quiet {A : Type} (m : @GetInfo.M Signed W A) : Prop :=
  ∀ st, ∃ new, snd (snd (m st)) = snd st ++ new ∧ open new.

(** A computation that only appends to the trace and closes the connection
    as its last act exactly when it resolves. *)
Definition closes_iff_resolved {A : Type} (m : @GetInfo.M Signed W A) : Prop :=
  ∀ st, ∃ new,
    snd (snd (m st)) = snd st ++ new
    ∧ match fst (m st) with
      | Resolved _ => ∃ before, new = before ++ [GetInfo.ConnectionClosed] ∧ open before
      | Rejected _ => open new
      end.
End Trace.

End GetInfoTrace.

(* ===================================================================== *)
(** * Properties *)
(* ===================================================================== *)

(** ** Arithmetic of JavaScript numbers *)
Section JsNumberFacts.
Import JsNumber.
Open Scope Z_scope.

Lemma round_exact x : Z.abs x ≤ limit → round x = x.
Proof.
  intros Hx. unfold round.
  destruct (Z.leb_spec (Z.abs x) limit); [reflexivity|lia].
Qed.

(** Rounding never takes a number from [2^53] upwards below [2^53]. *)
Lemma round_ge x : limit ≤ x → limit ≤ round x.
Proof.
  intros Hx. unfold round.
  destruct (Z.leb_spec (Z.abs x) limit) as [_|Hbig]; [assumption|].
  assert (Hpos : 0 < x) by (unfold limit in Hx; lia).
  assert (Habs : Z.abs x = x) by lia. rewrite Habs.
  set (e := Z.log2 x).
  assert (He : 53 ≤ e).
  { change 53 with (Z.log2 limit). apply Z.log2_le_mono. assumption. }
  assert (Hpow : 2 ^ e ≤ x) by (apply Z.log2_spec; assumption).
  set (ulp := 2 ^ (e - 52)).
  assert (Hulp : 0 < ulp) by (apply Z.pow_pos_nonneg; lia).
  assert (Hsplit : 2 ^ e = 2 ^ 52 * ulp).
  { unfold ulp. rewrite <- Z.pow_add_r by lia. f_equal. lia. }
  assert (Hq : 2 ^ 52 ≤ x / ulp) by (apply Z.div_le_lower_bound; lia).
  assert (Hmono : 2 ^ 53 ≤ 2 ^ e) by (apply Z.pow_le_mono_r; lia).
  assert (Hlow : limit ≤ x / ulp * ulp) by (unfold limit; nia).
  cbv zeta.
  destruct (_ <? _); [assumption|].
  destruct (_ <? _); [nia|].
  destruct (Z.even _); [assumption|nia].
Qed.

Lemma add_exact a b : Z.abs (a + b) ≤ limit → add a b = a + b.
Proof. apply round_exact. Qed.

Lemma succ_exact n : Z.of_N n < limit → succ n = (n + 1)%N.
Proof.
  intros Hn. unfold succ. rewrite add_exact by lia. lia.
Qed.

Lemma succ_ge n : limit ≤ Z.of_N n → limit ≤ Z.of_N (succ n).
Proof.
  intros Hn. unfold succ, add.
  pose proof (round_ge (Z.of_N n + 1)) as Hr.
  assert (limit ≤ round (Z.of_N n + 1)) by (apply Hr; lia).
  unfold limit in *. rewrite Z2N.id; lia.
Qed.

Lemma succ_ne0 n : succ n ≠ 0%N.
Proof.
  destruct (Z.lt_ge_cases (Z.of_N n) limit) as [Hlt|Hge].
  - rewrite succ_exact by assumption. lia.
  - apply succ_ge in Hge. unfold limit in Hge. lia.
Qed.

(** A nonce below [2^53] that lies below the counter stays below it when the
    counter is incremented. *)
Lemma succ_above m n : Z.of_N m < limit → (m < n)%N → (m < succ n)%N.
Proof.
  intros Hm Hmn.
  destruct (Z.lt_ge_cases (Z.of_N n) limit) as [Hlt|Hge].
  - rewrite succ_exact by assumption. lia.
  - apply succ_ge in Hge. lia.
Qed.

(** At [2^53] the increment is lost: [2^53 + 1] is not a double and rounds
    back to [2^53]. *)
Lemma succ_limit : succ (Z.to_N limit) = Z.to_N limit.
Proof. vm_compute. reflexivity. Qed.
End JsNumberFacts.

(** ** The nonce counter of [Nf3] *)
Section Nf3Facts.
Import Nf3.
Variable web3 : Web3.

Lemma criticalSection_cached to data fee this c :
  nonce this ≠ 0%N →
  criticalSection web3 to data fee this c =
    (Resolved (buildTx this to data fee), set_nonce (JsNumber.succ (nonce this)) this, c).
Proof.
  intros Hn. unfold criticalSection.
  destruct (N.eqb_spec (nonce this) 0) as [E|_]; [contradiction|reflexivity].
Qed.

Lemma criticalSection_fresh to data fee this c n n' :
  nonce this = 0%N →
  txCount web3 (ethereumAddress this) (List.length c) = Some n →
  txCount web3 (ethereumAddress this) (S (List.length c)) = Some n' →
  criticalSection web3 to data fee this c =
    (Resolved (buildTx (set_nonce n this) to data fee),
     set_nonce (JsNumber.succ n) this,
     c ++ [ethereumAddress this; ethereumAddress this]).
Proof.
  intros H0 H1 H2. unfold criticalSection, getTransactionCount.
  rewrite H0. simpl N.eqb. cbv iota. rewrite H1. simpl.
  rewrite length_app. simpl. rewrite Nat.add_1_r, H2.
  rewrite <- app_assoc. reflexivity.
Qed.

Lemma criticalSection_unreadable to data fee this c :
  nonce this = 0%N →
  txCount web3 (ethereumAddress this) (List.length c) = None →
  criticalSection web3 to data fee this c =
    (Rejected TransactionCountUnavailable, this, c ++ [ethereumAddress this]).
Proof.
  intros H0 H1. unfold criticalSection, getTransactionCount.
  rewrite H0. simpl N.eqb. cbv iota. rewrite H1. reflexivity.
Qed.

Lemma submitTransaction_resolved data to fee this c tx this' c' :
  criticalSection web3 (default (shieldContractAddress this) to) data
    (default (defaultFee this) fee) this c = (Resolved tx, this', c') →
  ∃ send, submitTransaction web3 data to fee this c = (Resolved send, this', c')
          ∧ sent_tx send = tx.
Proof.
  intros E. unfold submitTransaction. rewrite E.
  destruct (Nat.eqb _ 0); eexists; split; reflexivity.
Qed.

(** What [setEthereumSigningKey] leaves in the instance. *)
Lemma setEthereumSigningKey_fields key this :
  let this1 := setEthereumSigningKey web3 key this in
  nonce this1 = 0%N
  ∧ ethereumSigningKey this1 = key
  ∧ ethereumAddress this1 =
      (if Nat.eqb (String.length key) 0 then UnlockedAccountPromise
       else KeyAddress (privateKeyToAddress web3 key)).
Proof. repeat split. Qed.

(** A key change made while no call is in flight: the next call asks the
    node for the count of the new account, whatever counter the instance held
    before, and what it sends carries the node's answer. *)
Lemma key_change_then_refetch key data to fee this c :
  let this1 := setEthereumSigningKey web3 key this in
  let account := if Nat.eqb (String.length key) 0 then UnlockedAccountPromise
                 else KeyAddress (privateKeyToAddress web3 key) in
  (∃ later, snd (submitTransaction web3 data to fee this1 c) = c ++ account :: later)
  ∧ (∀ send this2 c2,
       submitTransaction web3 data to fee this1 c = (Resolved send, this2, c2) →
       txCount web3 account (List.length c) = Some (tx_nonce (sent_tx send))
       ∧ tx_from (sent_tx send) = account).
Proof.
  intros this1 account.
  assert (H0 : nonce this1 = 0%N) by reflexivity.
  assert (Ha : ethereumAddress this1 = account) by reflexivity.
  split.
  - unfold submitTransaction, criticalSection, getTransactionCount.
    rewrite H0. simpl N.eqb. cbv iota. cbn [ethereumAddress set_nonce].
    rewrite Ha.
    destruct (txCount web3 account (List.length c)) as [n|].
    + destruct (txCount web3 account (List.length (c ++ [account]))) as [n'|].
      * destruct (Nat.eqb _ 0); simpl; exists [account];
          rewrite <- app_assoc; reflexivity.
      * simpl. exists [account]. rewrite <- app_assoc; reflexivity.
    + simpl. exists []. reflexivity.
  - intros send this2 c2.
    unfold submitTransaction, criticalSection, getTransactionCount.
    rewrite H0. simpl N.eqb. cbv iota. cbn [ethereumAddress set_nonce].
    rewrite Ha.
    destruct (txCount web3 account (List.length c)) as [n|]; [|discriminate].
    destruct (txCount web3 account (List.length (c ++ [account]))) as [n'|];
      [|discriminate].
    destruct (Nat.eqb _ 0); intros E; inversion E; subst; simpl; auto.
Qed.
End Nf3Facts.




(** ** Interleaved calls of [submitTransaction] *)
Section Interleaving.
Import Nf3 Nf3Session.
Variable web3 : Web3.

Lemma lookup_updated (l : list (Call * Phase)) i x old k y :
  l !! i = Some old → <[i := x]> l !! k = Some y →
  (k = i ∧ y = x) ∨ (k ≠ i ∧ l !! k = Some y).
Proof.
  intros Hi Hk. destruct (decide (k = i)) as [->|Hne].
  - left. split; [reflexivity|].
    rewrite list_lookup_insert_eq in Hk by (eapply lookup_lt_Some; eauto).
    congruence.
  - right. split; [assumption|].
    rewrite list_lookup_insert_ne in Hk by congruence. assumption.
Qed.

Lemma spawn_queued this0 c0 calls i c ph :
  tasks (spawn this0 c0 calls) !! i = Some (c, ph) → ph = Queued.
Proof.
  simpl. intros Hl. rewrite list_lookup_fmap in Hl.
  destruct (calls !! i); simpl in Hl; congruence.
Qed.

Lemma Inv_spawn this0 c0 calls : Inv (spawn this0 c0 calls).
Proof.
  split.
  - intros i c tx Hl. apply spawn_queued in Hl. discriminate.
  - intros i j ci cj txi txj _ Hl. apply spawn_queued in Hl. discriminate.
  - intros i c asked Hl. apply spawn_queued in Hl. discriminate.
  - intros i c asked Hl. apply spawn_queued in Hl. discriminate.
Qed.

(** Completing the callback: the task takes the current counter, the
    counter is incremented and the mutex is released. *)
Lemma Inv_build s i c old :
  Inv s → tasks s !! i = Some old →
  (∀ k ck ph, k ≠ i → tasks s !! k = Some (ck, ph) → inside ph = false) →
  ∀ ch, Inv (mkSys (set_nonce (JsNumber.succ (nonce (this s))) (this s)) ch None
               (<[i := (c, Built (buildTx (this s) (call_to c) (call_data c) (call_fee c)))]>
                  (tasks s))).
Proof.
  intros [I1 I2 I3 I4] Hold Hothers ch.
  split; simpl.
  - intros k ck tx Hk Hlim.
    destruct (lookup_updated _ _ _ _ _ _ Hold Hk) as [[-> E]|[Hne Hk']].
    + inversion E; subst. simpl in *. rewrite succ_exact by assumption. lia.
    + apply succ_above; [assumption|]. eapply I1; eauto.
  - intros k j ck cj txk txj Hkj Hk Hj Hlk Hlj.
    destruct (lookup_updated _ _ _ _ _ _ Hold Hk) as [[-> Ek]|[Hnk Hk']];
      destruct (lookup_updated _ _ _ _ _ _ Hold Hj) as [[-> Ej]|[Hnj Hj']].
    + congruence.
    + inversion Ek; subst. simpl in *. specialize (I1 _ _ _ Hj' Hlj). lia.
    + inversion Ej; subst. simpl in *. specialize (I1 _ _ _ Hk' Hlk). lia.
    + eauto.
  - intros k ck asked Hk.
    destruct (lookup_updated _ _ _ _ _ _ Hold Hk) as [[-> E]|[Hne Hk']];
      [discriminate|].
    specialize (Hothers _ _ _ Hne Hk'). discriminate.
  - intros k ck asked Hk.
    destruct (lookup_updated _ _ _ _ _ _ Hold Hk) as [[-> E]|[Hne Hk']];
      [discriminate|].
    specialize (Hothers _ _ _ Hne Hk'). discriminate.
Qed.

(** A rejected request: the task fails, the mutex is released, the counter
    keeps its value. *)
Lemma Inv_fail s i c old e :
  Inv s → tasks s !! i = Some old →
  (∀ k ck ph, k ≠ i → tasks s !! k = Some (ck, ph) → inside ph = false) →
  ∀ ch, Inv (mkSys (this s) ch None (<[i := (c, Failed e)]> (tasks s))).
Proof.
  intros [I1 I2 I3 I4] Hold Hothers ch.
  split; simpl.
  - intros k ck tx Hk.
    destruct (lookup_updated _ _ _ _ _ _ Hold Hk) as [[-> E]|[Hne Hk']];
      [discriminate|eauto].
  - intros k j ck cj txk txj Hkj Hk Hj.
    destruct (lookup_updated _ _ _ _ _ _ Hold Hk) as [[-> Ek]|[Hnk Hk']];
      [discriminate|].
    destruct (lookup_updated _ _ _ _ _ _ Hold Hj) as [[-> Ej]|[Hnj Hj']];
      [discriminate|eauto].
  - intros k ck asked Hk.
    destruct (lookup_updated _ _ _ _ _ _ Hold Hk) as [[-> E]|[Hne Hk']];
      [discriminate|].
    specialize (Hothers _ _ _ Hne Hk'). discriminate.
  - intros k ck asked Hk.
    destruct (lookup_updated _ _ _ _ _ _ Hold Hk) as [[-> E]|[Hne Hk']];
      [discriminate|].
    specialize (Hothers _ _ _ Hne Hk'). discriminate.
Qed.

(** Whoever is inside the callback is the holder: nobody else is. *)
Lemma others_outside s i :
  Inv s → holder s = None ∨ holder s = Some i →
  ∀ k ck ph, k ≠ i → tasks s !! k = Some (ck, ph) → inside ph = false.
Proof.
  intros [I1 I2 I3 I4] Hh k ck ph Hne Hk.
  destruct ph as [|asked|asked| |]; try reflexivity; exfalso.
  - destruct (I3 _ _ _ Hk) as [Hk' _]. destruct Hh; congruence.
  - specialize (I4 _ _ _ Hk). destruct Hh; congruence.
Qed.

Lemma Inv_resume s s' i : Inv s → resume web3 i s = Some s' → Inv s'.
Proof.
  intros HI Hs. unfold resume in Hs.
  destruct (tasks s !! i) as [[c ph]|] eqn:Hi; [|discriminate].
  destruct ph as [|asked|asked| |]; try discriminate.
  - (* the callback starts *)
    destruct (holder s) eqn:Hh; [discriminate|].
    pose proof (others_outside s i HI (or_introl Hh)) as Hothers.
    destruct (N.eqb_spec (nonce (this s)) 0) as [H0|Hn];
      inversion Hs; subst; clear Hs.
    + destruct HI as [I1 I2 I3 I4]. split; simpl.
      * intros k ck tx Hk.
        destruct (lookup_updated _ _ _ _ _ _ Hi Hk) as [[-> E]|[Hne Hk']];
          [discriminate|eauto].
      * intros k j ck cj txk txj Hkj Hk Hj.
        destruct (lookup_updated _ _ _ _ _ _ Hi Hk) as [[-> Ek]|[Hnk Hk']];
          [discriminate|].
        destruct (lookup_updated _ _ _ _ _ _ Hi Hj) as [[-> Ej]|[Hnj Hj']];
          [discriminate|eauto].
      * intros k ck asked Hk.
        destruct (lookup_updated _ _ _ _ _ _ Hi Hk) as [[-> E]|[Hne Hk']]; [auto|].
        specialize (Hothers _ _ _ Hne Hk'). discriminate.
      * intros k ck asked Hk.
        destruct (lookup_updated _ _ _ _ _ _ Hi Hk) as [[-> E]|[Hne Hk']];
          [discriminate|].
        specialize (Hothers _ _ _ Hne Hk'). discriminate.
    + eapply Inv_build; eauto.
  - (* the first answer arrives *)
    destruct (inv_await1 s HI _ _ _ Hi) as [Hh H0].
    pose proof (others_outside s i HI (or_intror Hh)) as Hothers.
    unfold getTransactionCount in Hs.
    destruct (txCount web3 _ _) as [n|]; inversion Hs; subst; clear Hs.
    + destruct HI as [I1 I2 I3 I4]. split; simpl.
      * intros k ck tx Hk Hlim.
        destruct (lookup_updated _ _ _ _ _ _ Hi Hk) as [[-> E]|[Hne Hk']];
          [discriminate|].
        specialize (I1 _ _ _ Hk' Hlim). lia.
      * intros k j ck cj txk txj Hkj Hk Hj.
        destruct (lookup_updated _ _ _ _ _ _ Hi Hk) as [[-> Ek]|[Hnk Hk']];
          [discriminate|].
        destruct (lookup_updated _ _ _ _ _ _ Hi Hj) as [[-> Ej]|[Hnj Hj']];
          [discriminate|eauto].
      * intros k ck asked' Hk.
        destruct (lookup_updated _ _ _ _ _ _ Hi Hk) as [[-> E]|[Hne Hk']];
          [discriminate|].
        specialize (Hothers _ _ _ Hne Hk'). discriminate.
      * intros k ck asked' Hk.
        destruct (lookup_updated _ _ _ _ _ _ Hi Hk) as [[-> E]|[Hne Hk']]; [auto|].
        specialize (Hothers _ _ _ Hne Hk'). discriminate.
    + eapply Inv_fail; eauto.
  - (* the second answer arrives *)
    pose proof (inv_await2 s HI _ _ _ Hi) as Hh.
    pose proof (others_outside s i HI (or_intror Hh)) as Hothers.
    unfold getTransactionCount in Hs.
    destruct (txCount web3 _ _) as [n|]; inversion Hs; subst; clear Hs.
    + eapply Inv_build; eauto.
    + eapply Inv_fail; eauto.
Qed.

(** The invariant holds along every schedule that changes no key. *)
Lemma Inv_run sched : ∀ s, Inv s → Inv (run web3 (Resume <$> sched) s).
Proof.
  induction sched as [|i rest IH]; intros s HI; simpl; [assumption|].
  apply IH. destruct (resume web3 i s) as [s'|] eqn:E; simpl; [|assumption].
  eapply Inv_resume; eauto.
Qed.

(** A task scheduled alone goes through the callback exactly as
    [criticalSection] does. *)
Lemma run_alone this0 c0 call :
  let s := run web3 [Resume 0; Resume 0; Resume 0] (spawn this0 c0 [call]) in
  let r := criticalSection web3 (call_to call) (call_data call) (call_fee call) this0 c0 in
  this s = snd (fst r) ∧ chain s = snd r ∧ holder s = None ∧
  tasks s = [(call, match fst (fst r) with
                    | Resolved tx => Built tx
                    | Rejected e => Failed e
                    end)].
Proof.
  unfold spawn, criticalSection. simpl. unfold resume. simpl.
  destruct (N.eqb_spec (nonce this0) 0) as [H0|Hn]; simpl.
  - unfold resume; simpl. unfold getTransactionCount.
    destruct (txCount web3 (ethereumAddress this0) (List.length c0)); simpl.
    + unfold resume; simpl. unfold getTransactionCount; simpl.
      destruct (txCount web3 (ethereumAddress this0) (List.length (c0 ++ _)));
        simpl; auto.
    + auto.
  - auto.
Qed.
End Interleaving.

(** C3, as the code has it. However the calls of [submitTransaction] issued
    on one [Nf3] instance are interleaved at their awaits, as long as the
    signing key is not set anew in between, two of them never reserve the same
    nonce below [2^53]: the callback runs under the instance's [nonceMutex],
    so the read of the counter (or of the chain) and the increment are not
    interrupted by another call. *)
Theorem concurrent_reservations_disjoint (web3 : Nf3.Web3) (this0 : Nf3.t)
    (c0 : Nf3.Chain) (calls : list Nf3.Call) (sched : list nat) (i j : nat) (ni nj : N) :
  i ≠ j →
  Nf3.reserved (Nf3.run web3 (Nf3.Resume <$> sched) (Nf3.spawn this0 c0 calls)) i = Some ni →
  Nf3.reserved (Nf3.run web3 (Nf3.Resume <$> sched) (Nf3.spawn this0 c0 calls)) j = Some nj →
  (Z.of_N ni < JsNumber.limit)%Z ∨ (Z.of_N nj < JsNumber.limit)%Z →
  ni ≠ nj.
Proof.
  intros Hij Hi Hj Hlim.
  pose proof (Inv_run web3 sched _ (Inv_spawn this0 c0 calls)) as HI.
  unfold Nf3.reserved in Hi, Hj.
  destruct (Nf3.tasks _ !! i) as [[ci [| | |txi|]]|] eqn:Ei; try discriminate.
  destruct (Nf3.tasks _ !! j) as [[cj [| | |txj|]]|] eqn:Ej; try discriminate.
  inversion Hi; inversion Hj; subst.
  destruct (Z.lt_ge_cases (Z.of_N (Nf3.tx_nonce txi)) JsNumber.limit) as [Hli|Hgi];
    destruct (Z.lt_ge_cases (Z.of_N (Nf3.tx_nonce txj)) JsNumber.limit) as [Hlj|Hgj];
    try lia.
  eapply (Nf3.inv_distinct _ HI); eauto.
Qed.

Lemma concurrent_reservations_disjoint_witness :
  Nf3.reserved (Nf3.run Demo.web3 (Nf3.Resume <$> [0; 1; 0; 1; 0; 1])
                  (Nf3.spawn Demo.nf3_fresh [] Demo.calls)) 0
    = Some 7%N
  ∧ Nf3.reserved (Nf3.run Demo.web3 (Nf3.Resume <$> [0; 1; 0; 1; 0; 1])
                    (Nf3.spawn Demo.nf3_fresh [] Demo.calls)) 1
    = Some 8%N
  ∧ 7%N ≠ 8%N.
Proof.
  split; [reflexivity|]. split; [reflexivity|].
  apply (concurrent_reservations_disjoint Demo.web3 Demo.nf3_fresh [] Demo.calls
           [0; 1; 0; 1; 0; 1] 0 1); [lia | reflexivity | reflexivity | left; reflexivity].
Defined.

(** C3 as stated does not hold: the counter and the mutex belong to the
    instance, not to the signing identity.  Two instances made with the same
    key in one process each ask the node and both reserve 7 for the same
    account; one instance whose key is set again between two calls forgets its
    counter and reserves 7 twice; and a counter that has reached [2^53] is
    handed to two calls of one instance. *)
Lemma same_identity_reserves_nonce_twice :
  (∃ send1 this1 c1 send2 this2 c2,
     Nf3.submitTransaction Demo.web3_idle "0xdeposit" None None Demo.nf3_fresh []
       = (Resolved send1, this1, c1)
     ∧ Nf3.submitTransaction Demo.web3_idle "0xpropose" None None Demo.nf3_second c1
       = (Resolved send2, this2, c2)
     ∧ Nf3.tx_from (Nf3.sent_tx send1) = Nf3.tx_from (Nf3.sent_tx send2)
     ∧ Nf3.tx_nonce (Nf3.sent_tx send1) = 7%N
     ∧ Nf3.tx_nonce (Nf3.sent_tx send2) = 7%N)
  ∧ (let s := Nf3.run Demo.web3_idle
                [Nf3.Resume 0; Nf3.Resume 0; Nf3.Resume 0; Nf3.SetKey "0xkey1";
                 Nf3.Resume 1; Nf3.Resume 1; Nf3.Resume 1]
                (Nf3.spawn Demo.nf3_fresh [] Demo.calls) in
     Nf3.reserved s 0 = Some 7%N ∧ Nf3.reserved s 1 = Some 7%N)
  ∧ (let s := Nf3.run Demo.web3 (Nf3.Resume <$> [0; 1])
                (Nf3.spawn Demo.nf3_at_limit [] Demo.calls) in
     Nf3.reserved s 0 = Some (Z.to_N JsNumber.limit)
     ∧ Nf3.reserved s 1 = Some (Z.to_N JsNumber.limit)).
Proof.
  split; [|split].
  - do 6 eexists. split; [vm_compute; reflexivity|].
    split; [vm_compute; reflexivity|]. repeat split.
  - vm_compute. split; reflexivity.
  - vm_compute. split; reflexivity.
Qed.

(** C10, where the code departs from it. [setEthereumSigningKey] does not
    take [nonceMutex].  A call is inside the callback, waiting for the count
    of the old account, when the key is changed: the counter is cleared, and
    then the waiting call stores the old account's count (7) in it.  That call
    goes out from the new address with nonce 7, and the first call issued
    after the key change finds a counter that is not 0: it takes 8 without
    asking the node, although the node reports 3 for the new account. *)
Theorem key_change_during_call_reuses_old_count :
  let first := Nf3.mkCall "0xshield" "0xdeposit" 10 in
  let next := Nf3.mkCall "0xshield" "0xwithdraw" 10 in
  let old_account := Nf3.KeyAddress "0xaddr_0xkey1" in
  let new_account := Nf3.KeyAddress "0xaddr_0xkey2" in
  let s1 := Nf3.run Demo.web3_accounts [Nf3.Resume 0]
              (Nf3.spawn Demo.nf3_fresh [] [first]) in
  let s2 := Nf3.run Demo.web3_accounts [Nf3.SetKey "0xkey2"] s1 in
  let s3 := Nf3.run Demo.web3_accounts [Nf3.Resume 0; Nf3.Resume 0] s2 in
  let s4 := Nf3.run Demo.web3_accounts [Nf3.Resume 1] (Nf3.issue next s3) in
  Nf3.tasks s1 = [(first, Nf3.AwaitCount1 old_account)]
  ∧ Nf3.nonce (Nf3.this s2) = 0%N
  ∧ Nf3.ethereumAddress (Nf3.this s2) = new_account
  ∧ Nf3.tasks s3 =
      [(first, Nf3.Built (Nf3.mkTx new_account "0xshield" "0xdeposit" 10
                            10000000 10000000000 7))]
  ∧ Nf3.chain s3 = [old_account; new_account]
  ∧ Nf3.tasks s4 !! 1 =
      Some (next, Nf3.Built (Nf3.mkTx new_account "0xshield" "0xwithdraw" 10
                               10000000 10000000000 8))
  ∧ Nf3.chain s4 = Nf3.chain s3
  ∧ Nf3.txCount Demo.web3_accounts new_account (List.length (Nf3.chain s3)) = Some 3%N.
Proof. vm_compute. repeat split. Qed.

(** ** Bundles built by [ContractMultiSig] *)
Section BundleFacts.
Import ContractMultiSig.
Context {A : Type}.
Variable add : MultiSig -> Request -> A.
Variable toAddress : string -> string.

Lemma perform_imap this a signingKey executorAddress n :
  perform add toAddress this a signingKey executorAddress n =
    imap (fun i target =>
            add (multiSig this) (request toAddress a signingKey executorAddress n i target))
      (targets this a).
Proof.
  unfold request.
  destruct a; simpl; unfold setTokenRestrictions, removeTokenRestrictions,
    setBootProposer, setBootChallenger, setMaticAddress; simpl; reflexivity.
Qed.

Lemma imap_lookup {X Y} (f : nat -> X -> Y) (l : list X) i x :
  l !! i = Some x → imap f l !! i = Some (f i x).
Proof.
  revert f i. induction l as [|y l IH]; intros f i Hl; [discriminate|].
  destruct i as [|i]; simpl in *.
  - congruence.
  - apply (IH (f ∘ S)). assumption.
Qed.

Lemma imap_seq {X Y} (f : nat -> Y) (s : nat) (l : list X) :
  imap (fun i _ => f (s + i)) l = map f (seq s (List.length l)).
Proof.
  revert s. induction l as [|x l IH]; intros s; [reflexivity|].
  simpl. f_equal; [f_equal; lia|].
  rewrite <- (IH (S s)).
  apply imap_ext. intros i y _. simpl. f_equal. lia.
Qed.

Lemma perform_lookup this a signingKey executorAddress n i target :
  targets this a !! i = Some target →
  perform add toAddress this a signingKey executorAddress n !! i =
    Some (add (multiSig this) (request toAddress a signingKey executorAddress n i target)).
Proof.
  intros Hl. rewrite perform_imap.
  apply (imap_lookup (fun i target => add (multiSig this)
                        (request toAddress a signingKey executorAddress n i target))).
  assumption.
Qed.


Lemma targets_single this a :
  capability_of a = None → targets this a = [shield (contractInstances this)].
Proof. destruct a; simpl; intros E; try discriminate; reflexivity. Qed.

(** Where every sum stays within [2^53] in magnitude, the nonce of the
    [i]-th target is [n + i]. *)
Lemma nonce_at_exact this a n i :
  capability_of a = None
  ∨ (- JsNumber.limit ≤ n ∧ n + Z.of_nat (List.length (targets this a)) - 1 ≤ JsNumber.limit)%Z →
  i < List.length (targets this a) →
  nonce_at a n i = (n + Z.of_nat i)%Z.
Proof.
  intros Hrange Hi. unfold nonce_at.
  destruct (capability_of a) as [cap|] eqn:Ecap.
  - destruct Hrange as [?|[Hlo Hhi]]; [discriminate|].
    apply add_exact. lia.
  - rewrite (targets_single this a Ecap) in Hi. simpl in Hi.
    assert (i = 0) by lia. subst i. lia.
Qed.
End BundleFacts.

Lemma perform_nonces (toAddress : string -> string) (this : ContractMultiSig.t)
    (a : ContractMultiSig.Action) (signingKey executorAddress : string) (n : Z) :
  ContractMultiSig.capability_of a = None
  ∨ (- JsNumber.limit ≤ n
     ∧ n + Z.of_nat (List.length (ContractMultiSig.targets this a)) - 1 ≤ JsNumber.limit)%Z →
  map ContractMultiSig.nonce
    (ContractMultiSig.perform (fun _ r => r) toAddress this a signingKey executorAddress n)
  = map (fun i => (n + Z.of_nat i)%Z)
      (seq 0 (List.length (ContractMultiSig.targets this a))).
Proof.
  intros Hrange. rewrite perform_imap, fmap_imap. unfold compose. simpl.
  rewrite <- (imap_seq (fun i => (n + Z.of_nat i)%Z) 0).
  apply imap_ext. intros i target Hl. simpl.
  apply (nonce_at_exact this); [assumption|].
  eapply lookup_lt_Some; eassumption.
Qed.

(** C2, as the code has it. For every administrative action and base nonce
    [n] the method calls [addMultiSigSignature] once per target contract, in
    target-list order, the [i]-th call (counting from 0) with nonce [n + i]
    as JavaScript adds them: a bundle of [k] targets carries the nonces
    [n, n+1, ..., n+k-1] when these stay within [2^53] in magnitude; a method
    with the shield as its only target passes [n] on as it is. *)
Theorem bundle_nonces (toAddress : string -> string) (this : ContractMultiSig.t)
    (a : ContractMultiSig.Action) (signingKey executorAddress : string) (n : Z) :
  let bundle :=
    ContractMultiSig.perform (fun _ r => r) toAddress this a signingKey executorAddress n in
  let k := List.length (ContractMultiSig.targets this a) in
  List.length bundle = k
  ∧ map ContractMultiSig.contractAddress bundle =
      map ContractMultiSig.address (ContractMultiSig.targets this a)
  ∧ (∀ i target,
       ContractMultiSig.targets this a !! i = Some target →
       bundle !! i =
         Some (ContractMultiSig.mkRequest
                 (ContractMultiSig.encodeABI target (ContractMultiSig.method_of toAddress a))
                 signingKey (ContractMultiSig.address target) executorAddress
                 (ContractMultiSig.nonce_at a n i)))
  ∧ (ContractMultiSig.capability_of a = None
     ∨ (- JsNumber.limit ≤ n ∧ n + Z.of_nat k - 1 ≤ JsNumber.limit)%Z →
     map ContractMultiSig.nonce bundle = map (fun i => (n + Z.of_nat i)%Z) (seq 0 k)).
Proof.
  intros bundle k. subst bundle k.
  split; [|split; [|split]].
  - rewrite perform_imap. apply length_imap.
  - rewrite perform_imap. rewrite fmap_imap. unfold compose. simpl.
    generalize (ContractMultiSig.targets this a) as l.
    induction l as [|x l IH]; [reflexivity|]. simpl. f_equal. exact IH.
  - intros i target Hl.
    apply (perform_lookup (fun _ r => r) toAddress this a signingKey executorAddress n i target Hl).
  - apply perform_nonces.
Qed.

Lemma bundle_nonces_witness :
  ContractMultiSig.perform (fun _ r => r) (Nf3.privateKeyToAddress Demo.web3) Demo.multisig
    ContractMultiSig.Pause "0xkey1" "0xexecutor" 5 !! 1
  = Some (ContractMultiSig.mkRequest "state.pause" "0xkey1" "0xstate" "0xexecutor"
            (ContractMultiSig.nonce_at ContractMultiSig.Pause 5 1))
  ∧ map ContractMultiSig.nonce
      (ContractMultiSig.perform (fun _ r => r) (Nf3.privateKeyToAddress Demo.web3) Demo.multisig
         ContractMultiSig.Pause "0xkey1" "0xexecutor" 5)
    = map (fun i => (5 + Z.of_nat i)%Z)
        (seq 0 (List.length (ContractMultiSig.targets Demo.multisig ContractMultiSig.Pause))).
Proof.
  pose proof (bundle_nonces (Nf3.privateKeyToAddress Demo.web3) Demo.multisig
                ContractMultiSig.Pause "0xkey1" "0xexecutor" 5) as Hbundle.
  cbv zeta in Hbundle. destruct Hbundle as (_ & _ & Hlookup & Hnonces).
  split.
  - apply (Hlookup 1 (Demo.contract "state")). reflexivity.
  - apply Hnonces. right. vm_compute. split; discriminate.
Defined.

(** C2 as stated does not hold for every base nonce: with base nonce [2^53]
    the two calls of a pause both carry [2^53], since [2^53 + 1] is not a
    JavaScript number. *)
Lemma bundle_nonces_collide_at_limit :
  map ContractMultiSig.nonce
    (ContractMultiSig.perform (fun _ r => r) (Nf3.privateKeyToAddress Demo.web3) Demo.multisig
       ContractMultiSig.Pause "0xkey1" "0xexecutor" JsNumber.limit)
  = [JsNumber.limit; JsNumber.limit]
  ∧ [JsNumber.limit; JsNumber.limit] ≠ [JsNumber.limit; (JsNumber.limit + 1)%Z].
Proof. split; [vm_compute; reflexivity | vm_compute; discriminate]. Qed.



(** ** The control loop [start] *)
Section StartFacts.
Import GetInfo.
Context {Signed W : Type}.
Variable H : Helpers Signed W.
Variable T : Z.

Lemma ready_exact (approval : @Approval Signed) :
  ready T approval = true ↔
  ∃ signatures, approval = Some signatures ∧ Z.of_nat (List.length signatures) = T.
Proof.
  unfold ready. destruct approval as [l|].
  - rewrite Z.eqb_eq. split; [eauto|]. intros (l' & E & Hl). congruence.
  - split; [discriminate|]. intros (l' & E & _). discriminate.
Qed.






End StartFacts.



(** C1, where the code departs from it: three distinct signers are held
    for a call and the threshold is 2, yet
    [approval?.length === SIGNATURE_THRESHOLD] is false and the executor loop
    submits nothing. *)
Theorem threshold_gate_exact_only :
  Merge.count Demo.store3 Demo.pauseShield = 3
  ∧ List.length (Merge.approvals Demo.store3 Demo.pauseShield) = 3
  ∧ GetInfo.ready 2 (Some (Merge.approvals Demo.store3 Demo.pauseShield)) = false
  ∧ GetInfo.executeLoop
      (Demo.helpers (Demo.answers "add" None) (Some 5%Z) (fun _ => true)) 2
      [Some (Merge.approvals Demo.store3 Demo.pauseShield)] None (0, [])
    = (Resolved tt, (0, [])).
Proof. vm_compute. repeat split. Qed.

(** C9, as the code has it. When the multisig nonce cannot be read in the
    'get nonce' workflow (the contract cannot be found, or the call of its
    [nonce()] is rejected), [start] catches the rejection, logs it with the
    message 'Could not get nonce...', does not try again, and completes: the
    connection is closed and the approvals (none) are returned. *)
Theorem nonce_read_failure_logged {Signed W : Type} (H : GetInfo.Helpers Signed W) (T : Z)
    (a : GetInfo.Answers) (w w1 w3 : W) (e : GetInfo.Err)
    (tr : list (GetInfo.Event Signed)) :
  GetInfo.askQuestions H false w = (Resolved a, w1) →
  GetInfo.workflow a = "get nonce" →
  GetInfo.falsy (GetInfo.nonce a) = true →
  let asked :=
    [GetInfo.Invoked (GetInfo.c_askQuestions false);
     GetInfo.Settled (GetInfo.c_askQuestions false) true;
     GetInfo.Invoked (GetInfo.c_waitForContract "SimpleMultiSig")] in
  let logged :=
    [GetInfo.LogError "Could not get nonce. Are you connected to the blockchain?" e;
     GetInfo.ConnectionClosed] in
  (GetInfo.waitForContract H "SimpleMultiSig" w1 = (Rejected e, w3) →
   let new := asked
              ++ [GetInfo.Settled (GetInfo.c_waitForContract "SimpleMultiSig") false]
              ++ logged in
   GetInfo.start H T (w, tr) = (Resolved [], (w3, tr ++ new))
   ∧ GetInfo.nonce_reads new = 0)
  ∧ (∀ w2,
       GetInfo.waitForContract H "SimpleMultiSig" w1 = (Resolved tt, w2) →
       GetInfo.multiSigNonce H w2 = (Rejected e, w3) →
       let new := asked
                  ++ [GetInfo.Settled (GetInfo.c_waitForContract "SimpleMultiSig") true;
                      GetInfo.Invoked GetInfo.c_multiSigNonce;
                      GetInfo.Settled GetInfo.c_multiSigNonce false]
                  ++ logged in
       GetInfo.start H T (w, tr) = (Resolved [], (w3, tr ++ new))
       ∧ GetInfo.nonce_reads new = 1).
Proof.
  intros Hask Hwf Hn asked logged.
  assert (Estart : ∀ P : Res GetInfo.Err (list (option (list Signed)))
                         * (W * list (GetInfo.Event Signed)) → Prop,
            P (GetInfo.bind (GetInfo.getNonceWorkflow H a)
                 (fun _ => GetInfo.bind (GetInfo.executeLoop H T [] None)
                    (fun _ => GetInfo.bind (GetInfo.emit GetInfo.ConnectionClosed)
                       (fun _ => GetInfo.ret [])))
                 (w1, tr ++ [GetInfo.Invoked (GetInfo.c_askQuestions false);
                             GetInfo.Settled (GetInfo.c_askQuestions false) true])) →
            P (GetInfo.start H T (w, tr))).
  { intros P HP. unfold GetInfo.start.
    unfold GetInfo.bind at 1. unfold GetInfo.await at 1. simpl fst. rewrite Hask.
    rewrite Hwf. simpl String.eqb. cbv iota. exact HP. }
  split.
  - intros Hwait new. split; [|reflexivity].
    apply Estart. unfold GetInfo.getNonceWorkflow. rewrite Hn.
    unfold GetInfo.bind, GetInfo.ret, GetInfo.try_catch, GetInfo.await, GetInfo.emit,
      GetInfo.throw. simpl.
    rewrite Hwait. simpl. rewrite <- !app_assoc. reflexivity.
  - intros w2 Hwait Hread new. split; [|reflexivity].
    apply Estart. unfold GetInfo.getNonceWorkflow. rewrite Hn.
    unfold GetInfo.bind, GetInfo.ret, GetInfo.try_catch, GetInfo.await, GetInfo.emit,
      GetInfo.throw. simpl.
    rewrite Hwait. simpl. rewrite Hread. simpl.
    rewrite <- !app_assoc. reflexivity.
Qed.

Lemma nonce_read_failure_logged_witness :
  GetInfo.start (Signed := nat)
    (Demo.helpersNoContract (Demo.answers "get nonce" None)) 2 (0, [])
  = (Resolved [],
     (0, [] ++
         [GetInfo.Invoked (GetInfo.c_askQuestions false);
          GetInfo.Settled (GetInfo.c_askQuestions false) true;
          GetInfo.Invoked (GetInfo.c_waitForContract "SimpleMultiSig");
          GetInfo.Settled (GetInfo.c_waitForContract "SimpleMultiSig") false;
          GetInfo.LogError "Could not get nonce. Are you connected to the blockchain?"
            (GetInfo.HelperRejected "contract not deployed");
          GetInfo.ConnectionClosed]))
  ∧ GetInfo.start (Signed := nat)
      (Demo.helpers (Demo.answers "get nonce" None) None (fun _ => true)) 2 (0, [])
    = (Resolved [],
       (0, [] ++
           [GetInfo.Invoked (GetInfo.c_askQuestions false);
            GetInfo.Settled (GetInfo.c_askQuestions false) true;
            GetInfo.Invoked (GetInfo.c_waitForContract "SimpleMultiSig");
            GetInfo.Settled (GetInfo.c_waitForContract "SimpleMultiSig") true;
            GetInfo.Invoked GetInfo.c_multiSigNonce;
            GetInfo.Settled GetInfo.c_multiSigNonce false;
            GetInfo.LogError "Could not get nonce. Are you connected to the blockchain?"
              (GetInfo.HelperRejected "connection not open");
            GetInfo.ConnectionClosed])).
Proof.
  split.
  - pose proof (nonce_read_failure_logged (Signed := nat)
                  (Demo.helpersNoContract (Demo.answers "get nonce" None)) 2
                  (Demo.answers "get nonce" None) 0 0 0
                  (GetInfo.HelperRejected "contract not deployed") []
                  eq_refl eq_refl eq_refl) as Hlogged.
    cbv zeta in Hlogged. destruct Hlogged as [Hwait _].
    apply (proj1 (Hwait eq_refl)).
  - pose proof (nonce_read_failure_logged (Signed := nat)
                  (Demo.helpers (Demo.answers "get nonce" None) None (fun _ => true)) 2
                  (Demo.answers "get nonce" None) 0 0 0
                  (GetInfo.HelperRejected "connection not open") []
                  eq_refl eq_refl eq_refl) as Hlogged.
    cbv zeta in Hlogged. destruct Hlogged as [_ Hread].
    apply (proj1 (Hread 0 eq_refl eq_refl)).
Defined.

(** C9 as stated does not hold: with the node unreachable, [start] does not
    fail; it resolves. *)
Lemma nonce_read_failure_not_surfaced :
  ¬ (∀ (H : GetInfo.Helpers nat nat) (T : Z) (a : GetInfo.Answers) (w w1 w2 w3 : nat)
       (e : GetInfo.Err),
       GetInfo.askQuestions H false w = (Resolved a, w1) →
       GetInfo.workflow a = "get nonce" →
       GetInfo.falsy (GetInfo.nonce a) = true →
       GetInfo.waitForContract H "SimpleMultiSig" w1 = (Resolved tt, w2) →
       GetInfo.multiSigNonce H w2 = (Rejected e, w3) →
       ∃ e', fst (GetInfo.start H T (w, [])) = Rejected e').
Proof.
  intros Hall.
  destruct (Hall (Demo.helpers (Demo.answers "get nonce" None) None (fun _ => true)) 2%Z
              (Demo.answers "get nonce" None) 0 0 0 0
              (GetInfo.HelperRejected "connection not open")
              eq_refl eq_refl eq_refl eq_refl eq_refl) as [e' He'].
  vm_compute in He'. discriminate.
Qed.

(** ** Signature merge *)
Section MergeFacts.
Import Merge.
Variable recover : MultiSigCall -> string -> option string.

#[local] Abbreviation mergeOne := (Merge.mergeOne recover).
#[local] Abbreviation merge := (Merge.merge recover).
#[local] Abbreviation valid := (Merge.valid recover).
#[local] Abbreviation latest := (Merge.latest recover).

Lemma merge_cons S p batch : merge S (p :: batch) = merge (mergeOne S p) batch.
Proof. reflexivity. Qed.


(** One step on the entry of a call. *)
Lemma mergeOne_lookup S p c :
  mergeOne S p !! c =
    match recover (multiSigCallRef p) (signatureBytes p), S !! multiSigCallRef p with
    | Some signer, Some held =>
        if decide (multiSigCallRef p = c)
        then Some (<[signer := signatureBytes p]> held)
        else S !! c
    | _, _ => S !! c
    end.
Proof.
  unfold Merge.mergeOne, verify.
  destruct (recover _ _) as [signer|]; [|reflexivity].
  destruct (S !! multiSigCallRef p) as [held|] eqn:E; [|reflexivity].
  rewrite lookup_insert. destruct (decide (multiSigCallRef p = c)); reflexivity.
Qed.

Lemma mergeOne_known S p c : is_Some (mergeOne S p !! c) ↔ is_Some (S !! c).
Proof.
  rewrite mergeOne_lookup.
  destruct (recover _ _) as [signer|]; [|reflexivity].
  destruct (S !! multiSigCallRef p) as [held|] eqn:E; [|reflexivity].
  destruct (decide (multiSigCallRef p = c)) as [<-|]; [|reflexivity].
  rewrite E. split; eauto.
Qed.

Lemma merge_known batch : ∀ S c, is_Some (merge S batch !! c) ↔ is_Some (S !! c).
Proof.
  induction batch as [|p rest IH]; intros S c; [reflexivity|].
  rewrite merge_cons, IH. apply mergeOne_known.
Qed.

Lemma valid_mergeOne S p q : valid (mergeOne S p) q = valid S q.
Proof.
  unfold Merge.valid. destruct (recover (multiSigCallRef q) _); [|reflexivity].
  pose proof (mergeOne_known S p (multiSigCallRef q)) as Hk.
  destruct (mergeOne S p !! multiSigCallRef q), (S !! multiSigCallRef q);
    try reflexivity; exfalso.
  - destruct Hk as [Hk _]. destruct Hk; eauto; discriminate.
  - destruct Hk as [_ Hk]. destruct Hk; eauto; discriminate.
Qed.

Lemma mergeOne_invalid S p : valid S p = false → mergeOne S p = S.
Proof.
  unfold Merge.valid, Merge.mergeOne, verify.
  destruct (recover _ _); [|reflexivity].
  destruct (S !! _); [discriminate|reflexivity].
Qed.

(** The entry of a known call after a batch: the bytes the batch leaves
    for a signer, or else what was held before. *)
Lemma merge_entry batch : ∀ S c held,
  S !! c = Some held →
  ∃ held', merge S batch !! c = Some held'
           ∧ ∀ a, held' !! a = match latest c a batch with
                               | Some b => Some b
                               | None => held !! a
                               end.
Proof.
  induction batch as [|p rest IH]; intros S c held Hc.
  - exists held. split; [assumption|reflexivity].
  - rewrite merge_cons.
    pose proof (mergeOne_lookup S p c) as Hstep. rewrite Hc in Hstep.
    destruct (recover (multiSigCallRef p) (signatureBytes p)) as [signer|] eqn:Er.
    + destruct (S !! multiSigCallRef p) as [heldp|] eqn:Ep.
      * destruct (decide (multiSigCallRef p = c)) as [Epc|Hne].
        -- subst c. rewrite Hc in Ep. inversion Ep; subst heldp.
           destruct (IH _ _ _ Hstep) as (held' & E' & Hl).
           exists held'. split; [assumption|]. intros a. rewrite Hl. simpl.
           destruct (latest (multiSigCallRef p) a rest); [reflexivity|].
           rewrite Er. destruct (decide (signer = a)) as [->|Hsa].
           ++ rewrite lookup_insert_eq. rewrite decide_True by auto. reflexivity.
           ++ rewrite lookup_insert_ne by assumption.
              rewrite decide_False; [reflexivity|]. intros [_ E]. congruence.
        -- destruct (IH _ _ _ Hstep) as (held' & E' & Hl).
           exists held'. split; [assumption|]. intros a. rewrite Hl. simpl.
           destruct (latest c a rest); [reflexivity|].
           rewrite decide_False; [reflexivity|]. intros [E _]. congruence.
      * destruct (IH _ _ _ Hstep) as (held' & E' & Hl).
        exists held'. split; [assumption|]. intros a. rewrite Hl. simpl.
        destruct (latest c a rest); [reflexivity|].
        rewrite decide_False; [reflexivity|]. intros [E _]. congruence.
    + destruct (IH _ _ _ Hstep) as (held' & E' & Hl).
      exists held'. split; [assumption|]. intros a. rewrite Hl. simpl.
      destruct (latest c a rest); [reflexivity|].
      rewrite decide_False; [reflexivity|]. intros [E1 E2]. subst c. congruence.
Qed.

Lemma latest_Some c a batch b :
  latest c a batch = Some b →
  ∃ p, p ∈ batch ∧ multiSigCallRef p = c
       ∧ recover c (signatureBytes p) = Some a ∧ signatureBytes p = b.
Proof.
  induction batch as [|p rest IH]; [discriminate|]. simpl.
  destruct (latest c a rest) as [b'|].
  - intros E. inversion E; subst. destruct (IH eq_refl) as (q & Hq & ?).
    exists q. split; [right; assumption|assumption].
  - destruct (decide _) as [[E1 E2]|]; [|discriminate].
    intros E. inversion E; subst. exists p. split; [left|auto].
Qed.

(** Two stores are equal when they know the same calls and hold the same
    bytes for every signer of every call. *)
Lemma store_ext (S1 S2 : SignatureSet) :
  (∀ c, S1 !! c = None ↔ S2 !! c = None) →
  (∀ c h1 h2 a, S1 !! c = Some h1 → S2 !! c = Some h2 → h1 !! a = h2 !! a) →
  S1 = S2.
Proof.
  intros Hk He. apply map_eq. intros c.
  destruct (S1 !! c) as [h1|] eqn:E1, (S2 !! c) as [h2|] eqn:E2.
  - f_equal. apply map_eq. intros a. eauto.
  - apply Hk in E2. congruence.
  - apply Hk in E1. congruence.
  - reflexivity.
Qed.

Lemma merge_unknown batch S c : merge S batch !! c = None ↔ S !! c = None.
Proof.
  rewrite !eq_None_not_Some. rewrite merge_known. reflexivity.
Qed.

(** Merging twice what was merged once changes nothing. *)
Lemma merge_idempotent S batch : merge (merge S batch) batch = merge S batch.
Proof.
  apply store_ext.
  - intros c. apply merge_unknown.
  - intros c h2 h1 a E2 E1.
    destruct (S !! c) as [held|] eqn:Ec;
      [|rewrite (proj2 (merge_unknown batch S c) Ec) in E1; discriminate].
    destruct (merge_entry batch S c held Ec) as (h1' & E1' & Hl1).
    rewrite E1 in E1'. inversion E1'; subst h1'.
    destruct (merge_entry batch _ c h1 E1) as (h2' & E2' & Hl2).
    rewrite E2 in E2'. inversion E2'; subst h2'.
    rewrite Hl2, Hl1. destruct (latest c a batch); reflexivity.
Qed.

(** The entries after two batches, in either order. *)
Lemma merge_two_entries S b1 b2 c held h :
  S !! c = Some held → merge (merge S b1) b2 !! c = Some h →
  ∀ a, h !! a = match latest c a b2 with
                | Some b => Some b
                | None => match latest c a b1 with
                          | Some b => Some b
                          | None => held !! a
                          end
                end.
Proof.
  intros Ec Eh a.
  destruct (merge_entry b1 S c held Ec) as (h1 & E1 & Hl1).
  destruct (merge_entry b2 _ c h1 E1) as (h2 & E2 & Hl2).
  rewrite Eh in E2. inversion E2; subst h2.
  rewrite Hl2, Hl1. reflexivity.
Qed.

Lemma merge_commutes_agree S b1 b2 :
  agree recover b1 b2 → merge (merge S b1) b2 = merge (merge S b2) b1.
Proof.
  intros Hag. apply store_ext.
  - intros c. rewrite !merge_unknown. reflexivity.
  - intros c h12 h21 a E12 E21.
    destruct (S !! c) as [held|] eqn:Ec;
      [|rewrite (proj2 (merge_unknown b2 _ c) (proj2 (merge_unknown b1 S c) Ec)) in E12;
        discriminate].
    rewrite (merge_two_entries S b1 b2 c held h12 Ec E12 a).
    rewrite (merge_two_entries S b2 b1 c held h21 Ec E21 a).
    destruct (latest c a b1) as [x|] eqn:L1, (latest c a b2) as [y|] eqn:L2;
      try reflexivity.
    apply latest_Some in L1. destruct L1 as (p & Hp & Epc & Erp & Ebp).
    apply latest_Some in L2. destruct L2 as (q & Hq & Eqc & Erq & Ebq).
    f_equal. subst x y. symmetry.
    apply (Hag p q a Hp Hq); congruence.
Qed.

Lemma merge_commutes_signers S b1 b2 c :
  signers (merge (merge S b1) b2) c = signers (merge (merge S b2) b1) c.
Proof.
  unfold signers.
  destruct (S !! c) as [held|] eqn:Ec.
  - destruct (merge (merge S b1) b2 !! c) as [h12|] eqn:E12;
      [|do 2 apply merge_unknown in E12; congruence].
    destruct (merge (merge S b2) b1 !! c) as [h21|] eqn:E21;
      [|do 2 apply merge_unknown in E21; congruence].
    simpl. apply set_eq. intros a. rewrite !elem_of_dom.
    rewrite (merge_two_entries S b1 b2 c held h12 Ec E12 a).
    rewrite (merge_two_entries S b2 b1 c held h21 Ec E21 a).
    destruct (latest c a b1), (latest c a b2), (held !! a);
      split; intros Hs; eauto; destruct Hs; discriminate.
  - assert (E12 : merge (merge S b1) b2 !! c = None)
      by (apply merge_unknown, merge_unknown; assumption).
    assert (E21 : merge (merge S b2) b1 !! c = None)
      by (apply merge_unknown, merge_unknown; assumption).
    rewrite E12, E21. reflexivity.
Qed.

Lemma count_signers (S : SignatureSet) c : count S c = size (signers S c).
Proof. unfold count, signers. symmetry. apply size_dom. Qed.

(** A repeat from a signer already held does not change the count. *)
Lemma repeat_keeps_count S p signer :
  recover (multiSigCallRef p) (signatureBytes p) = Some signer →
  signer ∈ signers S (multiSigCallRef p) →
  count (mergeOne S p) (multiSigCallRef p) = count S (multiSigCallRef p).
Proof.
  intros Er Hin. rewrite !count_signers. f_equal.
  unfold signers in *. rewrite mergeOne_lookup, Er.
  destruct (S !! multiSigCallRef p) as [held|] eqn:E; [|reflexivity].
  rewrite decide_True by reflexivity. simpl in *.
  rewrite dom_insert_L. apply subseteq_union_1_L, singleton_subseteq_l. exact Hin.
Qed.

(** Dropping the offending signatures of a batch beforehand gives the same
    store. *)
Lemma merge_filter_valid batch : ∀ S S0,
  (∀ q, valid S q = valid S0 q) →
  merge S batch = merge S (List.filter (valid S0) batch).
Proof.
  induction batch as [|p rest IH]; intros S S0 Hv; [reflexivity|].
  simpl List.filter. rewrite merge_cons.
  destruct (valid S0 p) eqn:Ep.
  - rewrite merge_cons. apply IH. intros q. rewrite valid_mergeOne. apply Hv.
  - rewrite mergeOne_invalid by (rewrite Hv; assumption). apply IH. assumption.
Qed.

Lemma dropped_offenders batch : ∀ S S0,
  (∀ q, valid S q = valid S0 q) →
  fst <$> dropped recover S batch = List.filter (fun p => negb (valid S0 p)) batch.
Proof.
  induction batch as [|p rest IH]; intros S S0 Hv; [reflexivity|].
  simpl. rewrite <- Hv. unfold verify, Merge.valid.
  destruct (recover _ _) as [signer|] eqn:Er.
  - destruct (S !! multiSigCallRef p) as [held|] eqn:Ep; simpl.
    + apply IH. intros q. rewrite valid_mergeOne. apply Hv.
    + f_equal. apply IH. assumption.
  - simpl. f_equal. apply IH. assumption.
Qed.

(** A valid signature of the batch has its signer in the merged store. *)
Lemma merge_inserts S batch p :
  p ∈ batch → valid S p = true →
  ∃ signer, recover (multiSigCallRef p) (signatureBytes p) = Some signer
            ∧ signer ∈ signers (merge S batch) (multiSigCallRef p).
Proof.
  intros Hin Hv. unfold Merge.valid in Hv.
  destruct (recover (multiSigCallRef p) (signatureBytes p)) as [signer|] eqn:Er;
    [|discriminate].
  destruct (S !! multiSigCallRef p) as [held|] eqn:Ec; [|discriminate].
  exists signer. split; [reflexivity|].
  destruct (merge_entry batch S _ held Ec) as (h & Eh & Hl).
  unfold signers. rewrite Eh. simpl. apply elem_of_dom. rewrite Hl.
  destruct (latest (multiSigCallRef p) signer batch) eqn:L; [eauto|].
  exfalso. clear -Hin Er L.
  induction batch as [|q rest IH]; [inversion Hin|].
  simpl in L. destruct (latest (multiSigCallRef p) signer rest); [discriminate|].
  destruct (decide _) as [|Hn]; [discriminate|].
  apply elem_of_cons in Hin. destruct Hin as [->|Hin]; [|auto].
  apply Hn. auto.
Qed.









End MergeFacts.




(** C6, as the model has it. Merging a batch twice gives what merging it
    once gives; merging two batches in either order gives the same signers
    and the same count for every call, and the same store altogether when the
    batches do not bring different bytes for one signer of one call; a repeat
    from a signer already held leaves the count of the call unchanged. *)
Theorem merge_idempotent_commutes_on_signers
    (recover : Merge.MultiSigCall -> string -> option string)
    (S : Merge.SignatureSet) (b1 b2 : list Merge.PartialSignature) :
  Merge.merge recover (Merge.merge recover S b1) b1 = Merge.merge recover S b1
  ∧ (∀ c, Merge.signers (Merge.merge recover (Merge.merge recover S b1) b2) c
          = Merge.signers (Merge.merge recover (Merge.merge recover S b2) b1) c
          ∧ Merge.count (Merge.merge recover (Merge.merge recover S b1) b2) c
            = Merge.count (Merge.merge recover (Merge.merge recover S b2) b1) c)
  ∧ (Merge.agree recover b1 b2 →
     Merge.merge recover (Merge.merge recover S b1) b2
     = Merge.merge recover (Merge.merge recover S b2) b1)
  ∧ (∀ p signer,
       recover (Merge.multiSigCallRef p) (Merge.signatureBytes p) = Some signer →
       signer ∈ Merge.signers S (Merge.multiSigCallRef p) →
       Merge.count (Merge.mergeOne recover S p) (Merge.multiSigCallRef p)
       = Merge.count S (Merge.multiSigCallRef p)).
Proof.
  split; [apply merge_idempotent|]. split; [|split].
  - intros c. split; [apply merge_commutes_signers|].
    rewrite !count_signers. f_equal. apply merge_commutes_signers.
  - apply merge_commutes_agree.
  - intros p signer. apply repeat_keeps_count.
Qed.

Lemma merge_idempotent_commutes_on_signers_witness :
  Merge.merge Merge.recover_first
    (Merge.merge Merge.recover_first Demo.store0 [Demo.signedBy "a1"; Demo.signedBy "b1"])
    [Demo.signedBy "b1"; Demo.signedBy "c1"]
  = Merge.merge Merge.recover_first
      (Merge.merge Merge.recover_first Demo.store0 [Demo.signedBy "b1"; Demo.signedBy "c1"])
      [Demo.signedBy "a1"; Demo.signedBy "b1"].
Proof.
  apply (proj1 (proj2 (proj2
    (merge_idempotent_commutes_on_signers Merge.recover_first Demo.store0
       [Demo.signedBy "a1"; Demo.signedBy "b1"] [Demo.signedBy "b1"; Demo.signedBy "c1"])))).
  intros p q signer Hp Hq Ec Erp Erq.
  apply list_elem_of_In in Hp, Hq. simpl in Hp, Hq.
  destruct Hp as [<-|[<-|[]]], Hq as [<-|[<-|[]]];
    vm_compute in Erp, Erq; try reflexivity; congruence.
Defined.

(** C6 as stated does not hold in general: two batches that bring different
    bytes for the same signer of the same call leave different stores,
    depending on which is merged last. *)
Lemma merge_order_shows :
  ¬ (∀ (recover : Merge.MultiSigCall -> string -> option string)
       (S : Merge.SignatureSet) (b1 b2 : list Merge.PartialSignature),
       Merge.merge recover (Merge.merge recover S b1) b2
       = Merge.merge recover (Merge.merge recover S b2) b1).
Proof.
  intros Hall.
  specialize (Hall Merge.recover_first Demo.store0
                [Demo.signedBy "a1"] [Demo.signedBy "a2"]).
  apply (f_equal (fun S : Merge.SignatureSet => S !! Demo.pauseShield ≫= (.!! "a"))) in Hall.
  vm_compute in Hall. discriminate.
Qed.

(* ===================================================================== *)
(** * Further properties of the code *)
(* ===================================================================== *)

(** ** [submitTransaction] over a session *)
Section SessionFacts.
Import Nf3 Nf3Session.
Variable web3 : Web3.

Lemma submitTransaction_cached data to fee this c :
  nonce this ≠ 0%N →
  ∃ send, submitTransaction web3 data to fee this c
          = (Resolved send, set_nonce (JsNumber.succ (nonce this)) this, c)
          ∧ tx_nonce (sent_tx send) = nonce this.
Proof.
  intros Hn.
  destruct (submitTransaction_resolved web3 data to fee this c _ _ _
              (criticalSection_cached web3 _ data _ this c Hn)) as (send & E & Hs).
  exists send. rewrite E, Hs. auto.
Qed.

Lemma submitEach_cached calls : ∀ this c,
  nonce this ≠ 0%N →
  (Z.of_N (nonce this) + Z.of_nat (List.length calls) ≤ JsNumber.limit)%Z →
  ∃ outcomes this',
    submitEach web3 calls this c = (outcomes, this', c)
    ∧ sent_nonce <$> outcomes
      = (fun i => Some (nonce this + N.of_nat i)%N) <$> seq 0 (List.length calls)
    ∧ nonce this' = (nonce this + N.of_nat (List.length calls))%N.
Proof.
  induction calls as [|call rest IH]; intros this c Hn Hlim.
  - exists [], this. simpl. repeat split. lia.
  - simpl submitEach.
    destruct (submitTransaction_cached (call_data call) (Some (call_to call))
                (Some (call_fee call)) this c Hn) as (send & E & Hs).
    rewrite E. simpl List.length in Hlim.
    assert (Hsucc : JsNumber.succ (nonce this) = (nonce this + 1)%N)
      by (apply succ_exact; lia).
    destruct (IH (set_nonce (JsNumber.succ (nonce this)) this) c)
      as (outcomes & this' & E' & Hns & Hfin).
    { simpl. rewrite Hsucc. lia. }
    { simpl. rewrite Hsucc. lia. }
    rewrite E'. exists (Resolved send :: outcomes), this'.
    split; [reflexivity|]. split.
    + cbn [List.length seq]. rewrite !fmap_cons. cbn [sent_nonce].
      rewrite Hs, N.add_0_r. f_equal. rewrite Hns.
      rewrite <- fmap_S_seq, <- list_fmap_compose.
      apply list_fmap_ext. intros i x _. simpl. rewrite Hsucc. f_equal. lia.
    + rewrite Hfin. simpl. rewrite Hsucc. lia.
Qed.
End SessionFacts.

(** X1. Once a nonce is cached, a run of [k] transactions sent one after
    the other carries the nonces [n, n+1, ..., n+k-1], all of them are sent,
    the node is never asked, and the counter ends at [n+k]; this as long as
    [n+k] does not go beyond [2^53]. *)
Theorem session_uses_consecutive_nonces (web3 : Nf3.Web3) (calls : list Nf3.Call)
    (this : Nf3.t) (c : Nf3.Chain) :
  Nf3.nonce this ≠ 0%N →
  (Z.of_N (Nf3.nonce this) + Z.of_nat (List.length calls) ≤ JsNumber.limit)%Z →
  ∃ outcomes this',
    Nf3Session.submitEach web3 calls this c = (outcomes, this', c)
    ∧ Nf3Session.sent_nonce <$> outcomes
      = (fun i => Some (Nf3.nonce this + N.of_nat i)%N) <$> seq 0 (List.length calls)
    ∧ Nf3.nonce this' = (Nf3.nonce this + N.of_nat (List.length calls))%N.
Proof. apply submitEach_cached. Qed.

Lemma session_uses_consecutive_nonces_witness :
  ∃ outcomes this',
    Nf3Session.submitEach Demo.web3_down Demo.calls Demo.nf3_used [] = (outcomes, this', [])
    ∧ Nf3Session.sent_nonce <$> outcomes
      = (fun i => Some (Nf3.nonce Demo.nf3_used + N.of_nat i)%N)
          <$> seq 0 (List.length Demo.calls)
    ∧ Nf3.nonce this' = (Nf3.nonce Demo.nf3_used + N.of_nat (List.length Demo.calls))%N.
Proof.
  apply (session_uses_consecutive_nonces Demo.web3_down Demo.calls Demo.nf3_used []).
  - vm_compute. discriminate.
  - vm_compute. discriminate.
Defined.

(** X2. On a fresh instance only the first transaction of a session asks
    the node (twice); with the answers [n] and anything, a run of [k >= 1]
    transactions carries [n, ..., n+k-1] and the node has been asked exactly
    those two times; this as long as [n+k] does not go beyond [2^53]. *)
Theorem session_asks_node_once (web3 : Nf3.Web3) (call : Nf3.Call) (calls : list Nf3.Call)
    (this : Nf3.t) (c : Nf3.Chain) (n n' : N) :
  Nf3.nonce this = 0%N →
  Nf3.txCount web3 (Nf3.ethereumAddress this) (List.length c) = Some n →
  Nf3.txCount web3 (Nf3.ethereumAddress this) (S (List.length c)) = Some n' →
  (Z.of_N n + Z.of_nat (S (List.length calls)) ≤ JsNumber.limit)%Z →
  ∃ outcomes this',
    Nf3Session.submitEach web3 (call :: calls) this c
    = (outcomes, this', c ++ [Nf3.ethereumAddress this; Nf3.ethereumAddress this])
    ∧ Nf3Session.sent_nonce <$> outcomes
      = (fun i => Some (n + N.of_nat i)%N) <$> seq 0 (S (List.length calls))
    ∧ Nf3.nonce this' = (n + N.of_nat (S (List.length calls)))%N.
Proof.
  intros H0 H1 H2 Hlim. simpl Nf3Session.submitEach.
  destruct (submitTransaction_resolved web3 (Nf3.call_data call) (Some (Nf3.call_to call))
              (Some (Nf3.call_fee call)) this c _ _ _
              (criticalSection_fresh web3 _ _ _ this c n n' H0 H1 H2)) as (send & E & Hs).
  rewrite E.
  assert (Hsucc : JsNumber.succ n = (n + 1)%N) by (apply succ_exact; lia).
  destruct (submitEach_cached web3 calls (Nf3.set_nonce (JsNumber.succ n) this)
              (c ++ [Nf3.ethereumAddress this; Nf3.ethereumAddress this]))
    as (outcomes & this' & E' & Hns & Hfin).
  { simpl. rewrite Hsucc. lia. }
  { simpl. rewrite Hsucc. lia. }
  rewrite E'. exists (Resolved send :: outcomes), this'.
  split; [reflexivity|]. split.
  - cbn [seq]. rewrite !fmap_cons. cbn [Nf3Session.sent_nonce].
    rewrite Hs. cbn [Nf3.buildTx Nf3.tx_nonce Nf3.set_nonce Nf3.nonce].
    rewrite N.add_0_r. f_equal. rewrite Hns.
    cbn [Nf3.set_nonce Nf3.nonce].
    rewrite <- fmap_S_seq, <- list_fmap_compose.
    apply list_fmap_ext. intros i x _. simpl. rewrite Hsucc. f_equal. lia.
  - rewrite Hfin. simpl Nf3.nonce. rewrite Hsucc. lia.
Qed.

Lemma session_asks_node_once_witness :
  ∃ outcomes this',
    Nf3Session.submitEach Demo.web3 Demo.calls Demo.nf3_fresh []
    = (outcomes, this',
       [] ++ [Nf3.ethereumAddress Demo.nf3_fresh; Nf3.ethereumAddress Demo.nf3_fresh])
    ∧ Nf3Session.sent_nonce <$> outcomes = (fun i => Some (7 + N.of_nat i)%N) <$> seq 0 2
    ∧ Nf3.nonce this' = (7 + N.of_nat 2)%N.
Proof.
  apply (session_asks_node_once Demo.web3 (Nf3.mkCall "0xshield" "0xdeposit" 10)
           [Nf3.mkCall "0xstate" "0xpropose" 1] Demo.nf3_fresh [] 7%N 9%N);
    try reflexivity.
  vm_compute. discriminate.
Defined.

(** X3. When the node cannot answer the first count request, the call is
    rejected, nothing is sent, and the instance is exactly as before (the
    counter still 0), so the next call asks the node again. *)
Theorem unreadable_count_changes_nothing (web3 : Nf3.Web3) (data : string)
    (to : option string) (fee : option Z) (this : Nf3.t) (c : Nf3.Chain) :
  Nf3.nonce this = 0%N →
  Nf3.txCount web3 (Nf3.ethereumAddress this) (List.length c) = None →
  Nf3.submitTransaction web3 data to fee this c
  = (Rejected Nf3.TransactionCountUnavailable, this, c ++ [Nf3.ethereumAddress this]).
Proof.
  intros H0 H1. unfold Nf3.submitTransaction.
  rewrite (criticalSection_unreadable web3 _ data _ this c H0 H1). reflexivity.
Qed.

Lemma unreadable_count_changes_nothing_witness :
  Nf3.submitTransaction Demo.web3_down "0xdata" None None Demo.nf3_fresh []
  = (Rejected Nf3.TransactionCountUnavailable, Demo.nf3_fresh,
     [] ++ [Nf3.ethereumAddress Demo.nf3_fresh]).
Proof.
  apply (unreadable_count_changes_nothing Demo.web3_down "0xdata" None None
           Demo.nf3_fresh []); reflexivity.
Defined.

(** X4. When the first count request is answered with [n] but the second
    one (made only for the console) fails, the call is rejected and nothing
    is sent, yet the counter keeps [n]: it was stored and not incremented.
    With [n] not 0 the next call sends with nonce [n] without asking the
    node. *)
Theorem failed_logging_read_keeps_nonce (web3 : Nf3.Web3) (data data2 : string)
    (to to2 : option string) (fee fee2 : option Z) (this : Nf3.t) (c : Nf3.Chain) (n : N) :
  Nf3.nonce this = 0%N →
  Nf3.txCount web3 (Nf3.ethereumAddress this) (List.length c) = Some n →
  Nf3.txCount web3 (Nf3.ethereumAddress this) (S (List.length c)) = None →
  let c' := c ++ [Nf3.ethereumAddress this; Nf3.ethereumAddress this] in
  Nf3.submitTransaction web3 data to fee this c
  = (Rejected Nf3.TransactionCountUnavailable, Nf3.set_nonce n this, c')
  ∧ (n ≠ 0%N →
     ∃ send, Nf3.submitTransaction web3 data2 to2 fee2 (Nf3.set_nonce n this) c'
             = (Resolved send, Nf3.set_nonce (JsNumber.succ n) this, c')
             ∧ Nf3.tx_nonce (Nf3.sent_tx send) = n).
Proof.
  intros H0 H1 H2 c'. split.
  - unfold Nf3.submitTransaction, Nf3.criticalSection, Nf3.getTransactionCount.
    rewrite H0. simpl N.eqb. cbv iota. rewrite H1. simpl.
    rewrite length_app. simpl. rewrite Nat.add_1_r, H2.
    unfold c'. rewrite <- app_assoc. reflexivity.
  - intros Hn.
    destruct (submitTransaction_cached web3 data2 to2 fee2 (Nf3.set_nonce n this) c')
      as (send & E & Hs); [exact Hn|].
    exists send. split; [exact E | exact Hs].
Qed.

(** A node that answers the first request of a session with 7 and no other. *)
Lemma failed_logging_read_keeps_nonce_witness :
  let web3 := Nf3.mkWeb3 (fun k => k) (fun _ i => match i with O => Some 7%N | _ => None end) in
  Nf3.submitTransaction web3 "0xdata" None None Demo.nf3_fresh []
  = (Rejected Nf3.TransactionCountUnavailable, Nf3.set_nonce 7 Demo.nf3_fresh,
     [] ++ [Nf3.ethereumAddress Demo.nf3_fresh; Nf3.ethereumAddress Demo.nf3_fresh]).
Proof.
  intros web3.
  apply (proj1 (failed_logging_read_keeps_nonce web3 "0xdata" "0xdata" None None None None
                  Demo.nf3_fresh [] 7%N eq_refl eq_refl eq_refl)).
Defined.

(** X5. After [setEthereumSigningKey(key)]: with a non-empty key the
    instance's address is the address of the key and whatever is sent next is
    signed with that key; with the empty key the address is the un-awaited
    promise of the node's accounts and whatever is sent next goes out
    unsigned, carrying that promise as [from]. *)
Theorem signing_follows_key (web3 : Nf3.Web3) (key data : string)
    (to : option string) (fee : option Z) (this : Nf3.t) (c : Nf3.Chain)
    (send : Nf3.Send) (this2 : Nf3.t) (c2 : Nf3.Chain) :
  Nf3.submitTransaction web3 data to fee (Nf3.setEthereumSigningKey web3 key this) c
  = (Resolved send, this2, c2) →
  (key = "" ∧ ∃ tx, send = Nf3.SendUnsigned tx ∧ Nf3.tx_from tx = Nf3.UnlockedAccountPromise)
  ∨ (key ≠ "" ∧ ∃ tx, send = Nf3.SendSigned tx key
                      ∧ Nf3.tx_from tx = Nf3.KeyAddress (Nf3.privateKeyToAddress web3 key)).
Proof.
  unfold Nf3.submitTransaction, Nf3.criticalSection, Nf3.getTransactionCount,
    Nf3.setEthereumSigningKey, Nf3.getAccounts.
  simpl N.eqb. cbv iota. cbn [Nf3.ethereumAddress Nf3.set_nonce Nf3.ethereumSigningKey].
  destruct (Nf3.txCount web3 _ (List.length c)) as [n|]; [|discriminate].
  destruct (Nf3.txCount web3 _ (List.length (c ++ _))) as [n'|]; [|discriminate].
  destruct key as [|a key]; simpl; intros E; inversion E; subst.
  - left. split; [reflexivity|]. eexists. split; reflexivity.
  - right. split; [discriminate|]. eexists. split; reflexivity.
Qed.

Lemma signing_follows_key_witness :
  ("" = "" ∧ ∃ tx, Nf3.SendUnsigned
                     (Nf3.buildTx (Nf3.set_nonce 7 (Nf3.setEthereumSigningKey Demo.web3 "" Demo.nf3_used))
                        "0xshield" "0xdata" 10) = Nf3.SendUnsigned tx
                   ∧ Nf3.tx_from tx = Nf3.UnlockedAccountPromise)
  ∨ ("" ≠ "" ∧ ∃ tx, Nf3.SendUnsigned
                       (Nf3.buildTx (Nf3.set_nonce 7 (Nf3.setEthereumSigningKey Demo.web3 "" Demo.nf3_used))
                          "0xshield" "0xdata" 10) = Nf3.SendSigned tx ""
                     ∧ Nf3.tx_from tx = Nf3.KeyAddress (Nf3.privateKeyToAddress Demo.web3 "")).
Proof.
  apply (signing_follows_key Demo.web3 "" "0xdata" None None Demo.nf3_used []
           _ (Nf3.set_nonce 8 (Nf3.setEthereumSigningKey Demo.web3 "" Demo.nf3_used))
           [Nf3.UnlockedAccountPromise; Nf3.UnlockedAccountPromise]).
  reflexivity.
Defined.

(** ** More on interleaved calls *)
Section MutexFacts.
Import Nf3 Nf3Session.
Variable web3 : Web3.

Lemma Locked_spawn this0 c0 calls : Locked (spawn this0 c0 calls).
Proof.
  split; simpl.
  - intros i Hh. discriminate.
  - intros i c ph Hl Hin. rewrite list_lookup_fmap in Hl.
    destruct (calls !! i); simpl in Hl; [|discriminate].
    inversion Hl; subst. discriminate.
Qed.

(** Task [i] leaves or enters the callback; the others keep their phase. *)
Lemma Locked_update s i old c ph h ch th :
  Locked s → tasks s !! i = Some old →
  (holder s = None ∨ holder s = Some i) →
  h = (if inside ph then Some i else None) →
  Locked (mkSys th ch h (<[i := (c, ph)]> (tasks s))).
Proof.
  intros [L1 L2] Hold Hh ->. split; simpl.
  - intros k Hk. destruct (inside ph) eqn:Hin; [|discriminate].
    inversion Hk; subst k. exists c, ph. split; [|assumption].
    apply list_lookup_insert_eq. eapply lookup_lt_Some; eauto.
  - intros k ck phk Hk Hin.
    destruct (lookup_updated _ _ _ _ _ _ Hold Hk) as [[-> E]|[Hne Hk']].
    + inversion E; subst. rewrite Hin. reflexivity.
    + specialize (L2 _ _ _ Hk' Hin). destruct Hh; congruence.
Qed.

Lemma Locked_resume s s' i : Locked s → resume web3 i s = Some s' → Locked s'.
Proof.
  intros HL Hs. unfold resume in Hs.
  destruct (tasks s !! i) as [[c ph]|] eqn:Hi; [|discriminate].
  destruct ph as [|asked|asked| |]; try discriminate.
  - destruct (holder s) eqn:Hh; [discriminate|].
    destruct (N.eqb (nonce (this s)) 0); inversion Hs; subst; clear Hs;
      eapply Locked_update; eauto.
  - pose proof (locked_inside s HL _ _ _ Hi eq_refl) as Hh.
    unfold getTransactionCount in Hs.
    destruct (txCount web3 _ _); inversion Hs; subst; clear Hs;
      eapply Locked_update; eauto.
  - pose proof (locked_inside s HL _ _ _ Hi eq_refl) as Hh.
    unfold getTransactionCount in Hs.
    destruct (txCount web3 _ _); inversion Hs; subst; clear Hs;
      eapply Locked_update; eauto.
Qed.

(** A change of key touches neither the mutex nor the tasks. *)
Lemma Locked_step s s' turn : Locked s → step web3 turn s = Some s' → Locked s'.
Proof.
  intros HL Hs. destruct turn as [i|key]; simpl in Hs.
  - eapply Locked_resume; eauto.
  - inversion Hs; subst. destruct HL as [L1 L2]. split; simpl; assumption.
Qed.

Lemma Locked_run sched : ∀ s, Locked s → Locked (run web3 sched s).
Proof.
  induction sched as [|turn rest IH]; intros s HL; simpl; [assumption|].
  apply IH. destruct (step web3 turn s) as [s'|] eqn:E; simpl; [|assumption].
  eapply Locked_step; eauto.
Qed.

(** A task that is inside the callback, or queued while the mutex is free,
    can be resumed. *)
Lemma resume_enabled s i c ph :
  tasks s !! i = Some (c, ph) →
  inside ph = true ∨ (ph = Queued ∧ holder s = None) →
  ∃ s', resume web3 i s = Some s'.
Proof.
  intros Hi Hcase. unfold resume. rewrite Hi.
  destruct Hcase as [Hin|[-> Hh]].
  - destruct ph; try discriminate; unfold getTransactionCount;
      destruct (txCount web3 _ _); eauto.
  - rewrite Hh. destruct (N.eqb _ 0); eauto.
Qed.

Lemma Warm_spawn this0 c0 calls : nonce this0 ≠ 0%N → Warm (spawn this0 c0 calls).
Proof.
  intros Hn. split.
  - exact Hn.
  - reflexivity.
  - intros i c ph Hl. left. eapply spawn_queued. exact Hl.
Qed.

Lemma reserved_updated s i old c tx k th ch h :
  tasks s !! i = Some old →
  reserved (mkSys th ch h (<[i := (c, Built tx)]> (tasks s))) k
  = if decide (k = i) then Some (tx_nonce tx) else reserved s k.
Proof.
  intros Hold. unfold reserved. simpl.
  destruct (decide (k = i)) as [->|Hne].
  - rewrite list_lookup_insert_eq by (eapply lookup_lt_Some; eauto). reflexivity.
  - rewrite list_lookup_insert_ne by congruence. reflexivity.
Qed.

(** With a cached counter a turn is one whole callback: the task takes the
    counter, which is incremented, and the node is not asked. *)
Lemma Warm_resume s s' i :
  Warm s → resume web3 i s = Some s' →
  Warm s' ∧ chain s' = chain s
  ∧ nonce (this s') = JsNumber.succ (nonce (this s))
  ∧ List.length (tasks s') = List.length (tasks s)
  ∧ reserved s i = None ∧ reserved s' i = Some (nonce (this s))
  ∧ ∀ k, k ≠ i → reserved s' k = reserved s k.
Proof.
  intros [W1 W2 W3] Hs. unfold resume in Hs.
  destruct (tasks s !! i) as [[c ph]|] eqn:Hi; [|discriminate].
  destruct (W3 _ _ _ Hi) as [->|[tx ->]]; [|discriminate].
  rewrite W2 in Hs.
  destruct (N.eqb_spec (nonce (this s)) 0) as [E0|Hne]; [contradiction|].
  inversion Hs; subst; clear Hs.
  assert (Hres : ∀ k, reserved
            (mkSys (set_nonce (JsNumber.succ (nonce (this s))) (this s)) (chain s) None
               (<[i := (c, Built (buildTx (this s) (call_to c) (call_data c) (call_fee c)))]>
                  (tasks s))) k
            = if decide (k = i) then Some (nonce (this s)) else reserved s k).
  { intros k. rewrite (reserved_updated s i _ c _ k _ _ _ Hi). reflexivity. }
  split; [split; simpl|].
  - apply succ_ne0.
  - reflexivity.
  - intros k ck phk Hk.
    destruct (lookup_updated _ _ _ _ _ _ Hi Hk) as [[-> E]|[Hnk Hk']].
    + inversion E; subst. right. eauto.
    + eauto.
  - split; [reflexivity|]. split; [reflexivity|].
    split; [simpl; apply length_insert|].
    split; [unfold reserved; rewrite Hi; reflexivity|].
    split.
    + rewrite Hres, decide_True by reflexivity. reflexivity.
    + intros k Hk. rewrite Hres, decide_False by assumption. reflexivity.
Qed.

Lemma Warm_run sched : ∀ s,
  Warm s →
  Warm (run web3 (Resume <$> sched) s) ∧ chain (run web3 (Resume <$> sched) s) = chain s
  ∧ ∀ k m, reserved s k = Some m → reserved (run web3 (Resume <$> sched) s) k = Some m.
Proof.
  induction sched as [|i rest IH]; intros s HW; simpl.
  - auto.
  - destruct (resume web3 i s) as [s'|] eqn:E; simpl; [|apply IH; assumption].
    destruct (Warm_resume s s' i HW E) as (HW' & Hc & _ & _ & Hi0 & Hi1 & Hother).
    destruct (IH s' HW') as (HW'' & Hc' & Hkeep).
    split; [exact HW''|]. split; [etransitivity; [exact Hc'|exact Hc]|].
    intros k m Hk. apply Hkeep.
    destruct (decide (k = i)) as [->|Hne]; [congruence|].
    rewrite Hother by assumption. assumption.
Qed.

(** With a cached counter a queued task that gets a turn is served at
    once. *)
Lemma Warm_served sched : ∀ s i c,
  Warm s → tasks s !! i = Some c → i ∈ sched →
  is_Some (reserved (run web3 (Resume <$> sched) s) i).
Proof.
  induction sched as [|j rest IH]; intros s i c HW Hi Hin.
  - inversion Hin.
  - change (run web3 (Resume <$> j :: rest) s)
      with (run web3 (Resume <$> rest) (default s (resume web3 j s))).
    destruct (resume web3 j s) as [s'|] eqn:E;
      [change (default s (Some s')) with s' | change (default s None) with s].
    + destruct (Warm_resume s s' j HW E) as (HW' & _ & _ & Hlen & _ & Hj1 & _).
      destruct (decide (i = j)) as [->|Hne].
      * destruct (Warm_run rest s' HW') as (_ & _ & Hkeep).
        rewrite (Hkeep _ _ Hj1). eauto.
      * apply elem_of_cons in Hin. destruct Hin as [->|Hin]; [congruence|].
        destruct (lookup_lt_is_Some_2 (tasks s') i) as [c' Hc'].
        { rewrite Hlen. eapply lookup_lt_Some. exact Hi. }
        eapply IH; eauto.
    + apply elem_of_cons in Hin. destruct Hin as [->|Hin].
      * (* the turn was refused: the task is built already *)
        destruct c as [cc ph]. destruct (warm_phase s HW _ _ _ Hi) as [->|[tx ->]].
        -- exfalso. destruct (resume_enabled s j cc Queued Hi) as [s' Hs'];
             [right; split; [reflexivity|apply (warm_free s HW)]|]. congruence.
        -- destruct (Warm_run rest s HW) as (_ & _ & Hkeep).
           rewrite (Hkeep j (tx_nonce tx)); [eauto|].
           unfold reserved. rewrite Hi. reflexivity.
      * eapply IH; eauto.
Qed.

Lemma Dense_spawn this0 c0 calls :
  (Z.of_N (nonce this0) ≤ JsNumber.limit)%Z → Dense (nonce this0) (spawn this0 c0 calls).
Proof.
  intros Hlim. split; simpl.
  - lia.
  - exact Hlim.
  - intros m Hm. lia.
Qed.

(** Up to [2^53] the increment is by one, and at [2^53] the counter stays:
    either way no nonce below the counter is left out. *)
Lemma Dense_resume n0 s s' i :
  Warm s → Dense n0 s → resume web3 i s = Some s' → Dense n0 s'.
Proof.
  intros HW [D1 D2 D3] Hs.
  destruct (Warm_resume s s' i HW Hs) as (_ & _ & Hn & _ & Hi0 & Hi1 & Hother).
  assert (Hcase : (Z.of_N (nonce (this s)) < JsNumber.limit)%Z
                  ∨ nonce (this s) = Z.to_N JsNumber.limit) by lia.
  assert (Hold : ∀ m, (n0 ≤ m < nonce (this s))%N → ∃ k, reserved s' k = Some m).
  { intros m Hm. destruct (D3 m Hm) as [k Hk]. exists k.
    destruct (decide (k = i)) as [->|Hne]; [congruence|].
    rewrite Hother by assumption. exact Hk. }
  destruct Hcase as [Hlt|Heq].
  - rewrite succ_exact in Hn by assumption. split.
    + lia.
    + lia.
    + intros m Hm. destruct (decide (m = nonce (this s))) as [->|Hm'].
      * exists i. exact Hi1.
      * apply Hold. lia.
  - rewrite Heq, succ_limit, <- Heq in Hn. split.
    + lia.
    + rewrite Hn. exact D2.
    + intros m Hm. apply Hold. lia.
Qed.

Lemma Dense_run n0 sched : ∀ s,
  Warm s → Dense n0 s → Dense n0 (run web3 (Resume <$> sched) s).
Proof.
  induction sched as [|i rest IH]; intros s HW HD; simpl; [assumption|].
  destruct (resume web3 i s) as [s'|] eqn:E; simpl; [|apply IH; assumption].
  apply IH.
  - apply (Warm_resume s s' i HW E).
  - eapply Dense_resume; eauto.
Qed.
End MutexFacts.

(** X6. However the calls are interleaved, and whenever the key is changed
    in between, at most one call is inside the callback of
    [nonceMutex.runExclusive] (past its start and before its end) at any
    moment. *)
Theorem one_call_inside_callback (web3 : Nf3.Web3) (this0 : Nf3.t) (c0 : Nf3.Chain)
    (calls : list Nf3.Call) (sched : list Nf3.Turn) (i j : nat) (ci cj : Nf3.Call)
    (phi phj : Nf3.Phase) :
  Nf3.tasks (Nf3.run web3 sched (Nf3.spawn this0 c0 calls)) !! i = Some (ci, phi) →
  Nf3.tasks (Nf3.run web3 sched (Nf3.spawn this0 c0 calls)) !! j = Some (cj, phj) →
  Nf3Session.inside phi = true → Nf3Session.inside phj = true →
  i = j.
Proof.
  intros Hi Hj Hpi Hpj.
  pose proof (Locked_run web3 sched _ (Locked_spawn this0 c0 calls)) as HL.
  pose proof (Nf3Session.locked_inside _ HL _ _ _ Hi Hpi) as Ei.
  pose proof (Nf3Session.locked_inside _ HL _ _ _ Hj Hpj) as Ej.
  congruence.
Qed.

Lemma one_call_inside_callback_witness : 0 = 0.
Proof.
  apply (one_call_inside_callback Demo.web3 Demo.nf3_fresh [] Demo.calls
           [Nf3.Resume 0; Nf3.SetKey "0xkey2"; Nf3.Resume 1; Nf3.Resume 0] 0 0
           (Nf3.mkCall "0xshield" "0xdeposit" 10) (Nf3.mkCall "0xshield" "0xdeposit" 10)
           (Nf3.AwaitCount2 (Nf3.KeyAddress "0xaddr_0xkey2"))
           (Nf3.AwaitCount2 (Nf3.KeyAddress "0xaddr_0xkey2"))); reflexivity.
Defined.

(** X7. The mutex never stays locked behind a call that has settled:
    whenever some call has not settled yet, some call can be resumed.  This
    holds after rejected count requests and after changes of key too. *)
Theorem mutex_never_stuck (web3 : Nf3.Web3) (this0 : Nf3.t) (c0 : Nf3.Chain)
    (calls : list Nf3.Call) (sched : list Nf3.Turn) (i : nat) (c : Nf3.Call)
    (ph : Nf3.Phase) :
  Nf3.tasks (Nf3.run web3 sched (Nf3.spawn this0 c0 calls)) !! i = Some (c, ph) →
  Nf3Session.pending ph = true →
  ∃ j s', Nf3.step web3 (Nf3.Resume j) (Nf3.run web3 sched (Nf3.spawn this0 c0 calls))
          = Some s'.
Proof.
  intros Hi Hp.
  pose proof (Locked_run web3 sched _ (Locked_spawn this0 c0 calls)) as HL.
  destruct (Nf3.holder (Nf3.run web3 sched (Nf3.spawn this0 c0 calls))) as [h|] eqn:Hh.
  - destruct (Nf3Session.locked_holder _ HL h Hh) as (ch & phh & Hl & Hin).
    exists h. eapply resume_enabled; eauto.
  - exists i. eapply resume_enabled; eauto.
    destruct ph; try discriminate; auto.
Qed.

Lemma mutex_never_stuck_witness :
  ∃ j s', Nf3.step Demo.web3_down (Nf3.Resume j)
            (Nf3.run Demo.web3_down [Nf3.Resume 0; Nf3.Resume 0]
               (Nf3.spawn Demo.nf3_fresh [] Demo.calls)) = Some s'.
Proof.
  apply (mutex_never_stuck Demo.web3_down Demo.nf3_fresh [] Demo.calls
           [Nf3.Resume 0; Nf3.Resume 0] 1
           (Nf3.mkCall "0xstate" "0xpropose" 1) Nf3.Queued); reflexivity.
Defined.

(** X8. With a nonce cached at the start ([n0], not 0 and not beyond
    [2^53]), however the calls are interleaved no nonce is skipped (every
    nonce from [n0] up to the counter has been given to some call) and the
    node is never asked. *)
Theorem cached_session_leaves_no_gap (web3 : Nf3.Web3) (this0 : Nf3.t) (c0 : Nf3.Chain)
    (calls : list Nf3.Call) (sched : list nat) (m : N) :
  Nf3.nonce this0 ≠ 0%N →
  (Z.of_N (Nf3.nonce this0) ≤ JsNumber.limit)%Z →
  let s := Nf3.run web3 (Nf3.Resume <$> sched) (Nf3.spawn this0 c0 calls) in
  Nf3.chain s = c0
  ∧ ((Nf3.nonce this0 ≤ m < Nf3.nonce (Nf3.this s))%N → ∃ i, Nf3.reserved s i = Some m).
Proof.
  intros Hn0 Hlim s.
  pose proof (Warm_spawn this0 c0 calls Hn0) as HW.
  destruct (Warm_run web3 sched _ HW) as (_ & Hc & _).
  pose proof (Dense_run web3 (Nf3.nonce this0) sched _ HW (Dense_spawn this0 c0 calls Hlim))
    as HD.
  split; [exact Hc|]. intros Hm. apply (Nf3Session.dense_taken _ _ HD m Hm).
Qed.

Lemma cached_session_leaves_no_gap_witness :
  ∃ i, Nf3.reserved (Nf3.run Demo.web3_down (Nf3.Resume <$> [1; 0])
                       (Nf3.spawn Demo.nf3_used [] Demo.calls)) i
       = Some 43%N.
Proof.
  destruct (cached_session_leaves_no_gap Demo.web3_down Demo.nf3_used [] Demo.calls
              [1; 0] 43%N) as [_ Hgap].
  - vm_compute. discriminate.
  - vm_compute. discriminate.
  - apply Hgap. vm_compute. split; [discriminate | reflexivity].
Defined.

(** X9. With a nonce cached at the start, every call that gets at least one
    turn has its nonce reserved at the end: a cached session cannot fail in
    the critical section. *)
Theorem cached_session_serves_every_call (web3 : Nf3.Web3) (this0 : Nf3.t) (c0 : Nf3.Chain)
    (calls : list Nf3.Call) (sched : list nat) (i : nat) :
  Nf3.nonce this0 ≠ 0%N → i < List.length calls → i ∈ sched →
  is_Some (Nf3.reserved (Nf3.run web3 (Nf3.Resume <$> sched) (Nf3.spawn this0 c0 calls)) i).
Proof.
  intros Hn0 Hi Hin.
  destruct (lookup_lt_is_Some_2 (Nf3.tasks (Nf3.spawn this0 c0 calls)) i) as [c Hc].
  { simpl. rewrite length_map. exact Hi. }
  eapply (Warm_served web3); eauto. apply Warm_spawn. exact Hn0.
Qed.

Lemma cached_session_serves_every_call_witness :
  is_Some (Nf3.reserved (Nf3.run Demo.web3_down (Nf3.Resume <$> [1; 0])
                           (Nf3.spawn Demo.nf3_used [] Demo.calls)) 0).
Proof.
  apply (cached_session_serves_every_call Demo.web3_down Demo.nf3_used [] Demo.calls [1; 0] 0).
  - vm_compute. discriminate.
  - vm_compute. lia.
  - right. left.
Defined.

(** ** The methods that talk to the servers *)
Section ClientFacts.
Import Nf3Client.
Variable net : Net.

(** The envelope of whatever [submitTransaction] sends. *)
Lemma submitTransaction_envelope web3 data to fee this c send this' c' :
  Nf3.submitTransaction web3 data to fee this c = (Resolved send, this', c') →
  Nf3.tx_to (Nf3.sent_tx send) = default (Nf3.shieldContractAddress this) to
  ∧ Nf3.tx_value (Nf3.sent_tx send) = default (Nf3.defaultFee this) fee
  ∧ Nf3.tx_data (Nf3.sent_tx send) = data
  ∧ Nf3.tx_gas (Nf3.sent_tx send) = 10000000%Z
  ∧ Nf3.tx_gasPrice (Nf3.sent_tx send) = 10000000000%Z
  ∧ Nf3.nonce this' = JsNumber.succ (Nf3.tx_nonce (Nf3.sent_tx send))
  ∧ Nf3.shieldContractAddress this' = Nf3.shieldContractAddress this
  ∧ Nf3.defaultFee this' = Nf3.defaultFee this.
Proof.
  unfold Nf3.submitTransaction, Nf3.criticalSection, Nf3.getTransactionCount.
  destruct (N.eqb (Nf3.nonce this) 0).
  - destruct (Nf3.txCount web3 _ _); [|discriminate].
    destruct (Nf3.txCount web3 _ _); [|discriminate].
    destruct (Nat.eqb _ 0); intros E; inversion E; subst; simpl; repeat split.
  - destruct (Nat.eqb _ 0); intros E; inversion E; subst; simpl; repeat split.
Qed.

Lemma submit_resolved data to fee this w send this' w' :
  submitTransaction net data to fee this w = (Resolved send, this', w') →
  ∃ core' chain',
    Nf3.submitTransaction (web3 net) data to fee (core this) (chain w)
    = (Resolved send, core', chain')
    ∧ this' = set_core core' this ∧ w' = mkWorld chain' (requests w).
Proof.
  unfold submitTransaction.
  destruct (Nf3.submitTransaction _ _ _ _ _ _) as [[[send0|e] core'] chain'];
    intros E; inversion E; subst. eauto.
Qed.

Lemma submit_rejected data to fee this w e this' w' :
  submitTransaction net data to fee this w = (Rejected e, this', w') →
  ∃ e', e = NodeError e'.
Proof.
  unfold submitTransaction.
  destruct (Nf3.submitTransaction _ _ _ _ _ _) as [[[send0|e0] core'] chain'];
    intros E; inversion E; subst. eauto.
Qed.

Lemma sending_rejected r e this' w' :
  sending r = (Rejected e, this', w') → r = (Rejected e, this', w').
Proof. destruct r as [[[send|e0] t0] w0]; simpl; intros E; inversion E; reflexivity. Qed.

Lemma sending_resolved r o this' w' :
  sending r = (Resolved o, this', w') → ∃ send, o = Sent send ∧ r = (Resolved send, this', w').
Proof. destruct r as [[[send|e0] t0] w0]; simpl; intros E; inversion E; eauto. Qed.

Lemma request_chain req w : chain (snd (request net req w)) = chain w.
Proof. reflexivity. Qed.

Lemma blockThenPost_chain path h this w :
  chain (snd (blockThenPost net path h this w)) = chain w.
Proof.
  unfold blockThenPost.
  destruct (request net _ w) as [[res|e] w1] eqn:E1.
  - rewrite request_chain. unfold request in E1. inversion E1. reflexivity.
  - unfold request in E1. inversion E1. reflexivity.
Qed.

(** A rejection by axios comes before anything is submitted. *)
Lemma invoke_axios_rejected op this w this' w' :
  invoke net op this w = (Rejected AxiosError, this', w') →
  this' = this ∧ chain w' = chain w.
Proof.
  assert (Hsub : ∀ data to fee t0 w0 t1 w1,
             sending (submitTransaction net data to fee t0 w0)
             = (Rejected AxiosError, t1, w1) → False).
  { intros data to fee t0 w0 t1 w1 E. apply sending_rejected in E.
    apply submit_rejected in E. destruct E as [e' E]. discriminate. }
  destruct op; simpl;
    unfold deposit, transfer, withdraw, finaliseWithdrawal, requestInstantWithdrawal,
      advanceInstantWithdrawal, registerProposer, deregisterProposer, withdrawBond,
      postThenSubmit.
  1,2,3,6,7,8,9:
    destruct (request net _ w) as [[res|e] w1] eqn:E1;
    [ try destruct (negb _); intros E; try (exfalso; eapply Hsub; exact E); discriminate
    | intros E; inversion E; subst; split; [reflexivity|];
      unfold request in E1; inversion E1; reflexivity ].
  all: match goal with
       | |- context [blockThenPost net ?p ?h ?t0 ?w0] =>
           pose proof (blockThenPost_chain p h t0 w0) as Hc;
           destruct (blockThenPost net p h t0 w0) as [[res|e] w1]
       end;
    [ intros E; exfalso; eapply Hsub; exact E
    | intros E; inversion E; subst; split; [reflexivity | exact Hc] ].
Qed.
End ClientFacts.

(** X10. [healthcheck] rejects only for a server name other than 'client'
    and 'optimist', and then without making a request.  For those two names
    it makes one GET to [<base url>/healthcheck] and resolves: to [true]
    exactly when the request resolved with status 200, to [false] on any other
    status and on any failure of the request. *)
Theorem healthcheck_true_only_on_200 (net : Nf3Client.Net) (server : string)
    (this : Nf3Client.t) (w : Nf3Client.World) :
  (server ≠ "client" → server ≠ "optimist" →
   Nf3Client.healthcheck net server this w
   = (Rejected (Nf3Client.Thrown "Unknown server name"), w))
  ∧ (∀ url,
       (server = "client" ∧ url = Nf3Client.clientBaseUrl this)
       ∨ (server = "optimist" ∧ url = Nf3Client.optimistBaseUrl this) →
       let req := Nf3Client.Get (url +:+ "/healthcheck") in
       ∃ b,
         Nf3Client.healthcheck net server this w
         = (Resolved b,
            Nf3Client.mkWorld (Nf3Client.chain w) (Nf3Client.requests w ++ [req]))
         ∧ (b = true ↔
            ∃ res, Nf3Client.axios net req (List.length (Nf3Client.requests w)) = Some res
                   ∧ Nf3Client.status res = 200%Z)).
Proof.
  split.
  - intros Hc Ho. unfold Nf3Client.healthcheck.
    destruct (String.eqb_spec server "client"); [contradiction|].
    destruct (String.eqb_spec server "optimist"); [contradiction|]. reflexivity.
  - intros url Hurl req.
    assert (E : Nf3Client.healthcheck net server this w
                = match Nf3Client.request net req w with
                  | (Resolved res, w') => (Resolved (Z.eqb (Nf3Client.status res) 200), w')
                  | (Rejected _, w') => (Resolved false, w')
                  end).
    { unfold Nf3Client.healthcheck. destruct Hurl as [[-> ->]|[-> ->]]; reflexivity. }
    rewrite E. unfold Nf3Client.request.
    destruct (Nf3Client.axios net req _) as [res|].
    + exists (Z.eqb (Nf3Client.status res) 200). split; [reflexivity|].
      rewrite Z.eqb_eq. split.
      * intros Hs. exists res. auto.
      * intros (res' & Er & Hs). inversion Er; subst. exact Hs.
    + exists false. split; [reflexivity|]. split; [discriminate|].
      intros (res' & Er & _). discriminate.
Qed.

Lemma healthcheck_true_only_on_200_witness :
  Nf3Client.healthcheck DemoClient.net "proposer" DemoClient.client DemoClient.world
  = (Rejected (Nf3Client.Thrown "Unknown server name"), DemoClient.world)
  ∧ ∃ b,
      Nf3Client.healthcheck DemoClient.net_down "optimist" DemoClient.client DemoClient.world
      = (Resolved b,
         Nf3Client.mkWorld [] ([] ++ [Nf3Client.Get ("http://optimist" +:+ "/healthcheck")]))
      ∧ (b = true ↔
         ∃ res, Nf3Client.axios DemoClient.net_down
                  (Nf3Client.Get ("http://optimist" +:+ "/healthcheck")) 0 = Some res
                ∧ Nf3Client.status res = 200%Z).
Proof.
  split.
  - apply (proj1 (healthcheck_true_only_on_200 DemoClient.net "proposer"
                    DemoClient.client DemoClient.world)); discriminate.
  - apply (proj2 (healthcheck_true_only_on_200 DemoClient.net_down "optimist"
                    DemoClient.client DemoClient.world) "http://optimist").
    right. split; reflexivity.
Defined.



(** X12. When axios rejects a request of an operation, the operation rejects
    with that error before anything is submitted: the instance is unchanged
    (no nonce is used up, no withdraw hash recorded) and the node has not been
    asked. *)
Theorem failed_request_uses_no_nonce (net : Nf3Client.Net) (op : Nf3Client.Operation)
    (this this' : Nf3Client.t) (w w' : Nf3Client.World) :
  Nf3Client.invoke net op this w = (Rejected Nf3Client.AxiosError, this', w') →
  this' = this ∧ Nf3Client.chain w' = Nf3Client.chain w.
Proof. apply invoke_axios_rejected. Qed.

Lemma failed_request_uses_no_nonce_witness :
  DemoClient.client = DemoClient.client
  ∧ Nf3Client.chain
      (Nf3Client.mkWorld [] [Nf3Client.Post "http://optimist/proposer/register"
                               (Nf3Client.addressBody DemoClient.client)])
    = Nf3Client.chain DemoClient.world.
Proof.
  apply (failed_request_uses_no_nonce DemoClient.net_down Nf3Client.op_registerProposer
           DemoClient.client DemoClient.client DemoClient.world).
  reflexivity.
Defined.

Section ClientFacts2.
Import Nf3Client.
Variable net : Net.

Lemma sent_envelope data to fee this w o this' w' :
  sending (submitTransaction net data (Some to) (Some fee) this w) = (Resolved o, this', w') →
  ∃ send, o = Sent send
          ∧ Nf3.tx_to (Nf3.sent_tx send) = to
          ∧ Nf3.tx_value (Nf3.sent_tx send) = fee
          ∧ Nf3.tx_data (Nf3.sent_tx send) = data
          ∧ Nf3.nonce (core this') = JsNumber.succ (Nf3.tx_nonce (Nf3.sent_tx send))
          ∧ latestWithdrawHash this' = latestWithdrawHash this.
Proof.
  intros E. apply sending_resolved in E. destruct E as (send & -> & E).
  apply submit_resolved in E. destruct E as (core' & chain' & E & -> & ->).
  apply submitTransaction_envelope in E.
  destruct E as (Hto & Hv & Hd & _ & _ & Hn & _).
  exists send. simpl in *. auto 10.
Qed.

Lemma invoke_sent op this w send this' w' :
  invoke net op this w = (Resolved (Sent send), this', w') →
  Nf3.tx_to (Nf3.sent_tx send) = fst (destination this op)
  ∧ Nf3.tx_value (Nf3.sent_tx send) = snd (destination this op)
  ∧ Nf3.nonce (core this') = JsNumber.succ (Nf3.tx_nonce (Nf3.sent_tx send)).
Proof.
  destruct op; simpl;
    unfold deposit, transfer, withdraw, finaliseWithdrawal, requestInstantWithdrawal,
      advanceInstantWithdrawal, registerProposer, deregisterProposer, withdrawBond,
      postThenSubmit, shield.
  1,2,3,6,7,8,9:
    destruct (request net _ w) as [[res|e] w1]; [|discriminate];
    try (destruct (negb _); [|discriminate]);
    intros E; apply sent_envelope in E;
    destruct E as (send' & Es & Hto & Hv & _ & Hn & _); inversion Es; subst send';
    simpl in *; auto.
  all: match goal with
       | |- context [blockThenPost net ?p ?h ?t0 ?w0] =>
           destruct (blockThenPost net p h t0 w0) as [[res|e] w1]; [|discriminate]
       end;
    intros E; apply sent_envelope in E;
    destruct E as (send' & Es & Hto & Hv & _ & Hn & _); inversion Es; subst send';
    simpl in *; auto.
Qed.

Lemma invoke_keeps_hash op this w r this' w' :
  (∀ off e ty v id rc fee, op ≠ op_withdraw off e ty v id rc fee) →
  invoke net op this w = (r, this', w') →
  latestWithdrawHash this' = latestWithdrawHash this.
Proof.
  assert (Hsub : ∀ data to fee t0 w0 r1 t1 w1,
             sending (submitTransaction net data to fee t0 w0) = (r1, t1, w1) →
             latestWithdrawHash t1 = latestWithdrawHash t0).
  { intros data to fee t0 w0 r1 t1 w1. unfold sending, submitTransaction.
    destruct (Nf3.submitTransaction _ _ _ _ _ _) as [[[s|e] c'] ch'];
      intros E; inversion E; reflexivity. }
  intros Hop.
  destruct op; simpl;
    unfold deposit, transfer, finaliseWithdrawal, requestInstantWithdrawal,
      advanceInstantWithdrawal, registerProposer, deregisterProposer, withdrawBond,
      postThenSubmit, shield.
  3: { exfalso. eapply Hop. reflexivity. }
  1,2,5,6,7,8:
    destruct (request net _ w) as [[res|e] w1];
    try destruct (negb _); intros E;
    try (apply Hsub in E; exact E); inversion E; reflexivity.
  all: match goal with
       | |- context [blockThenPost net ?p ?h ?t0 ?w0] =>
           destruct (blockThenPost net p h t0 w0) as [[res|e] w1]
       end;
    intros E; try (apply Hsub in E; exact E); inversion E; reflexivity.
Qed.
End ClientFacts2.

(** X13. A transaction sent by an operation goes where the method says and
    carries the value the method says (the fee, defaulting to
    [this.defaultFee], for deposit, transfer and withdraw; 0 for finalising
    or advancing a withdrawal, de-registering and withdrawing the bond; the
    proposer bond for registering, to the Proposers contract), and the
    counter is left at [nonce++] of the nonce it carried: one above it, for a
    nonce below [2^53]. *)
Theorem operation_destination_and_value (net : Nf3Client.Net) (op : Nf3Client.Operation)
    (this this' : Nf3Client.t) (w w' : Nf3Client.World) (send : Nf3.Send) :
  Nf3Client.invoke net op this w = (Resolved (Nf3Client.Sent send), this', w') →
  Nf3.tx_to (Nf3.sent_tx send) = fst (Nf3Client.destination this op)
  ∧ Nf3.tx_value (Nf3.sent_tx send) = snd (Nf3Client.destination this op)
  ∧ Nf3.nonce (Nf3Client.core this') = JsNumber.succ (Nf3.tx_nonce (Nf3.sent_tx send))
  ∧ ((Z.of_N (Nf3.tx_nonce (Nf3.sent_tx send)) < JsNumber.limit)%Z →
     Nf3.nonce (Nf3Client.core this') = (Nf3.tx_nonce (Nf3.sent_tx send) + 1)%N).
Proof.
  intros E. destruct (invoke_sent net op this w send this' w' E) as (Hto & Hv & Hn).
  split; [exact Hto|]. split; [exact Hv|]. split; [exact Hn|].
  intros Hlt. rewrite Hn. apply succ_exact. exact Hlt.
Qed.

Lemma operation_destination_and_value_witness :
  ∃ send this' w',
    Nf3Client.invoke DemoClient.net Nf3Client.op_registerProposer
      DemoClient.client DemoClient.world = (Resolved (Nf3Client.Sent send), this', w')
    ∧ Nf3.tx_to (Nf3.sent_tx send) = "0xproposers"
    ∧ Nf3.tx_value (Nf3.sent_tx send) = 10%Z
    ∧ Nf3.nonce (Nf3Client.core this') = (Nf3.tx_nonce (Nf3.sent_tx send) + 1)%N.
Proof.
  eexists _, _, _. split; [reflexivity|].
  destruct (operation_destination_and_value DemoClient.net Nf3Client.op_registerProposer
              DemoClient.client _ DemoClient.world _ _ eq_refl) as (Hto & Hv & _ & Hn).
  split; [exact Hto|]. split; [exact Hv|]. apply Hn. vm_compute. reflexivity.
Defined.

(** X14. [withdraw] records the hash of the withdrawal as soon as its POST
    has resolved, whether the withdrawal is off-chain or not and whether the
    submission that follows succeeds or not; no other operation touches the
    recorded hash. *)
Theorem withdraw_records_hash (net : Nf3Client.Net) (op : Nf3Client.Operation)
    (this this' : Nf3Client.t) (w w' : Nf3Client.World)
    (r : Res Nf3Client.Err Nf3Client.Outcome) :
  Nf3Client.invoke net op this w = (r, this', w') →
  ((∀ off e ty v id rc fee, op ≠ Nf3Client.op_withdraw off e ty v id rc fee) →
   Nf3Client.getLatestWithdrawHash this' = Nf3Client.getLatestWithdrawHash this)
  ∧ ((∃ off e ty v id rc fee, op = Nf3Client.op_withdraw off e ty v id rc fee) →
     r ≠ Rejected Nf3Client.AxiosError →
     ∃ req res,
       Nf3Client.requests w' = Nf3Client.requests w ++ [req]
       ∧ Nf3Client.axios net req (List.length (Nf3Client.requests w)) = Some res
       ∧ Nf3Client.getLatestWithdrawHash this' = Some (Nf3Client.transactionHash res)).
Proof.
  intros E. split.
  - intros Hop. eapply invoke_keeps_hash; eauto.
  - intros (off & e & ty & v & id & rc & fee & ->) Hr. simpl in E.
    unfold Nf3Client.withdraw, Nf3Client.request in E.
    match type of E with
    | context [Nf3Client.axios net ?q ?n] =>
        destruct (Nf3Client.axios net q n) as [res|] eqn:Eax; [exists q, res|]
    end.
    + destruct (negb _).
      * unfold Nf3Client.sending, Nf3Client.submitTransaction in E. simpl in E.
        destruct (Nf3.submitTransaction _ _ _ _ _ _) as [[[s|e0] c'] ch'];
          inversion E; subst; simpl; auto.
      * inversion E; subst; simpl; auto.
    + inversion E; subst. contradiction.
Qed.

Lemma withdraw_records_hash_witness :
  ∃ req res,
    Nf3Client.requests
      (snd (Nf3Client.invoke DemoClient.net
              (Nf3Client.op_withdraw (Some true) "0xerc" "ERC20" 5 "0x00" "0xme" None)
              DemoClient.client DemoClient.world))
    = Nf3Client.requests DemoClient.world ++ [req]
    ∧ Nf3Client.axios DemoClient.net req (List.length (Nf3Client.requests DemoClient.world))
      = Some res
    ∧ Nf3Client.getLatestWithdrawHash
        (snd (fst (Nf3Client.invoke DemoClient.net
                     (Nf3Client.op_withdraw (Some true) "0xerc" "ERC20" 5 "0x00" "0xme" None)
                     DemoClient.client DemoClient.world)))
      = Some (Nf3Client.transactionHash res).
Proof.
  apply (proj2 (withdraw_records_hash DemoClient.net
                  (Nf3Client.op_withdraw (Some true) "0xerc" "ERC20" 5 "0x00" "0xme" None)
                  DemoClient.client _ DemoClient.world _ _ eq_refl)).
  - repeat eexists.
  - vm_compute. discriminate.
Defined.

(** X15. The proposer's message handler submits only messages of type
    'block' (to the State contract, with the block stake as value) and the
    challenger's only messages of type 'challenge' (to the State contract,
    with value 0); any other message leaves the instance and the world as
    they are. *)
Theorem handlers_filter_by_type (net : Nf3Client.Net) (msg : Nf3Client.Message)
    (this : Nf3Client.t) (w : Nf3Client.World) :
  (Nf3Client.msg_type msg ≠ "block" →
   Nf3Client.proposerOnMessage net msg this w = (Resolved None, this, w))
  ∧ (Nf3Client.msg_type msg ≠ "challenge" →
     Nf3Client.challengerOnMessage net msg this w = (Resolved None, this, w))
  ∧ (∀ r this' w',
       Nf3Client.proposerOnMessage net msg this w = (Resolved r, this', w') →
       Nf3Client.msg_type msg = "block" →
       ∃ send, r = Some send
               ∧ Nf3.tx_to (Nf3.sent_tx send) = Nf3Client.stateContractAddress this
               ∧ Nf3.tx_value (Nf3.sent_tx send) = Nf3Client.BLOCK_STAKE this
               ∧ Nf3.tx_data (Nf3.sent_tx send) = Nf3Client.msg_txDataToSign msg)
  ∧ (∀ r this' w',
       Nf3Client.challengerOnMessage net msg this w = (Resolved r, this', w') →
       Nf3Client.msg_type msg = "challenge" →
       ∃ send, r = Some send
               ∧ Nf3.tx_to (Nf3.sent_tx send) = Nf3Client.stateContractAddress this
               ∧ Nf3.tx_value (Nf3.sent_tx send) = 0%Z
               ∧ Nf3.tx_data (Nf3.sent_tx send) = Nf3Client.msg_txDataToSign msg).
Proof.
  unfold Nf3Client.proposerOnMessage, Nf3Client.challengerOnMessage.
  split; [|split; [|split]].
  - intros Hne. destruct (String.eqb_spec (Nf3Client.msg_type msg) "block");
      [contradiction|reflexivity].
  - intros Hne. destruct (String.eqb_spec (Nf3Client.msg_type msg) "challenge");
      [contradiction|reflexivity].
  - intros r this' w' E Hty. rewrite Hty in E. simpl in E.
    destruct (Nf3Client.submitTransaction net _ _ _ this w) as [[[send|e] t1] w1] eqn:Es;
      inversion E; subst.
    apply submit_resolved in Es. destruct Es as (core' & chain' & Es & _ & _).
    apply submitTransaction_envelope in Es. destruct Es as (Hto & Hv & Hd & _).
    exists send. auto.
  - intros r this' w' E Hty. rewrite Hty in E. simpl in E.
    destruct (Nf3Client.submitTransaction net _ _ _ this w) as [[[send|e] t1] w1] eqn:Es;
      inversion E; subst.
    apply submit_resolved in Es. destruct Es as (core' & chain' & Es & _ & _).
    apply submitTransaction_envelope in Es. destruct Es as (Hto & Hv & Hd & _).
    exists send. auto.
Qed.

Lemma handlers_filter_by_type_witness :
  Nf3Client.proposerOnMessage DemoClient.net (Nf3Client.mkMessage "challenge" "0xtx")
    DemoClient.client DemoClient.world
  = (Resolved None, DemoClient.client, DemoClient.world).
Proof.
  apply (proj1 (handlers_filter_by_type DemoClient.net (Nf3Client.mkMessage "challenge" "0xtx")
                  DemoClient.client DemoClient.world)).
  discriminate.
Defined.

(** ** [getProposeBlockCalldata] *)
Section CalldataFacts.
Import Calldata.

Lemma slice_app (a b : string) : slice (String.length a) (a +:+ b) = b.
Proof. induction a as [|ch a IH]; simpl; [destruct b; reflexivity | exact IH]. Qed.

Lemma slice_short (n : nat) : ∀ s : string, (String.length s ≤ n)%nat → slice n s = "".
Proof.
  induction n as [|n IH]; intros [|ch s] Hl; simpl in *; try reflexivity; try lia.
  apply IH. lia.
Qed.

(** Past a number larger than its position nothing in an increasing list
    can match its own position. *)
Lemma sequencedFrom_none l : ∀ index,
  StronglySorted Z.lt l → (∀ x, x ∈ l → (Z.of_nat index < x)%Z) →
  sequencedFrom index l = [].
Proof.
  induction l as [|num rest IH]; intros index Hs Hlow; [reflexivity|].
  simpl. inversion Hs as [|? ? Hs' Hall]; subst.
  assert (Hnum : (Z.of_nat index < num)%Z) by (apply Hlow; left).
  destruct (Z.eqb_spec (num - Z.of_nat index) 0) as [E|_]; [lia|].
  apply IH; [assumption|]. intros x Hx.
  rewrite Forall_forall in Hall. specialize (Hall x Hx). lia.
Qed.

Lemma sequencedFrom_prefix l : ∀ index,
  StronglySorted Z.lt l → (∀ x, x ∈ l → (Z.of_nat index ≤ x)%Z) →
  ∃ m, sequencedFrom index l = Z.of_nat <$> seq index m
       ∧ take m l = Z.of_nat <$> seq index m
       ∧ ∀ x, l !! m = Some x → (Z.of_nat (index + m) < x)%Z.
Proof.
  induction l as [|num rest IH]; intros index Hs Hlow.
  - exists 0. repeat split. intros x Hx. discriminate.
  - simpl. inversion Hs as [|? ? Hs' Hall]; subst.
    rewrite Forall_forall in Hall.
    assert (Hnum : (Z.of_nat index ≤ num)%Z) by (apply Hlow; left).
    destruct (Z.eqb_spec (num - Z.of_nat index) 0) as [E|Hne].
    + destruct (IH (S index) Hs') as (m & Hseq & Htake & Hnext).
      { intros x Hx. specialize (Hall x Hx). lia. }
      exists (S m). simpl. rewrite Hseq, Htake.
      replace num with (Z.of_nat index) by lia.
      repeat split. intros x Hx. specialize (Hnext x Hx). lia.
    + exists 0. rewrite sequencedFrom_none; [|assumption|].
      * repeat split. intros x Hx. inversion Hx; subst. lia.
      * intros x Hx. specialize (Hall x Hx). lia.
Qed.

Lemma findBlockNumberL2_first (blockHashes : Z -> option string) (blockHash : string)
    (rounds : nat) :
  ∀ (counter : Z) (fuel : nat),
    (∀ k, (counter < k < counter + Z.of_nat (S rounds))%Z →
          ∃ h, blockHashes k = Some h ∧ h ≠ blockHash) →
    (S rounds ≤ fuel)%nat →
    (blockHashes (counter + Z.of_nat (S rounds))%Z = None →
     findBlockNumberL2 fuel blockHashes blockHash counter = Some (Rejected notFound))
    ∧ (blockHashes (counter + Z.of_nat (S rounds))%Z = Some blockHash →
       findBlockNumberL2 fuel blockHashes blockHash counter
       = Some (Resolved (counter + Z.of_nat (S rounds))%Z)).
Proof.
  induction rounds as [|rounds IH]; intros counter fuel Hbetween Hfuel.
  - destruct fuel as [|fuel]; [lia|]. simpl.
    replace (counter + Z.of_nat 1)%Z with (counter + 1)%Z by lia.
    split; intros E; rewrite E; [reflexivity|].
    rewrite String.eqb_refl. reflexivity.
  - destruct fuel as [|fuel]; [lia|]. simpl findBlockNumberL2.
    destruct (Hbetween (counter + 1)%Z) as (h & Eh & Hne); [lia|].
    rewrite Eh. destruct (String.eqb_spec h blockHash); [contradiction|].
    replace (counter + Z.of_nat (S (S rounds)))%Z
      with ((counter + 1) + Z.of_nat (S rounds))%Z by lia.
    apply IH; [|lia]. intros k Hk. apply Hbetween. lia.
Qed.
End CalldataFacts.

(** X16. The call data handed to the ABI decoder is the transaction input
    without its function selector: for an input ["0x" + selector + args] with
    an 8-character selector it is ["0x" + args], and for an input of 10
    characters or fewer it is just ["0x"]. *)
Theorem abiBytecode_strips_selector (selector args input : string) :
  (String.length selector = 8 →
   Calldata.abiBytecode ("0x" +:+ selector +:+ args) = "0x" +:+ args)
  ∧ ((String.length input ≤ 10)%nat → Calldata.abiBytecode input = "0x").
Proof.
  split.
  - intros Hl. unfold Calldata.abiBytecode. f_equal.
    change 10 with (S (S 8)). rewrite <- Hl.
    simpl. change ("" +:+ selector +:+ args) with (selector +:+ args). apply slice_app.
  - intros Hl. unfold Calldata.abiBytecode. rewrite slice_short by exact Hl. reflexivity.
Qed.

Lemma abiBytecode_strips_selector_witness :
  Calldata.abiBytecode ("0x" +:+ "a9059cbb" +:+ "00ff") = "0x" +:+ "00ff"
  ∧ Calldata.abiBytecode "0x" = "0x".
Proof.
  split.
  - apply (proj1 (abiBytecode_strips_selector "a9059cbb" "00ff" "")). reflexivity.
  - apply (proj2 (abiBytecode_strips_selector "" "" "0x")). simpl. lia.
Defined.

(** X17. When the stored block numbers are strictly increasing and not
    negative, the numbers kept by the gap check are exactly the gap-free
    start of the list: they are [0, 1, ..., m-1], these are the first [m]
    stored numbers, and the next stored number (if any) is larger than [m]. *)
Theorem sequenced_is_gap_free_prefix (storedL2BlockNumbers : list Z) :
  StronglySorted Z.lt storedL2BlockNumbers →
  (∀ x, x ∈ storedL2BlockNumbers → (0 ≤ x)%Z) →
  ∃ m, Calldata.L2BlockNumbersSequenced storedL2BlockNumbers = Z.of_nat <$> seq 0 m
       ∧ take m storedL2BlockNumbers = Z.of_nat <$> seq 0 m
       ∧ ∀ x, storedL2BlockNumbers !! m = Some x → (Z.of_nat m < x)%Z.
Proof.
  intros Hs Hlow.
  destruct (sequencedFrom_prefix storedL2BlockNumbers 0 Hs) as (m & H1 & H2 & H3).
  { intros x Hx. specialize (Hlow x Hx). lia. }
  exists m. auto.
Qed.

Lemma sequenced_is_gap_free_prefix_witness :
  ∃ m, Calldata.L2BlockNumbersSequenced [0; 1; 2; 5; 6]%Z = Z.of_nat <$> seq 0 m
       ∧ take m [0; 1; 2; 5; 6]%Z = Z.of_nat <$> seq 0 m
       ∧ ∀ x, [0; 1; 2; 5; 6]%Z !! m = Some x → (Z.of_nat m < x)%Z.
Proof.
  apply (sequenced_is_gap_free_prefix [0; 1; 2; 5; 6]%Z).
  - repeat constructor; lia.
  - intros x Hx. apply list_elem_of_In in Hx. simpl in Hx.
    destruct Hx as [<-|[<-|[<-|[<-|[<-|[]]]]]]; lia.
Defined.

(** X18. The block number given to a proposed block is the first index
    after the last reliable one whose on-chain hash is the block's hash; if
    the contract call fails at an index before any hash has matched, the
    function throws 'Could not find blockHash in blockchain record'.  The loop
    needs as many rounds as the distance to that index. *)
Theorem block_number_is_first_match (blockHashes : Z -> option string) (blockHash : string)
    (storedL2BlockNumbers : list Z) (n : Z) (fuel : nat) :
  let start := Calldata.lastReliableL2BlockNumber storedL2BlockNumbers in
  (start < n)%Z →
  (∀ k, (start < k < n)%Z → ∃ h, blockHashes k = Some h ∧ h ≠ blockHash) →
  (Z.to_nat (n - start) ≤ fuel)%nat →
  (blockHashes n = Some blockHash →
   Calldata.blockNumberL2 fuel blockHashes blockHash storedL2BlockNumbers = Some (Resolved n))
  ∧ (blockHashes n = None →
     Calldata.blockNumberL2 fuel blockHashes blockHash storedL2BlockNumbers
     = Some (Rejected Calldata.notFound)).
Proof.
  intros start Hlt Hbetween Hfuel. unfold Calldata.blockNumberL2. fold start.
  destruct (Z.to_nat (n - start)) as [|rounds] eqn:Er; [lia|].
  assert (En : n = (start + Z.of_nat (S rounds))%Z) by lia.
  destruct (findBlockNumberL2_first blockHashes blockHash rounds start fuel) as [Hnone Hsome].
  - intros k Hk. apply Hbetween. lia.
  - exact Hfuel.
  - rewrite <- En in Hnone, Hsome. split; assumption.
Qed.

Lemma block_number_is_first_match_witness :
  Calldata.blockNumberL2 5
    (fun k => if Z.eqb k 2 then Some "0xaa" else if Z.eqb k 3 then Some "0xbb" else None)
    "0xbb" [0; 1; 7]%Z = Some (Resolved 3%Z).
Proof.
  assert (Hstart : Calldata.lastReliableL2BlockNumber [0; 1; 7]%Z = 1%Z) by reflexivity.
  pose proof (block_number_is_first_match
                (fun k => if Z.eqb k 2 then Some "0xaa"
                          else if Z.eqb k 3 then Some "0xbb" else None)
                "0xbb" [0; 1; 7]%Z 3%Z 5) as Hfirst.
  cbv zeta in Hfirst. rewrite Hstart in Hfirst.
  destruct Hfirst as [Hmatch _].
  - lia.
  - intros k Hk. assert (k = 2%Z) as -> by lia.
    exists "0xaa". split; [reflexivity | discriminate].
  - simpl. lia.
  - apply Hmatch. reflexivity.
Defined.

(** X19. For strictly increasing, non-negative stored block numbers, every
    block number from 0 up to the last reliable one is stored (at the
    position of its number), so the scan, which starts right after it, skips
    only blocks that are held locally.  The last reliable number is never 0
    and never below -1: with only block 0 in sequence the scan starts again
    at index 0. *)
Theorem last_reliable_blocks_are_stored (storedL2BlockNumbers : list Z) (k : nat) :
  StronglySorted Z.lt storedL2BlockNumbers →
  (∀ x, x ∈ storedL2BlockNumbers → (0 ≤ x)%Z) →
  let lastReliable := Calldata.lastReliableL2BlockNumber storedL2BlockNumbers in
  (-1 ≤ lastReliable)%Z ∧ lastReliable ≠ 0%Z
  ∧ ((Z.of_nat k ≤ lastReliable)%Z → storedL2BlockNumbers !! k = Some (Z.of_nat k)).
Proof.
  intros Hs Hlow lastReliable.
  destruct (sequencedFrom_prefix storedL2BlockNumbers 0 Hs) as (m & H1 & H2 & _).
  { intros x Hx. specialize (Hlow x Hx). lia. }
  assert (Hlast : lastReliable
                  = match m with
                    | O => (-1)%Z
                    | S m' => if Z.eqb (Z.of_nat m') 0 then (-1)%Z else Z.of_nat m'
                    end).
  { unfold lastReliable, Calldata.lastReliableL2BlockNumber, Calldata.L2BlockNumbersSequenced.
    rewrite H1. destruct m as [|m']; [reflexivity|].
    rewrite seq_S, fmap_app.
    change (Z.of_nat <$> [0 + m']) with [Z.of_nat m']. rewrite last_snoc. reflexivity. }
  rewrite Hlast. destruct m as [|m'].
  - repeat split; lia.
  - destruct (Z.eqb_spec (Z.of_nat m') 0) as [E|Hne].
    + repeat split; lia.
    + split; [lia|]. split; [assumption|]. intros Hk.
      assert (Hkm : k < S m') by lia.
      rewrite <- (lookup_take_lt storedL2BlockNumbers (S m') k) by exact Hkm. rewrite H2.
      rewrite list_lookup_fmap, lookup_seq_lt by exact Hkm. reflexivity.
Qed.

Lemma last_reliable_blocks_are_stored_witness :
  [0; 1; 2; 5; 6]%Z !! 2 = Some (Z.of_nat 2).
Proof.
  pose proof (last_reliable_blocks_are_stored [0; 1; 2; 5; 6]%Z 2) as Hstored.
  cbv zeta in Hstored.
  destruct Hstored as (_ & _ & Hk).
  - repeat constructor; lia.
  - intros x Hx. apply list_elem_of_In in Hx. simpl in Hx.
    destruct Hx as [<-|[<-|[<-|[<-|[<-|[]]]]]]; lia.
  - apply Hk. vm_compute. discriminate.
Defined.

(** ** More on [start] *)
Section StartMore.
Import GetInfo GetInfoTrace.
Context {Signed W : Type}.
Variable H : Helpers Signed W.
Variable T : Z.

Lemma open_app (a b : list (Event Signed)) : open (a ++ b) ↔ open a ∧ open b.
Proof.
  unfold open. rewrite List.filter_app. split.
  - intros E. apply app_eq_nil in E. exact E.
  - intros [-> ->]. reflexivity.
Qed.

Lemma quiet_ret {A} (a : A) : quiet (W := W) (Signed := Signed) (ret a).
Proof. intros st. exists []. rewrite app_nil_r. split; reflexivity. Qed.

Lemma quiet_throw {A} (e : Err) : quiet (@throw Signed W A e).
Proof. intros st. exists []. rewrite app_nil_r. split; reflexivity. Qed.

Lemma quiet_emit (e : Event Signed) : is_closed e = false → quiet (W := W) (Signed := Signed) (emit e).
Proof.
  intros He st. exists [e]. split; [reflexivity|]. unfold open. simpl. rewrite He. reflexivity.
Qed.

Lemma quiet_await {A} (c : Call Signed) (f : W -> Res Err A * W) : quiet (await c f).
Proof.
  intros [w tr]. unfold await. simpl.
  destruct (f w) as [[a|e] w']; eexists; split; reflexivity.
Qed.

Lemma quiet_bind {A B} (m : @M Signed W A) (k : A -> @M Signed W B) :
  quiet m → (∀ a, quiet (k a)) → quiet (bind m k).
Proof.
  intros Hm Hk st. unfold bind.
  destruct (Hm st) as (new1 & E1 & O1).
  destruct (m st) as [[a|e] st1]; simpl in E1.
  - destruct (Hk a st1) as (new2 & E2 & O2).
    exists (new1 ++ new2). rewrite E2, E1, app_assoc. split; [reflexivity|].
    apply open_app. auto.
  - exists new1. auto.
Qed.

Lemma quiet_try_catch {A} (m : @M Signed W A) (h : Err -> @M Signed W A) :
  quiet m → (∀ e, quiet (h e)) → quiet (try_catch m h).
Proof.
  intros Hm Hh st. unfold try_catch.
  destruct (Hm st) as (new1 & E1 & O1).
  destruct (m st) as [[a|e] st1]; simpl in E1.
  - exists new1. auto.
  - destruct (Hh e st1) as (new2 & E2 & O2).
    exists (new1 ++ new2). rewrite E2, E1, app_assoc. split; [reflexivity|].
    apply open_app. auto.
Qed.

Lemma closes_bind {A B} (m : @M Signed W A) (k : A -> @M Signed W B) :
  quiet m → (∀ a, closes_iff_resolved (k a)) → closes_iff_resolved (bind m k).
Proof.
  intros Hm Hk st. unfold bind.
  destruct (Hm st) as (new1 & E1 & O1).
  destruct (m st) as [[a|e] st1]; simpl in E1.
  - destruct (Hk a st1) as (new2 & E2 & O2).
    exists (new1 ++ new2). rewrite E2, E1, app_assoc. split; [reflexivity|].
    destruct (fst (k a st1)).
    + destruct O2 as (before & -> & Ob). exists (new1 ++ before).
      rewrite app_assoc. split; [reflexivity|]. apply open_app. auto.
    + apply open_app. auto.
  - exists new1. auto.
Qed.

Lemma closes_final {A} (a : A) :
  closes_iff_resolved (W := W) (Signed := Signed)
    (bind (emit ConnectionClosed) (fun _ => ret a)).
Proof.
  intros st. exists [ConnectionClosed]. split; [reflexivity|].
  simpl. exists []. split; reflexivity.
Qed.

Ltac quiet_step :=
  first [ apply quiet_ret | apply quiet_throw | apply quiet_await
        | apply quiet_emit; reflexivity
        | apply quiet_bind; [|intros ?]
        | apply quiet_try_catch; [|intros ?] ].

Lemma quiet_createWorkflow a approved : quiet (createWorkflow H a approved).
Proof.
  unfold createWorkflow.
  repeat match goal with
         | |- quiet (if ?b then _ else _) => destruct b
         end; repeat quiet_step.
Qed.

Lemma quiet_addEach txs : ∀ approvals, quiet (addEach H txs approvals).
Proof.
  induction txs as [|tx rest IH]; intros approvals; simpl; [apply quiet_ret|].
  apply quiet_bind; [apply quiet_await|]. intros r. apply IH.
Qed.

Lemma quiet_addGroups groups : ∀ approved, quiet (addGroups H groups approved).
Proof.
  induction groups as [|txs rest IH]; intros approved; simpl; [apply quiet_ret|].
  apply quiet_bind; [apply quiet_addEach|]. intros r. apply IH.
Qed.

Lemma quiet_addWorkflow a approved : quiet (addWorkflow H a approved).
Proof.
  unfold addWorkflow. destruct (verifyTransactions H _);
    [apply quiet_addGroups | apply quiet_ret].
Qed.

Lemma quiet_getNonceWorkflow a : quiet (getNonceWorkflow H a).
Proof.
  unfold getNonceWorkflow. destruct (falsy _); repeat quiet_step.
Qed.

Lemma quiet_executeLoop approved : ∀ executor, quiet (executeLoop H T approved executor).
Proof.
  induction approved as [|approval rest IH]; intros executor; simpl; [apply quiet_ret|].
  destruct (ready T approval); [|apply IH].
  apply quiet_bind.
  - destruct (truthy executor); repeat quiet_step.
  - intros executor'. repeat quiet_step. apply IH.
Qed.

Lemma start_closes : closes_iff_resolved (start H T).
Proof.
  unfold start.
  apply closes_bind; [apply quiet_await|]. intros a.
  apply closes_bind.
  { destruct (String.eqb _ _); [apply quiet_createWorkflow | apply quiet_ret]. }
  intros approved1. apply closes_bind.
  { destruct (String.eqb _ _); [apply quiet_addWorkflow | apply quiet_ret]. }
  intros approved. apply closes_bind.
  { destruct (String.eqb _ _); [apply quiet_getNonceWorkflow | apply quiet_ret]. }
  intros _. apply closes_bind; [apply quiet_executeLoop|].
  intros _. apply closes_final.
Qed.
End StartMore.

(** X20. [start] closes the web3 connection exactly when it resolves, and
    then as its last act; when it rejects (a helper outside the 'get nonce'
    [try] rejected) the connection is left open. *)
Theorem start_closes_connection_iff_resolved {Signed W : Type}
    (H : GetInfo.Helpers Signed W) (T : Z) (st : W * list (GetInfo.Event Signed)) :
  ∃ new,
    snd (snd (GetInfo.start H T st)) = snd st ++ new
    ∧ match fst (GetInfo.start H T st) with
      | Resolved _ =>
          ∃ before, new = before ++ [GetInfo.ConnectionClosed] ∧ GetInfoTrace.open before
      | Rejected _ => GetInfoTrace.open new
      end.
Proof. apply start_closes. Qed.

(** X21. In the 'create' workflow a pause that was not confirmed
    ([pause] false) or an unpause that was not confirmed ([unpause] false) is
    dropped: no contract transaction is built, nothing is executed, and
    [start] resolves with no approvals after closing the connection. *)
Theorem unconfirmed_pause_does_nothing {Signed W : Type} (H : GetInfo.Helpers Signed W)
    (T : Z) (a : GetInfo.Answers) (w w1 : W) (tr : list (GetInfo.Event Signed)) :
  GetInfo.askQuestions H false w = (Resolved a, w1) →
  GetInfo.workflow a = "create" →
  (GetInfo.task a = "Pause contracts" ∧ GetInfo.pause a = false)
  ∨ (GetInfo.task a = "Unpause contracts" ∧ GetInfo.unpause a = false) →
  GetInfo.start H T (w, tr)
  = (Resolved [],
     (w1, tr ++ [GetInfo.Invoked (GetInfo.c_askQuestions false);
                 GetInfo.Settled (GetInfo.c_askQuestions false) true;
                 GetInfo.ConnectionClosed])).
Proof.
  intros Hask Hwf Htask. unfold GetInfo.start.
  unfold GetInfo.bind at 1. unfold GetInfo.await at 1. simpl fst. rewrite Hask.
  rewrite Hwf. simpl String.eqb. cbv iota.
  unfold GetInfo.createWorkflow.
  destruct Htask as [[-> ->]|[-> ->]]; simpl String.eqb; cbv iota; simpl negb; cbv iota;
    unfold GetInfo.bind, GetInfo.ret, GetInfo.emit; simpl;
    rewrite <- !app_assoc; reflexivity.
Qed.

Lemma unconfirmed_pause_does_nothing_witness :
  GetInfo.start (Signed := nat)
    (Demo.helpers (GetInfo.mkAnswers "Pause contracts" "0xkey1" "" 0 0 false false ""
                     "0xexecutor" None "" "create" None) None (fun _ => true)) 2 (0, [])
  = (Resolved [],
     (0, [] ++ [GetInfo.Invoked (GetInfo.c_askQuestions false);
                GetInfo.Settled (GetInfo.c_askQuestions false) true;
                GetInfo.ConnectionClosed])).
Proof.
  apply (unconfirmed_pause_does_nothing (Signed := nat)
           (Demo.helpers (GetInfo.mkAnswers "Pause contracts" "0xkey1" "" 0 0 false false ""
                            "0xexecutor" None "" "create" None) None (fun _ => true)) 2
           (GetInfo.mkAnswers "Pause contracts" "0xkey1" "" 0 0 false false ""
              "0xexecutor" None "" "create" None) 0 0 []).
  - reflexivity.
  - reflexivity.
  - left. split; reflexivity.
Defined.

(** X22. In the 'get nonce' workflow a nonce typed at the prompt (other
    than 0) is logged as it is: the multisig contract is not looked up and
    its nonce is not read. *)
Theorem typed_nonce_is_logged_unread {Signed W : Type} (H : GetInfo.Helpers Signed W)
    (T : Z) (a : GetInfo.Answers) (w w1 : W) (z : Z) (tr : list (GetInfo.Event Signed)) :
  GetInfo.askQuestions H false w = (Resolved a, w1) →
  GetInfo.workflow a = "get nonce" →
  GetInfo.nonce a = Some z → z ≠ 0%Z →
  let new := [GetInfo.Invoked (GetInfo.c_askQuestions false);
              GetInfo.Settled (GetInfo.c_askQuestions false) true;
              GetInfo.LogNonce (Some z);
              GetInfo.ConnectionClosed] in
  GetInfo.start H T (w, tr) = (Resolved [], (w1, tr ++ new))
  ∧ GetInfo.nonce_reads new = 0.
Proof.
  intros Hask Hwf Hn Hz new. split; [|reflexivity]. unfold GetInfo.start.
  unfold GetInfo.bind at 1. unfold GetInfo.await at 1. simpl fst. rewrite Hask.
  rewrite Hwf. simpl String.eqb. cbv iota.
  unfold GetInfo.getNonceWorkflow. rewrite Hn. unfold GetInfo.falsy.
  destruct (Z.eqb_spec z 0) as [E|_]; [contradiction|].
  unfold GetInfo.bind, GetInfo.ret, GetInfo.try_catch, GetInfo.emit. simpl.
  rewrite <- !app_assoc. reflexivity.
Qed.

Lemma typed_nonce_is_logged_unread_witness :
  GetInfo.start (Signed := nat)
    (Demo.helpers (Demo.answers "get nonce" (Some 7%Z)) None (fun _ => true)) 2 (0, [])
  = (Resolved [],
     (0, [] ++ [GetInfo.Invoked (GetInfo.c_askQuestions false);
                GetInfo.Settled (GetInfo.c_askQuestions false) true;
                GetInfo.LogNonce (Some 7%Z);
                GetInfo.ConnectionClosed])).
Proof.
  apply (typed_nonce_is_logged_unread (Signed := nat)
           (Demo.helpers (Demo.answers "get nonce" (Some 7%Z)) None (fun _ => true)) 2
           (Demo.answers "get nonce" (Some 7%Z)) 0 0 7%Z []); try reflexivity.
  discriminate.
Defined.

(** X23. In the 'get nonce' workflow with no nonce typed, a nonce read
    successfully from the multisig contract is never logged: [nonce] is bound
    by [const], the assignment throws a TypeError, and the handler logs 'Could
    not get nonce...' with that TypeError; [start] then completes. *)
Theorem fetched_nonce_is_never_logged {Signed W : Type} (H : GetInfo.Helpers Signed W)
    (T : Z) (a : GetInfo.Answers) (w w1 w2 w3 : W) (n : Z)
    (tr : list (GetInfo.Event Signed)) :
  GetInfo.askQuestions H false w = (Resolved a, w1) →
  GetInfo.workflow a = "get nonce" →
  GetInfo.falsy (GetInfo.nonce a) = true →
  GetInfo.waitForContract H "SimpleMultiSig" w1 = (Resolved tt, w2) →
  GetInfo.multiSigNonce H w2 = (Resolved n, w3) →
  GetInfo.start H T (w, tr)
  = (Resolved [],
     (w3, tr ++ [GetInfo.Invoked (GetInfo.c_askQuestions false);
                 GetInfo.Settled (GetInfo.c_askQuestions false) true;
                 GetInfo.Invoked (GetInfo.c_waitForContract "SimpleMultiSig");
                 GetInfo.Settled (GetInfo.c_waitForContract "SimpleMultiSig") true;
                 GetInfo.Invoked GetInfo.c_multiSigNonce;
                 GetInfo.Settled GetInfo.c_multiSigNonce true;
                 GetInfo.LogError "Could not get nonce. Are you connected to the blockchain?"
                   (GetInfo.TypeError "Assignment to constant variable.");
                 GetInfo.ConnectionClosed])).
Proof.
  intros Hask Hwf Hn Hwait Hread. unfold GetInfo.start.
  unfold GetInfo.bind at 1. unfold GetInfo.await at 1. simpl fst. rewrite Hask.
  rewrite Hwf. simpl String.eqb. cbv iota.
  unfold GetInfo.getNonceWorkflow. rewrite Hn.
  unfold GetInfo.bind, GetInfo.ret, GetInfo.try_catch, GetInfo.await, GetInfo.emit,
    GetInfo.throw. simpl.
  rewrite Hwait. simpl. rewrite Hread. simpl.
  rewrite <- !app_assoc. reflexivity.
Qed.

Lemma fetched_nonce_is_never_logged_witness :
  GetInfo.start (Signed := nat)
    (Demo.helpers (Demo.answers "get nonce" None) (Some 5%Z) (fun _ => true)) 2 (0, [])
  = (Resolved [],
     (0, [] ++ [GetInfo.Invoked (GetInfo.c_askQuestions false);
                GetInfo.Settled (GetInfo.c_askQuestions false) true;
                GetInfo.Invoked (GetInfo.c_waitForContract "SimpleMultiSig");
                GetInfo.Settled (GetInfo.c_waitForContract "SimpleMultiSig") true;
                GetInfo.Invoked GetInfo.c_multiSigNonce;
                GetInfo.Settled GetInfo.c_multiSigNonce true;
                GetInfo.LogError "Could not get nonce. Are you connected to the blockchain?"
                  (GetInfo.TypeError "Assignment to constant variable.");
                GetInfo.ConnectionClosed])).
Proof.
  apply (fetched_nonce_is_never_logged (Signed := nat)
           (Demo.helpers (Demo.answers "get nonce" None) (Some 5%Z) (fun _ => true)) 2
           (Demo.answers "get nonce" None) 0 0 0 0 5%Z []); reflexivity.
Defined.

Section PromptFacts.
Import GetInfo GetInfoTrace.
Context {Signed W : Type}.
Variable H : Helpers Signed W.
Variable T : Z.

Lemma executor_prompts_app (a b : list (Event Signed)) :
  executor_prompts (a ++ b) = executor_prompts a + executor_prompts b.
Proof. unfold executor_prompts. rewrite List.filter_app, length_app. reflexivity. Qed.

(** Nothing is ready: the loop does nothing at all. *)
Lemma executeLoop_idle approved : ∀ executor (st : @St Signed W),
  Forall (fun approval => ready T approval = false) approved →
  executeLoop H T approved executor st = (Resolved tt, st).
Proof.
  induction approved as [|approval rest IH]; intros executor st Hn; [reflexivity|].
  inversion Hn as [|? ? Ha Hrest]; subst. simpl. rewrite Ha. apply IH. assumption.
Qed.

(** With the key in hand the loop does not ask again. *)
Lemma executeLoop_key_known approved : ∀ executor (st : @St Signed W),
  truthy executor = true →
  executor_prompts (snd (snd (executeLoop H T approved executor st)))
  = executor_prompts (snd st).
Proof.
  induction approved as [|approval rest IH]; intros executor [w tr] Hk; [reflexivity|].
  simpl executeLoop. destruct (ready T approval); [|apply IH; assumption].
  rewrite Hk. unfold bind at 1. unfold ret at 1.
  unfold bind at 1. unfold emit at 1. simpl fst; simpl snd.
  unfold bind at 1. unfold await at 1. simpl fst; simpl snd.
  destruct (executeMultiSigTransaction H _ executor w) as [[[]|e] w2].
  - rewrite IH by assumption. simpl. rewrite !executor_prompts_app.
    unfold executor_prompts; simpl; lia.
  - simpl. rewrite !executor_prompts_app. unfold executor_prompts; simpl; lia.
Qed.

Lemma executeLoop_asks_once approved : ∀ executor (st : @St Signed W),
  (∀ w ans w', askQuestions H true w = (Resolved ans, w') →
               truthy (GetInfo.executor ans) = true) →
  (executor_prompts (snd (snd (executeLoop H T approved executor st)))
   ≤ S (executor_prompts (snd st)))%nat.
Proof.
  intros executor st Hans. revert executor st.
  induction approved as [|approval rest IH]; intros executor [w tr]; [simpl; lia|].
  simpl executeLoop. destruct (ready T approval); [|apply IH].
  destruct (truthy executor) eqn:Hk.
  - pose proof (executeLoop_key_known (approval :: rest) executor (w, tr) Hk) as E.
    simpl executeLoop in E. (* the same computation, the key being known *)
    assert (Hr : ready T approval = true ∨ ready T approval = false)
      by (destruct (ready T approval); auto).
    unfold bind at 1. unfold ret at 1.
    unfold bind at 1. unfold emit at 1. simpl fst; simpl snd.
    unfold bind at 1. unfold await at 1. simpl fst; simpl snd.
    destruct (executeMultiSigTransaction H _ executor w) as [[[]|e] w2].
    + rewrite executeLoop_key_known by assumption. simpl.
      rewrite !executor_prompts_app. unfold executor_prompts; simpl; lia.
    + simpl. rewrite !executor_prompts_app. unfold executor_prompts; simpl; lia.
  - unfold bind at 1. unfold bind at 1. unfold await at 1. simpl fst; simpl snd.
    destruct (askQuestions H true w) as [[ans|e] w1] eqn:Ea.
    + specialize (Hans _ _ _ Ea). unfold ret at 1.
      unfold bind at 1. unfold emit at 1. simpl fst; simpl snd.
      unfold bind at 1. unfold await at 1. simpl fst; simpl snd.
      destruct (executeMultiSigTransaction H _ (GetInfo.executor ans) w1) as [[[]|e] w2].
      * rewrite executeLoop_key_known by assumption. simpl.
        rewrite !executor_prompts_app. unfold executor_prompts; simpl; lia.
      * simpl. rewrite !executor_prompts_app. unfold executor_prompts; simpl; lia.
    + simpl. rewrite !executor_prompts_app. unfold executor_prompts; simpl; lia.
Qed.

(** The 'add' loop pushes one entry per group, in order; the entry of an
    empty group is [undefined]. *)
Lemma addGroups_entries groups : ∀ approved (st : @St Signed W) r st',
  addGroups H groups approved st = (Resolved r, st') →
  ∃ entries, r = approved ++ entries
             ∧ List.length entries = List.length groups
             ∧ ∀ i, groups !! i = Some [] → entries !! i = Some None.
Proof.
  induction groups as [|txs rest IH]; intros approved st r st' E.
  - simpl in E. inversion E; subst. exists []. rewrite app_nil_r.
    repeat split. intros i Hi. discriminate.
  - simpl in E. unfold bind at 1 in E.
    destruct (addEach H txs None st) as [[approvals|e] st1] eqn:E1; [|discriminate].
    destruct (IH _ _ _ _ E) as (entries & -> & Hlen & Hempty).
    exists (approvals :: entries). rewrite <- app_assoc. split; [reflexivity|].
    split; [simpl; lia|].
    intros [|i] Hi; simpl in *.
    + inversion Hi; subst. simpl in E1. inversion E1. reflexivity.
    + apply Hempty. assumption.
Qed.

Lemma additions_app (a b : list (Event Signed)) :
  additions (a ++ b) = additions a ++ additions b.
Proof. apply omap_app. Qed.

(** The calls of [addSignedTransaction] are the transactions of the groups,
    in order, up to the first rejection. *)
Lemma addEach_additions txs : ∀ approvals (st : @St Signed W) out,
  addEach H txs approvals st = out →
  ∃ new, snd (snd out) = snd st ++ new
         ∧ additions new `prefix_of` txs
         ∧ (∀ r, fst out = Resolved r → additions new = txs).
Proof.
  induction txs as [|tx rest IH]; intros approvals [w tr] out Eout.
  - subst out. exists []. simpl. rewrite app_nil_r. split; [reflexivity|].
    split; reflexivity.
  - simpl in Eout. unfold bind at 1 in Eout. unfold await at 1 in Eout.
    simpl fst in Eout; simpl snd in Eout.
    destruct (addSignedTransaction H tx w) as [[r|e] w1].
    + destruct (IH _ _ out Eout) as (new & E & Hp & Hall).
      exists ([Invoked (c_addSignedTransaction tx); Settled (c_addSignedTransaction tx) true]
                ++ new).
      simpl in E. rewrite <- app_assoc in E. split; [exact E|].
      rewrite additions_app.
      change (additions [Invoked (c_addSignedTransaction tx);
                         Settled (c_addSignedTransaction tx) true]) with [tx].
      split; [apply prefix_cons; exact Hp|].
      intros r' Hr'. f_equal. eapply Hall. exact Hr'.
    + subst out.
      exists [Invoked (c_addSignedTransaction tx); Settled (c_addSignedTransaction tx) false].
      simpl. split; [reflexivity|]. split; [apply prefix_cons, prefix_nil|].
      intros r' Hr'. discriminate.
Qed.

Lemma addGroups_additions groups : ∀ approved (st : @St Signed W) out,
  addGroups H groups approved st = out →
  ∃ new, snd (snd out) = snd st ++ new
         ∧ additions new `prefix_of` concat groups
         ∧ (∀ r, fst out = Resolved r → additions new = concat groups).
Proof.
  induction groups as [|txs rest IH]; intros approved [w tr] out Eout.
  - subst out. exists []. simpl. rewrite app_nil_r. split; [reflexivity|].
    split; reflexivity.
  - simpl in Eout. unfold bind at 1 in Eout.
    destruct (addEach_additions txs None (w, tr) _ eq_refl) as (new1 & E1 & Hp1 & Hall1).
    destruct (addEach H txs None (w, tr)) as [[approvals|e] [w1 tr1]]; simpl in E1; subst tr1.
    + specialize (Hall1 _ eq_refl).
      destruct (IH _ _ out Eout) as (new2 & E2 & Hp2 & Hall2).
      exists (new1 ++ new2). simpl in E2. rewrite <- app_assoc in E2.
      split; [exact E2|]. rewrite additions_app, Hall1.
      split; [apply prefix_app; exact Hp2|].
      intros r Hr. simpl. f_equal. eapply Hall2. exact Hr.
    + subst out. exists new1. simpl. split; [reflexivity|].
      split; [|intros r Hr; discriminate].
      destruct Hp1 as [k ->]. exists (k ++ concat rest). rewrite app_assoc. reflexivity.
Qed.
End PromptFacts.

(** X24. When no approval holds exactly [SIGNATURE_THRESHOLD] signatures
    (too few, too many, or [undefined]) the executor loop does nothing: the
    operator is not asked for the executor key and nothing is submitted. *)
Theorem nothing_ready_nothing_done {Signed W : Type} (H : GetInfo.Helpers Signed W) (T : Z)
    (approved : list (option (list Signed))) (executor : option string)
    (st : W * list (GetInfo.Event Signed)) :
  (∀ approval, approval ∈ approved →
     ∀ signatures, approval = Some signatures → Z.of_nat (List.length signatures) ≠ T) →
  GetInfo.executeLoop H T approved executor st = (Resolved tt, st).
Proof.
  intros Hnone. apply executeLoop_idle. apply Forall_forall. intros approval Hin.
  destruct (GetInfo.ready T approval) eqn:Hr; [|reflexivity].
  apply (proj1 (ready_exact T approval)) in Hr. destruct Hr as (l & -> & Hl).
  exfalso. eapply Hnone; eauto.
Qed.

Lemma nothing_ready_nothing_done_witness :
  GetInfo.executeLoop (Demo.helpers (Demo.answers "add" None) None (fun _ => true)) 2
    [Some [1]; None; Some [1; 2; 3]] None (0, [])
  = (Resolved tt, (0, [])).
Proof.
  apply (nothing_ready_nothing_done
           (Demo.helpers (Demo.answers "add" None) None (fun _ => true)) 2
           [Some [1]; None; Some [1; 2; 3]] None (0, [])).
  intros approval Hin signatures ->.
  apply list_elem_of_In in Hin. simpl in Hin.
  destruct Hin as [E|[E|[E|[]]]]; inversion E; subst; simpl; lia.
Defined.

(** X25. The operator is asked for the executor key at most once in a run
    of the loop, provided the answer given is a non-empty key: the key asked
    for at the first ready approval is used for all later ones. *)
Theorem executor_key_asked_at_most_once {Signed W : Type} (H : GetInfo.Helpers Signed W)
    (T : Z) (approved : list (option (list Signed))) (executor : option string)
    (st : W * list (GetInfo.Event Signed)) :
  (∀ w ans w', GetInfo.askQuestions H true w = (Resolved ans, w') →
               GetInfo.truthy (GetInfo.executor ans) = true) →
  (GetInfoTrace.executor_prompts (snd (snd (GetInfo.executeLoop H T approved executor st)))
   ≤ S (GetInfoTrace.executor_prompts (snd st)))%nat
  ∧ (GetInfo.truthy executor = true →
     GetInfoTrace.executor_prompts (snd (snd (GetInfo.executeLoop H T approved executor st)))
     = GetInfoTrace.executor_prompts (snd st)).
Proof.
  intros Hans. split.
  - apply executeLoop_asks_once. exact Hans.
  - apply executeLoop_key_known.
Qed.

Lemma executor_key_asked_at_most_once_witness :
  (GetInfoTrace.executor_prompts
     (snd (snd (GetInfo.executeLoop
                  (Demo.helpers (Demo.answers "add" None) None (fun _ => true)) 2
                  [Some [1; 2]; Some [3; 4]; Some [5; 6]] None (0, []))))
   ≤ S (GetInfoTrace.executor_prompts (@nil (GetInfo.Event nat))))%nat.
Proof.
  apply (proj1 (executor_key_asked_at_most_once
                  (Demo.helpers (Demo.answers "add" None) None (fun _ => true)) 2
                  [Some [1; 2]; Some [3; 4]; Some [5; 6]] None (0, [])
                  ltac:(intros w ans w' E; inversion E; reflexivity))).
Defined.

(** X26. The 'add' workflow: when [verifyTransactions] returns a falsy
    value nothing is added and [approved] is unchanged; otherwise
    [addSignedTransaction] is called on the transactions of the groups in
    order (all of them when the workflow resolves, and none after a
    rejection), and [approved] gains one entry per group, in group order, the
    entry of an empty group being [undefined]. *)
Theorem add_workflow_visits_groups_in_order {Signed W : Type}
    (H : GetInfo.Helpers Signed W) (a : GetInfo.Answers)
    (approved : list (option (list Signed))) (st : W * list (GetInfo.Event Signed)) :
  (GetInfo.verifyTransactions H (GetInfo.signedTx a) = None →
   GetInfo.addWorkflow H a approved st = (Resolved approved, st))
  ∧ (∀ groups,
       GetInfo.verifyTransactions H (GetInfo.signedTx a) = Some groups →
       ∃ new,
         snd (snd (GetInfo.addWorkflow H a approved st)) = snd st ++ new
         ∧ GetInfoTrace.additions new `prefix_of` concat groups
         ∧ ∀ r, fst (GetInfo.addWorkflow H a approved st) = Resolved r →
                GetInfoTrace.additions new = concat groups
                ∧ ∃ entries, r = approved ++ entries
                             ∧ List.length entries = List.length groups
                             ∧ ∀ i, groups !! i = Some [] → entries !! i = Some None).
Proof.
  unfold GetInfo.addWorkflow. split.
  - intros ->. reflexivity.
  - intros groups ->.
    destruct (addGroups_additions H groups approved st _ eq_refl) as (new & E & Hp & Hall).
    exists new. split; [exact E|]. split; [exact Hp|].
    intros r Hr. split; [eapply Hall; exact Hr|].
    destruct (GetInfo.addGroups H groups approved st) as [r0 st'] eqn:Eg.
    simpl in Hr. subst r0. eapply addGroups_entries. exact Eg.
Qed.

Lemma add_workflow_visits_groups_in_order_witness :
  GetInfo.addWorkflow (Signed := nat)
    (Demo.helpers (Demo.answers "add" None) None (fun _ => true))
    (Demo.answers "add" None) [] (0, [])
  = (Resolved [], (0, []))
  ∧ GetInfoTrace.additions
      (snd (snd (GetInfo.addWorkflow (Demo.helpersPasted [[1; 2]; []; [3]])
                   (Demo.answers "add" None) [Some [9]] (0, []))))
    = [1; 2; 3]
  ∧ ∃ entries,
      fst (GetInfo.addWorkflow (Demo.helpersPasted [[1; 2]; []; [3]])
             (Demo.answers "add" None) [Some [9]] (0, []))
      = Resolved ([Some [9]] ++ entries)
      ∧ List.length entries = 3
      ∧ entries !! 1 = Some None.
Proof.
  split.
  - apply (proj1 (add_workflow_visits_groups_in_order (Signed := nat)
                    (Demo.helpers (Demo.answers "add" None) None (fun _ => true))
                    (Demo.answers "add" None) [] (0, []))).
    reflexivity.
  - destruct (proj2 (add_workflow_visits_groups_in_order
                       (Demo.helpersPasted [[1; 2]; []; [3]])
                       (Demo.answers "add" None) [Some [9]] (0, []))
                [[1; 2]; []; [3]] eq_refl) as (new & Etr & _ & Hall).
    destruct (Hall [Some [9]; Some [2]; None; Some [3]] eq_refl)
      as (Hadd & entries & Er & Hlen & Hempty).
    split; [rewrite Etr; exact Hadd|].
    exists entries. split; [|split; [exact Hlen|apply Hempty; reflexivity]].
    rewrite <- Er. reflexivity.
Defined.

(** X27. As long as the nonces stay within [2^53] in magnitude, the calls
    of one bundle carry pairwise different nonces, and a bundle built with the
    base nonce right after the last nonce of another shares no nonce with
    it. *)
Theorem bundle_nonces_never_repeat (toAddress : string -> string) (this : ContractMultiSig.t)
    (a b : ContractMultiSig.Action) (signingKey executorAddress : string) (n : Z) :
  let first :=
    ContractMultiSig.perform (fun _ r => r) toAddress this a signingKey executorAddress n in
  let second :=
    ContractMultiSig.perform (fun _ r => r) toAddress this b signingKey executorAddress
      (n + Z.of_nat (List.length first)) in
  (- JsNumber.limit ≤ n)%Z →
  (n + Z.of_nat (List.length first) + Z.of_nat (List.length second) - 1 ≤ JsNumber.limit)%Z →
  NoDup (ContractMultiSig.nonce <$> first)
  ∧ ∀ x, x ∈ ContractMultiSig.nonce <$> first → x ∉ ContractMultiSig.nonce <$> second.
Proof.
  intros first second Hlo Hhi.
  assert (Hlen : ∀ act base,
             List.length (ContractMultiSig.perform (fun _ r => r) toAddress this act signingKey
                            executorAddress base)
             = List.length (ContractMultiSig.targets this act)).
  { intros act base. rewrite perform_imap. apply length_imap. }
  unfold first, second in Hhi. rewrite !Hlen in Hhi.
  assert (Hfirst : ContractMultiSig.nonce <$> first
                   = (fun i => (n + Z.of_nat i)%Z)
                       <$> seq 0 (List.length (ContractMultiSig.targets this a))).
  { apply perform_nonces. right. lia. }
  assert (Hsecond : ContractMultiSig.nonce <$> second
                    = (fun i => (n + Z.of_nat (List.length first) + Z.of_nat i)%Z)
                        <$> seq 0 (List.length (ContractMultiSig.targets this b))).
  { apply perform_nonces. right. unfold first. rewrite Hlen. lia. }
  split.
  - rewrite Hfirst. apply NoDup_fmap_2; [|apply NoDup_seq].
    intros i j E. lia.
  - intros x Hx Hy. rewrite Hfirst in Hx. rewrite Hsecond in Hy.
    unfold first in Hy. rewrite Hlen in Hy.
    apply list_elem_of_fmap in Hx. destruct Hx as (i & -> & Hi).
    apply list_elem_of_fmap in Hy. destruct Hy as (j & E & Hj).
    apply elem_of_seq in Hi. lia.
Qed.

Lemma bundle_nonces_never_repeat_witness :
  (5%Z : Z) ∉ ContractMultiSig.nonce
                <$> ContractMultiSig.perform (fun _ r => r) (Nf3.privateKeyToAddress Demo.web3)
                      Demo.multisig (ContractMultiSig.TransferOwnership "0xnew") "0xkey1"
                      "0xexecutor"
                      (5 + Z.of_nat
                             (List.length
                                (ContractMultiSig.perform (fun _ r => r)
                                   (Nf3.privateKeyToAddress Demo.web3) Demo.multisig
                                   ContractMultiSig.Pause "0xkey1" "0xexecutor" 5))).
Proof.
  pose proof (bundle_nonces_never_repeat (Nf3.privateKeyToAddress Demo.web3) Demo.multisig
                ContractMultiSig.Pause (ContractMultiSig.TransferOwnership "0xnew")
                "0xkey1" "0xexecutor" 5) as Hrepeat.
  cbv zeta in Hrepeat.
  apply (proj2 (Hrepeat ltac:(vm_compute; discriminate) ltac:(vm_compute; discriminate)) 5%Z).
  left.
Defined.
